(** * litesoph: task orchestration core

  A shallow embedding of the job-script builder and of the task life
  cycle of [litesoph/common/task.py] and
  [litesoph/engines/nwchem/nwchem_task.py], with the properties of the
  specification stated and settled over it.

  Python texts are [string]s, [None]-able arguments are [option]s,
  integers are [Z], dictionaries are insertion-ordered association
  lists, and objects that are shared by reference live in a store. *)

From Stdlib Require Import Ascii String ZArith Lia SpecFloat.
From stdpp Require Import base decidable option list strings pretty gmap sets.

#[local] Set Warnings "-register-all".

Local Open Scope Z_scope.

(** ** Python text primitives *)

Module PyStr.

Definition nl : ascii := "010"%char.

(** The separator of ['\n'.join]. *)
Definition newline : string := String nl "".

(** ['\n'.join(l)] *)
Definition join (l : list string) : string := String.concat newline l.

(** [s.split('\n')]: never empty, the pieces hold no newline. *)
Fixpoint split_lines (s : string) : list string :=
  match s with
  | EmptyString => [EmptyString]
  | String c s' =>
      if decide (c = nl) then EmptyString :: split_lines s'
      else match split_lines s' with
           | l :: ls => String c l :: ls
           | [] => [String c EmptyString]
           end
  end.

Definition first_line (s : string) : option string := head (split_lines s).
Definition last_line (s : string) : option string := last (split_lines s).

(** [s.startswith(p)] *)
Fixpoint starts_with (p s : string) : bool :=
  match p, s with
  | EmptyString, _ => true
  | String _ _, EmptyString => false
  | String a p', String b s' => bool_decide (a = b) && starts_with p' s'
  end.

(** [pat in s] *)
Fixpoint occurs (pat s : string) : bool :=
  starts_with pat s ||
  match s with
  | EmptyString => false
  | String _ s' => occurs pat s'
  end.

(** [c in s] for a single character. *)
Fixpoint has_char (c : ascii) (s : string) : bool :=
  match s with
  | EmptyString => false
  | String a s' => bool_decide (a = c) || has_char c s'
  end.

Definition first_char (s : string) : option ascii :=
  match s with EmptyString => None | String a _ => Some a end.

Fixpoint last_char (s : string) : option ascii :=
  match s with
  | EmptyString => None
  | String a EmptyString => Some a
  | String _ s' => last_char s'
  end.

(** Truth value of an optional text: [None] and [''] are false. *)
Definition truthy (o : option string) : bool :=
  match o with
  | Some s => negb (bool_decide (s = EmptyString))
  | None => false
  end.

(** No character of a text is [c]. *)
Fixpoint avoids (c : ascii) (s : string) : bool :=
  match s with
  | EmptyString => true
  | String a s' => negb (bool_decide (a = c)) && avoids c s'
  end.

(** A decimal digit, and a text made of digits only. *)
Definition is_digit (c : ascii) : bool :=
  match Ascii.is_nat c with Some _ => true | None => false end.

Fixpoint all_digits (s : string) : bool :=
  match s with
  | EmptyString => true
  | String a s' => is_digit a && all_digits s'
  end.

(** [pat in o] for an optional text; an absent text holds nothing. *)
Definition mentions (pat : string) (o : option string) : bool :=
  match o with
  | Some s => occurs pat s
  | None => false
  end.

End PyStr.

Import PyStr.

(** ** The job-script builder, [assemable_job_cmd] of task.py *)

Module JobScript.

Definition job_script_first_line : string := "#!/bin/bash".
Definition remote_job_script_last_line : string := "touch Done".

(** [if block: job_script.append(block)] *)
Definition append_if_set (block : option string) (job_script : list string)
  : list string :=
  match block with
  | Some b => if truthy block then job_script ++ [b] else job_script
  | None => job_script
  end.

(** The launcher used by the parallel branch: [mpi_path], or the
    literal fallback when it is not set. *)
Definition launcher (mpi_path : option string) : string :=
  match mpi_path with
  | Some m => if truthy mpi_path then m else "mpirun"
  | None => "mpirun"
  end.

(** The line appended by the [if engine_cmd:] block (lines 234-240):
    [f'{mpi_path} -np {np:d} {engine_cmd}'] when [np > 1], otherwise
    [f"bash -c 'echo $$;  {engine_cmd}'"]. *)
Definition execution_line (engine_cmd : string) (np : Z)
    (mpi_path : option string) : string :=
  if bool_decide (np > 1)
  then launcher mpi_path +:+ " -np " +:+ pretty np +:+ " " +:+ engine_cmd
  else "bash -c 'echo $$;  " +:+ engine_cmd +:+ "'".

Definition append_execution (engine_cmd : option string) (np : Z)
    (mpi_path : option string) (job_script : list string) : list string :=
  match engine_cmd with
  | Some cmd =>
      if truthy engine_cmd
      then job_script ++ [execution_line cmd np mpi_path]
      else job_script
  | None => job_script
  end.

(** The [cd] line of the script, when a working directory is set. *)
Definition cd_lines (cd_path : option string) : list string :=
  match cd_path with
  | Some p => if truthy cd_path then ["cd " +:+ p +:+ ";"] else []
  | None => []
  end.

(** The list [job_script] as it stands just before the final join. *)
Definition job_script_lines (engine_cmd : option string) (np : Z)
    (cd_path mpi_path : option string) (remote : bool)
    (scheduler_block module_load_block extra_block : option string)
  : list string :=
  let job_script := [job_script_first_line] in
  let job_script :=
    if remote
    then append_if_set module_load_block
           (append_if_set scheduler_block job_script)
    else job_script in
  let job_script :=
    match cd_path with
    | Some p =>
        if truthy cd_path then job_script ++ ["cd " +:+ p +:+ ";"]
        else job_script
    | None => job_script
    end in
  let job_script := append_execution engine_cmd np mpi_path job_script in
  let job_script := append_if_set extra_block job_script in
  let job_script :=
    if remote then job_script ++ [remote_job_script_last_line]
    else job_script in
  job_script.

Definition assemable_job_cmd (engine_cmd : option string) (np : Z)
    (cd_path mpi_path : option string) (remote : bool)
    (scheduler_block module_load_block extra_block : option string)
  : string :=
  join (job_script_lines engine_cmd np cd_path mpi_path remote
          scheduler_block module_load_block extra_block).

End JobScript.

Import JobScript.

(** ** Python values, dictionaries and exceptions *)

Module Py.

(** The values that flow through parameter dictionaries.  A dictionary
    keeps its insertion order; every key in the sources is a text. *)
Inductive pyval : Type :=
| PyNone
| PyBool (b : bool)
| PyInt (z : Z)
| PyFloat (f : spec_float)
| PyStr (s : string)
| PyList (l : list pyval)
| PyDict (d : list (string * pyval)).

Abbreviation dict := (list (string * pyval)).

(** The exception classes of task.py and the built-in ones the modelled
    code can raise. *)
Inductive exn : Type :=
| InputError (msg : string)
| TaskFailed (msg : string)
| KeyError (key : string)
| AttributeError (what : string)
| TypeError (what : string)
| IndexError (what : string)
| ValueError (what : string)
| UnboundLocalError (name : string)
| EngineError (what : string)
| FileExistsError (path : string)
| NotADirectoryError (path : string).

(** [class InputError(TaskSetupError)]: the input-validation kind. *)
Definition is_TaskSetupError (e : exn) : bool :=
  match e with InputError _ => true | _ => false end.

Definition result (A : Type) : Type := exn + A.

Definition ok {A} (x : A) : result A := inr x.
Definition throw {A} (e : exn) : result A := inl e.

#[global] Instance result_ret : MRet result := fun A x => inr x.
#[global] Instance result_bind : MBind result := fun A B f m =>
  match m with inl e => inl e | inr x => f x end.
#[global] Instance result_fmap : FMap result := fun A B f m =>
  match m with inl e => inl e | inr x => inr (f x) end.

(** [bool(v)] *)
Definition py_truthy (v : pyval) : bool :=
  match v with
  | PyNone => false
  | PyBool b => b
  | PyInt z => negb (z =? 0)
  | PyFloat f => match f with S754_zero _ => false | _ => true end
  | PyStr s => negb (bool_decide (s = EmptyString))
  | PyList l => match l with [] => false | _ => true end
  | PyDict d => match d with [] => false | _ => true end
  end.

Fixpoint dict_lookup (k : string) (d : dict) : option pyval :=
  match d with
  | [] => None
  | (k', v) :: d' => if decide (k' = k) then Some v else dict_lookup k d'
  end.

(** [d.get(k)] and [d.get(k, dflt)] *)
Definition dict_get (k : string) (d : dict) : pyval :=
  default PyNone (dict_lookup k d).
Definition dict_get_default (k : string) (dflt : pyval) (d : dict) : pyval :=
  default dflt (dict_lookup k d).

(** [d[k] = v]: an existing key keeps its place, a new one goes last. *)
Fixpoint dict_set (k : string) (v : pyval) (d : dict) : dict :=
  match d with
  | [] => [(k, v)]
  | (k', v') :: d' =>
      if decide (k' = k) then (k, v) :: d' else (k', v') :: dict_set k v d'
  end.

Fixpoint dict_remove (k : string) (d : dict) : dict :=
  match d with
  | [] => []
  | (k', v) :: d' =>
      if decide (k' = k) then d' else (k', v) :: dict_remove k d'
  end.

(** [d.update(other)] *)
Definition dict_update (d other : dict) : dict :=
  foldl (fun acc kv => dict_set kv.1 kv.2 acc) d other.

(** [v[k]] for a text key. *)
Definition py_getitem (v : pyval) (k : string) : result pyval :=
  match v with
  | PyDict d =>
      match dict_lookup k d with
      | Some x => ok x
      | None => throw (KeyError k)
      end
  | _ => throw (TypeError "subscript")
  end.

(** [v[k] = x] for a text key. *)
Definition py_setitem (v : pyval) (k : string) (x : pyval) : result pyval :=
  match v with
  | PyDict d => ok (PyDict (dict_set k x d))
  | _ => throw (TypeError "item assignment")
  end.

(** [v.get(k)] *)
Definition py_get (v : pyval) (k : string) : result pyval :=
  match v with
  | PyDict d => ok (dict_get k d)
  | _ => throw (AttributeError "get")
  end.

(** [s in v] for a text [s]. *)
Definition py_contains_str (s : string) (v : pyval) : result bool :=
  match v with
  | PyDict d => ok (bool_decide (is_Some (dict_lookup s d)))
  | PyList l =>
      ok (existsb (fun x => match x with
                            | PyStr t => bool_decide (t = s)
                            | _ => false
                            end) l)
  | PyStr t => ok (occurs s t)
  | _ => throw (TypeError "not iterable")
  end.

(** [a + b] where [b] is a text literal. *)
Definition py_add_str (a : pyval) (b : string) : result string :=
  match a with
  | PyStr s => ok (s +:+ b)
  | _ => throw (TypeError "+")
  end.

(** Whether a float is exactly the integer [z]. *)
Definition float_eq_Z (f : spec_float) (z : Z) : bool :=
  match f with
  | S754_zero _ => z =? 0
  | S754_finite s m e =>
      let mag := if (0 <=? e) then Z.pos m * 2 ^ e else Z.pos m in
      let rhs := if (0 <=? e) then Z.abs z else Z.abs z * 2 ^ (- e) in
      (mag =? rhs) && negb (z =? 0) && Bool.eqb s (z <? 0)
  | _ => false
  end.

(** [v == z] for an integer literal [z]. *)
Definition py_eq_int (v : pyval) (z : Z) : bool :=
  match v with
  | PyInt n => n =? z
  | PyBool b => Z.b2z b =? z
  | PyFloat f => float_eq_Z f z
  | _ => false
  end.

(** [v == [a, b, c]] for a literal list of three integers. *)
Definition py_eq_int3 (v : pyval) (a b c : Z) : bool :=
  match v with
  | PyList [x; y; z] => py_eq_int x a && py_eq_int y b && py_eq_int z c
  | _ => false
  end.

End Py.

Import Py.

(** ** Paths and the file system *)

Module Paths.

(** A [pathlib.Path] as its components; the root of an absolute path is
    the first component, the empty text for [/] and a slash for [//]. *)
Definition path : Type := list string.

Definition is_root (c : string) : bool :=
  bool_decide (c = "") || bool_decide (c = "/").

(** [str(p)]: the components joined with a slash; the path without
    components is the dot, and a bare root is written as such. *)
Definition path_str (p : path) : string :=
  match p with
  | [] => "."
  | [c] => if is_root c then c +:+ "/" else c
  | _ => String.concat "/" p
  end.

(** [s.split('/')] *)
Fixpoint split_slash (s : string) : list string :=
  match s with
  | EmptyString => [EmptyString]
  | String c s' =>
      if decide (c = "/"%char) then EmptyString :: split_slash s'
      else match split_slash s' with
           | l :: ls => String c l :: ls
           | [] => [String c EmptyString]
           end
  end.

(** [pathlib.Path(s)] on a POSIX system: a leading slash is the root
    (exactly two leading slashes are kept as the root [//]), empty
    components and dots are dropped. *)
Definition Path (s : string) : path :=
  (if starts_with "//" s && negb (starts_with "///" s) then ["/"]
   else if starts_with "/" s then [""]
   else [])
  ++ filter (fun c => c <> "" /\ c <> ".") (split_slash s).

(** [p / name] for a relative name ([pathlib] normalisation of the
    operand is not modelled). *)
Definition path_div (p : path) (name : string) : path := p ++ [name].

(** [p.parent]; a root is its own parent. *)
Definition parent (p : path) : path :=
  match p with
  | [c] => if is_root c then [c] else []
  | _ => removelast p
  end.

(** [p.name] *)
Definition name (p : path) : string := List.last p EmptyString.

(** [p.relative_to(base)] *)
Fixpoint relative_to (p base : path) : result path :=
  match base, p with
  | [] , _ => ok p
  | b :: base', c :: p' =>
      if decide (b = c) then relative_to p' base'
      else throw (ValueError "relative_to")
  | _ :: _, [] => throw (ValueError "relative_to")
  end.

(** The directory and all the directories above it, as [os.makedirs]
    creates them. *)
Fixpoint ancestors (p : path) : list path :=
  match p with
  | [] => []
  | c :: p' => [c] :: map (cons c) (ancestors p')
  end.

(** Modelled from the spec: the sibling of a directory name that
    [get_new_directory] mints, [<task_type>_<n>] in the same parent
    ([get_new_directory] lives in [litesoph/common/utils.py], which is
    not among the sources). *)
Definition sibling (p : path) (n : nat) : path :=
  path_div (parent p) (name p +:+ "_" +:+ pretty n).

(** Modelled from the spec: the search of [get_new_directory] for the
    first integer from [n] on whose sibling name is unused ("n starting
    at the next unused integer").  The search gives up after as many
    steps as there are existing paths, which is never reached. *)
Fixpoint next_unused (fs : gset path) (p : path) (fuel n : nat) : path :=
  if decide (sibling p n ∈ fs)
  then match fuel with
       | O => sibling p (S n)
       | S fuel' => next_unused fs p fuel' (S n)
       end
  else sibling p n.

(** Modelled from the spec: [get_new_directory] of
    [litesoph/common/utils.py], which is not among the sources.  The
    canonical name is kept when no directory of that name exists;
    otherwise a new sibling is minted, [_<n>] being appended with the
    first unused [n] from 1 on. *)
Definition get_new_directory (fs : gset path) (p : path) : path :=
  if decide (p ∈ fs) then next_unused fs p (size fs) 1 else p.

End Paths.

Import Paths.

(** ** Task records and the store of shared objects *)

Module TaskInfo.

(** [task_info.state]: the two flags the life cycle sets. *)
Record TaskState : Type := {
  input_created : bool;
  input_saved : bool
}.

(** The [TaskInfo] data class (declared outside the sources): the fields
    the modelled code reads and writes.  [param] and [engine_param] are
    references to dictionary objects of the store. *)
Record t : Type := {
  name : string;
  engine : string;
  path : Paths.path;
  param : positive;
  engine_param : positive;
  input : dict;
  output : dict;
  state : TaskState;
  local : dict;
  network : dict
}.

Definition set_input (x : dict) (i : t) : t :=
  {| name := name i; engine := engine i; path := path i; param := param i;
     engine_param := engine_param i; input := x; output := output i;
     state := state i; local := local i; network := network i |}.

Definition set_output (x : dict) (i : t) : t :=
  {| name := name i; engine := engine i; path := path i; param := param i;
     engine_param := engine_param i; input := input i; output := x;
     state := state i; local := local i; network := network i |}.

Definition set_state (x : TaskState) (i : t) : t :=
  {| name := name i; engine := engine i; path := path i; param := param i;
     engine_param := engine_param i; input := input i; output := output i;
     state := x; local := local i; network := network i |}.

End TaskInfo.

Module Store.

Definition loc : Type := positive.

(** What the modelled code shares by reference: the directories and
    the regular files that exist, the dictionary objects and the
    [TaskInfo] objects.  Of the file system only the two kinds of path
    are kept: links, devices and access rights are left out. *)
Record world : Type := {
  w_fs : gset path;
  w_files : gset path;
  w_dicts : gmap loc dict;
  w_infos : gmap loc TaskInfo.t
}.

(** A computation reads and writes the world and returns a value or
    raises; what it wrote before raising stays written. *)
Definition M (A : Type) : Type := world -> result A * world.

#[global] Instance M_ret : MRet M := fun A x w => (inr x, w).
#[global] Instance M_bind : MBind M := fun A B f m w =>
  match m w with
  | (inr x, w') => f x w'
  | (inl e, w') => (inl e, w')
  end.

Definition raise {A} (e : exn) : M A := fun w => (inl e, w).
Definition lift {A} (r : result A) : M A := fun w => (r, w).

Definition get_fs : M (gset path) := fun w => (inr (w_fs w), w).
Definition get_files : M (gset path) := fun w => (inr (w_files w), w).
Definition set_fs (fs : gset path) : M unit := fun w =>
  (inr tt, {| w_fs := fs; w_files := w_files w; w_dicts := w_dicts w;
            w_infos := w_infos w |}).

Definition get_info (l : loc) : M TaskInfo.t := fun w =>
  match w_infos w !! l with
  | Some i => (inr i, w)
  | None => (inl (AttributeError "task_info"), w)
  end.
Definition put_info (l : loc) (i : TaskInfo.t) : M unit := fun w =>
  (inr tt, {| w_fs := w_fs w; w_files := w_files w; w_dicts := w_dicts w;
              w_infos := <[l := i]> (w_infos w) |}).

Definition read_dict (l : loc) : M dict := fun w =>
  match w_dicts w !! l with
  | Some d => (inr d, w)
  | None => (inl (AttributeError "dict"), w)
  end.
Definition write_dict (l : loc) (d : dict) : M unit := fun w =>
  (inr tt, {| w_fs := w_fs w; w_files := w_files w;
              w_dicts := <[l := d]> (w_dicts w);
              w_infos := w_infos w |}).

(** A new dictionary object: its reference is one no object has yet. *)
Definition alloc_dict (d : dict) : M loc := fun w =>
  let l := fresh (dom (w_dicts w)) in
  (inr l, {| w_fs := w_fs w; w_files := w_files w;
             w_dicts := <[l := d]> (w_dicts w);
             w_infos := w_infos w |}).

(** [copy.deepcopy(d)] of a dictionary object: the same value in a new
    object (values are trees, so nothing below it is shared either). *)
Definition deepcopy (l : loc) : M loc :=
  d ← read_dict l; alloc_dict d.

(** [d[k] = v], [d.pop(k)] and [d.pop(k, dflt)] on a dictionary object. *)
Definition setitem (l : loc) (k : string) (v : pyval) : M unit :=
  d ← read_dict l; write_dict l (dict_set k v d).
Definition pop (l : loc) (k : string) : M pyval :=
  d ← read_dict l;
  match dict_lookup k d with
  | Some v => write_dict l (dict_remove k d);; mret v
  | None => raise (KeyError k)
  end.
Definition pop_default (l : loc) (k : string) (dflt : pyval) : M pyval :=
  d ← read_dict l;
  match dict_lookup k d with
  | Some v => write_dict l (dict_remove k d);; mret v
  | None => mret dflt
  end.

End Store.

Import Store.

(** ** The base class [Task] of task.py *)

Module TaskCls.

(** The attributes assigned in the class body: [id] and [BASH_filename]
    are evaluated once, when the class is created. *)
Record t : Type := {
  id : string;
  BASH_filename : string
}.

(** The class body, given the text [str(uuid.uuid4())] produced there. *)
Definition class_body (uuid4 : string) : t :=
  {| id := uuid4;
     BASH_filename := "ls_job_script_" +:+ uuid4 +:+ ".sh" |}.

End TaskCls.

(** [SubmitNetwork] is declared outside the sources; only whether the
    attribute is set matters here. *)
Variant SubmitNetwork : Type := SubmitNetworkObj (args : list pyval).

(** The attributes [Task.__init__] sets, and the two set later by
    [create_job_script] and [connect_to_network]. *)
Record Task : Type := {
  lsconfig : gmap string (gmap string string);
  task_info : loc;
  task_name : string;
  dependent_tasks : option (list loc);
  directory : path;
  project_dir : path;
  engine_name : string;
  engine_path : string;
  mpi_path : string;
  python_path : string;
  job_script : option string;
  submit_network : option SubmitNetwork
}.

Definition set_engine_path (x : string) (t : Task) : Task :=
  {| lsconfig := lsconfig t; task_info := task_info t;
     task_name := task_name t; dependent_tasks := dependent_tasks t;
     directory := directory t; project_dir := project_dir t;
     engine_name := engine_name t; engine_path := x;
     mpi_path := mpi_path t; python_path := python_path t;
     job_script := job_script t; submit_network := submit_network t |}.

Definition set_job_script (x : string) (t : Task) : Task :=
  {| lsconfig := lsconfig t; task_info := task_info t;
     task_name := task_name t; dependent_tasks := dependent_tasks t;
     directory := directory t; project_dir := project_dir t;
     engine_name := engine_name t; engine_path := engine_path t;
     mpi_path := mpi_path t; python_path := python_path t;
     job_script := Some x; submit_network := submit_network t |}.

(** [connect_to_network]: sets the attribute [submit_network]. *)
Definition connect_to_network (args : list pyval) (t : Task) : Task :=
  {| lsconfig := lsconfig t; task_info := task_info t;
     task_name := task_name t; dependent_tasks := dependent_tasks t;
     directory := directory t; project_dir := project_dir t;
     engine_name := engine_name t; engine_path := engine_path t;
     mpi_path := mpi_path t; python_path := python_path t;
     job_script := job_script t;
     submit_network := Some (SubmitNetworkObj args) |}.

(** [lsconfig[section]] *)
Definition cfg_section (cfg : gmap string (gmap string string))
    (section : string) : result (gmap string string) :=
  match cfg !! section with
  | Some s => ok s
  | None => throw (KeyError section)
  end.

Definition Task__init__ (lsconfig : gmap string (gmap string string))
    (task_info : loc) (dependent_tasks : option (list loc)) : M Task :=
  info ← get_info task_info;
  let engine_name := TaskInfo.engine info in
  engine ← lift (cfg_section lsconfig "engine");
  let engine_path := default engine_name (engine !! engine_name) in
  mpi ← lift (cfg_section lsconfig "mpi");
  let mpi_path := default "mpirun" (mpi !! "mpirun") in
  let mpi_path := default mpi_path (mpi !! (engine_name +:+ "_mpi")) in
  programs ← lift (cfg_section lsconfig "programs");
  mret {| lsconfig := lsconfig; task_info := task_info;
          task_name := TaskInfo.name info;
          dependent_tasks := dependent_tasks;
          directory := TaskInfo.path info;
          project_dir := TaskInfo.path info;
          engine_name := engine_name; engine_path := engine_path;
          mpi_path := mpi_path;
          python_path := default "python" (programs !! "python");
          job_script := None; submit_network := None |}.

(** [self.id] and [self.BASH_filename]: no method assigns them on the
    instance, so the lookup ends at the class. *)
Definition Task_id (cls : TaskCls.t) (self : Task) : string :=
  TaskCls.id cls.
Definition Task_BASH_filename (cls : TaskCls.t) (self : Task) : string :=
  TaskCls.BASH_filename cls.

(** [self.bash_file] as [write_job_script] computes it. *)
Definition bash_file (cls : TaskCls.t) (self : Task) : path :=
  path_div (directory self) (Task_BASH_filename cls self).

(** [Task.check_prerequisite(self, *_)] *)
Definition check_prerequisite (self : Task) (args : list pyval) : bool :=
  true.

(** [Task.check_output] *)
Definition check_output (self : Task) : M bool :=
  info ← get_info (task_info self);
  let check :=
    match submit_network self with
    | Some _ => dict_get_default "sub_returncode" PyNone (TaskInfo.network info)
    | None => dict_get_default "returncode" PyNone (TaskInfo.local info)
    end in
  match check with
  | PyNone => raise (TaskFailed "Job not completed.")
  | _ => mret true
  end.

(** The abstract methods of [Task], implemented per engine. *)
Class TaskMethods (T : Type) : Type := {
  base : T -> Task;
  create_template : T -> M unit;
  write_input : T -> M unit
}.

Definition mark_input_created (l : loc) : M unit :=
  info ← get_info l;
  put_info l (TaskInfo.set_state
    {| TaskInfo.input_created := true;
       TaskInfo.input_saved := TaskInfo.input_saved (TaskInfo.state info) |}
    info).

Definition mark_input_saved (l : loc) : M unit :=
  info ← get_info l;
  put_info l (TaskInfo.set_state
    {| TaskInfo.input_created := TaskInfo.input_created (TaskInfo.state info);
       TaskInfo.input_saved := true |}
    info).

(** [Task.create_input] and [Task.save_input] *)
Definition create_input {T} `{TaskMethods T} (self : T) : M unit :=
  mark_input_created (task_info (base self));;
  create_template self.

Definition save_input {T} `{TaskMethods T} (self : T) : M unit :=
  mark_input_saved (task_info (base self));;
  write_input self.

(** ** The NWChem tasks of nwchem_task.py *)

(** What the module imports from files that are not among the sources:
    the task-type names, the accepted ground-state values, the unit
    constant and the built-in arithmetic of [update_td_param] ([None]
    where the built-in raises its [TypeError]), the formatting of a
    value in an f-string, and the two methods of the [NWChem] engine
    class the tasks call. *)
Record NWChem : Type := {
  nw_infile : option string;
  nw_outfile : string;
  nw_label : string;
  nw_directory : path;
  nw_param : dict
}.

Class Env : Type := {
  GROUND_STATE : string;
  RT_TDDFT : string;
  COMPUTE_SPECTRUM : string;
  MO_POPULATION : string;
  xc_values : list string;
  basis_values : list string;
  as_to_au : pyval;
  py_mul : pyval -> pyval -> option pyval;
  py_round : pyval -> Z -> option pyval;
  py_str : pyval -> string;
  NWChem_create_input : NWChem -> result pyval;
  NWChem_write_input :
    NWChem -> pyval -> gset path * gset path ->
    result unit * (gset path * gset path)
}.

Definition dq : string := String "034"%char EmptyString.

Definition nwchem_data : dict :=
  [ ("ground_state", PyDict
       [ ("inp", PyStr "nwchem/GS/gs.nwi");
         ("out_log", PyStr "nwchem/GS/gs.nwo");
         ("dir", PyStr "GS");
         ("file_name", PyStr "gs");
         ("req", PyList [PyStr "coordinate.xyz"; PyStr "nwchem/restart"]);
         ("check_list",
            PyList [PyStr "Converged"; PyStr "Fermi level:"; PyStr "Total:"]) ]);
    ("rt_tddft", PyDict
       [ ("inp", PyStr "nwchem/TD_Delta/td.nwi");
         ("out_log", PyStr "td.nwo");
         ("file_name", PyStr "td") ]);
    ("rt_tddft_delta", PyDict
       [ ("inp", PyStr "nwchem/TD_Delta/td.nwi");
         ("out_log", PyStr "nwchem/TD_Delta/td.nwo");
         ("dir", PyStr "TD_Delta");
         ("file_name", PyStr "td");
         ("req", PyList [PyStr "coordinate.xyz"; PyStr "nwchem/restart"]);
         ("check_list",
            PyList [PyStr "Converged"; PyStr "Fermi level:"; PyStr "Total:"]) ]);
    ("rt_tddft_laser", PyDict
       [ ("inp", PyStr "nwchem/TD_Laser/tdlaser.nwi");
         ("out_log", PyStr "nwchem/TD_Laser/tdlaser.nwo");
         ("dir", PyStr "TD_Laser");
         ("file_name", PyStr "tdlaser");
         ("req", PyList [PyStr "coordinate.xyz"; PyStr "nwchem/restart"]);
         ("check_list",
            PyList [PyStr "Converged"; PyStr "Fermi level:"; PyStr "Total:"]) ]);
    ("spectrum", PyDict
       [ ("inp", PyStr "nwchem/TD_Delta/td.nwi");
         ("out_log", PyStr "nwchem/TD_Delta/td.nwo");
         ("dir", PyStr "spectrum");
         ("req", PyList [PyStr "nwchem/TD_Delta/td.nwo"]);
         ("spectra_file",
            PyList [PyStr "nwchem/Spectrum/spec_x.dat";
                    PyStr "nwchem/Spectrum/spec_y.dat";
                    PyStr "nwchem/Spectrum/spec_z.dat"]);
         ("spec_dir_path", PyStr "nwchem/Spectrum");
         ("check_list",
            PyList [PyStr "Converged"; PyStr "Fermi level:"; PyStr "Total:"]) ]);
    ("mo_population", PyDict
       [ ("inp", PyStr "nwchem/TD_Delta/td.nwi");
         ("out_log", PyStr "nwchem/TD_Delta/td.nwo");
         ("req", PyList [PyStr "nwchem/TD_Delta/td.nwo"]);
         ("dir", PyStr "mo_population") ]);
    ("restart", PyStr "nwchem/restart") ].

(** The artifacts a task type declares as required: the ['req'] entry of
    its [nwchem_data] record. *)
Definition required_artifacts (task_name : string) : list string :=
  match dict_get task_name nwchem_data with
  | PyDict d =>
      match dict_get "req" d with
      | PyList l =>
          omap (fun v => match v with PyStr s => Some s | _ => None end) l
      | _ => []
      end
  | _ => []
  end.

(** The attributes a [BaseNwchemTask] adds to those of [Task]. *)
Record BaseNwchemTask : Type := {
  task : Task;
  task_data : pyval;
  user_input : loc;
  task_dir : path;
  network_done_file : path;
  nwchem : NWChem;
  infile : option string;
  outfile : option string
}.

Definition set_task (x : Task) (t : BaseNwchemTask) : BaseNwchemTask :=
  {| task := x; task_data := task_data t; user_input := user_input t;
     task_dir := task_dir t; network_done_file := network_done_file t;
     nwchem := nwchem t; infile := infile t; outfile := outfile t |}.

(** [v == s] for a text literal [s]. *)
Definition py_eq_str (v : pyval) (s : string) : bool :=
  match v with PyStr t => bool_decide (t = s) | _ => false end.

(** [v in values] for a list of texts. *)
Definition py_in_values (v : pyval) (values : list string) : bool :=
  match v with PyStr s => bool_decide (s ∈ values) | _ => false end.

(** [out_print] *)
Definition out_print (property : pyval) : result (list pyval) :=
  has_spectrum ← py_contains_str "spectrum" property;
  let p := if has_spectrum : bool then [PyStr "dipole"] else [] in
  has_mo ← py_contains_str "mo_population" property;
  let p := if has_mo : bool then p ++ [PyStr "moocc"] else p in
  mret p.

(** [read_pol_dir]: [None] when no direction matches. *)
Definition read_pol_dir (pol : pyval) : option (Z * string) :=
  if py_eq_int3 pol 1 0 0 then Some (0, "x")
  else if py_eq_int3 pol 0 1 0 then Some (1, "y")
  else if py_eq_int3 pol 0 0 1 then Some (2, "z")
  else None.

(** [read_pol_dir(pol)[1]] *)
Definition read_pol_dir_1 (pol : pyval) : result string :=
  match read_pol_dir pol with
  | Some (_, d) => ok d
  | None => throw (TypeError "subscript")
  end.

(** [add_gaussian_laser] *)
Definition add_gaussian_laser (name : string) (laser : pyval) : result pyval :=
  pol ← py_getitem laser "polarization";
  d ← read_pol_dir_1 pol;
  frequency ← py_getitem laser "frequency";
  center ← py_getitem laser "time0";
  width ← py_getitem laser "sigma";
  pol' ← py_getitem laser "polarization";
  d' ← read_pol_dir_1 pol';
  strength ← py_getitem laser "strength";
  mret (PyDict [ ("name", PyStr (name +:+ "_" +:+ d));
                 ("type", PyStr "gaussian");
                 ("frequency", frequency);
                 ("center", center);
                 ("width", width);
                 ("polarization", PyStr d');
                 ("max", strength) ]).

(** [add_delta_laser] *)
Definition add_delta_laser (name : string) (laser : pyval) : result pyval :=
  pol ← py_getitem laser "polarization";
  d ← read_pol_dir_1 pol;
  pol' ← py_getitem laser "polarization";
  d' ← read_pol_dir_1 pol';
  strength ← py_getitem laser "strength";
  mret (PyDict [ ("name", PyStr (name +:+ "_" +:+ d));
                 ("type", PyStr "delta");
                 ("polarization", PyStr d');
                 ("max", strength) ]).

(** [param['rt_tddft']['field'] = v] *)
Definition set_rt_field (param : loc) (v : pyval) : M unit :=
  d ← read_dict param;
  rt ← lift (py_getitem (PyDict d) "rt_tddft");
  rt' ← lift (py_setitem rt "field" v);
  write_dict param (dict_set "rt_tddft" rt' d).

(** The [for i, laser in enumerate(laser_l)] loop of [update_td_param].
    [laser_list] is the list object stored under ['field'], so every
    append shows there; [laser_dict] keeps the value of the previous
    round when neither type matches. *)
Fixpoint laser_loop (param : loc) (pol : pyval) (lasers : list pyval)
    (i : nat) (laser_dict : option pyval) (laser_list : list pyval)
  : M unit :=
  match lasers with
  | [] => mret tt
  | laser :: rest =>
      has ← lift (py_contains_str "polarization" laser);
      laser ← (if has : bool then mret laser
               else lift (py_setitem laser "polarization" pol));
      type ← lift (py_getitem laser "type");
      laser_dict ←
        (if py_eq_str type "gaussian"
         then lift (Some <$> add_gaussian_laser (pretty i) laser)
         else if py_eq_str type "delta"
         then lift (Some <$> add_delta_laser (pretty i) laser)
         else mret laser_dict);
      match laser_dict with
      | None => raise (UnboundLocalError "laser_dict")
      | Some ld =>
          let laser_list := laser_list ++ [ld] in
          set_rt_field param (PyList laser_list);;
          laser_loop param pol rest (S i) (Some ld) laser_list
      end
  end.

Section Nwchem.

Context {env : Env}.

Definition simulation_tasks : list string := [GROUND_STATE; RT_TDDFT].
Definition post_processing_tasks : list string :=
  [COMPUTE_SPECTRUM; MO_POPULATION].

(** [format_gs_param] *)
Definition format_gs_param (gen_dict : dict) : result dict :=
  let basis_type := dict_get "basis_type" gen_dict in
  if negb (py_eq_str basis_type "gaussian")
  then throw (InputError ("Unkown basis type: " +:+ py_str basis_type))
  else
    let xc := dict_get "xc" gen_dict in
    if negb (py_in_values xc xc_values)
    then throw (InputError "Unkown xc: {xc}")
    else
      let basis := dict_get "basis" gen_dict in
      if negb (py_in_values basis basis_values)
      then throw (InputError "Unkown basis: {xc}")
      else
        let energy_conv :=
          dict_get_default "energy_conv"
            (PyFloat (S754_finite false 5902958103587057 (-69))) gen_dict in
        let density_conv :=
          dict_get_default "density_conv"
            (PyFloat (S754_finite false 7555786372591432 (-76))) gen_dict in
        ok [ ("dft", PyDict
                [ ("xc", xc);
                  ("convergence", PyDict [ ("energy", energy_conv);
                                           ("density", density_conv) ]);
                  ("iterations", dict_get "max_iter" gen_dict) ]);
             ("basis", basis) ].

(** A built-in operation that raises [TypeError] on operands it does
    not take. *)
Definition builtin (what : string) (r : option pyval) : result pyval :=
  match r with
  | Some v => ok v
  | None => throw (TypeError what)
  end.

(** [update_td_param]: works in place on the dictionary object [param]. *)
Definition update_td_param (param : loc) : M unit :=
  strength ← pop_default param "strength" PyNone;
  pol ← pop_default param "polarization" PyNone;
  time_step ← pop param "time_step";
  num_step ← pop param "number_of_steps";
  out_freq ← pop param "output_freq";
  properties ← pop param "properties";
  lasers ← pop_default param "laser" PyNone;
  masking ← pop_default param "masking" PyNone;
  tmax ← lift (x ← builtin "*" (py_mul num_step time_step);
               y ← builtin "*" (py_mul x as_to_au);
               builtin "round" (py_round y 2));
  dt ← lift (x ← builtin "*" (py_mul time_step as_to_au);
             builtin "round" (py_round x 2));
  print ← lift (out_print properties);
  setitem param "rt_tddft"
    (PyDict [("tmax", tmax); ("dt", dt); ("print", PyList print)]);;
  if py_truthy lasers
  then
    let laser_l := match lasers with PyList l => l | _ => [lasers] end in
    delay ← pop_default param "delay" PyNone;
    set_rt_field param (PyList []);;
    laser_loop param pol laser_l 0 None []
  else
    d ← lift (read_pol_dir_1 pol);
    d' ← lift (read_pol_dir_1 pol);
    set_rt_field param
      (PyDict [ ("name", PyStr ("kick_" +:+ d));
                ("type", PyStr "delta");
                ("polarization", PyStr d');
                ("max", strength) ]).

(** [self.dependent_tasks[i]] *)
Definition dependent_task (deps : option (list loc)) (i : nat) : M TaskInfo.t :=
  match deps with
  | None => raise (TypeError "subscript")
  | Some l =>
      match l !! i with
      | Some r => get_info r
      | None => raise (IndexError "dependent_tasks")
      end
  end.

(** [str(self.project_dir / self.dependent_tasks[i].output.get('txt_out'))] *)
Definition dependent_outfile (self : Task) (i : nat) : M string :=
  dep ← dependent_task (dependent_tasks self) i;
  match dict_get "txt_out" (TaskInfo.output dep) with
  | PyStr s => mret (path_str (path_div (project_dir self) s))
  | _ => raise (TypeError "/")
  end.

(** [self.task_info.input['engine_input'][k] = v] *)
Definition set_engine_input (l : loc) (k : string) (v : pyval) : M unit :=
  info ← get_info l;
  ei ← lift (py_getitem (PyDict (TaskInfo.input info)) "engine_input");
  ei' ← lift (py_setitem ei k v);
  put_info l
    (TaskInfo.set_input (dict_set "engine_input" ei' (TaskInfo.input info))
       info).

(** The keyword arguments [NWChem(...)] is given by name; a key of
    [**param] equal to one of them is a [TypeError]. *)
Definition nwchem_keywords : list string :=
  ["infile"; "outfile"; "label"; "directory"].

(** [BaseNwchemTask.create_engine], which completes the object that
    [__init__] is building from the attributes of [Task]. *)
Definition create_engine (self : Task) (task_data : pyval) (param : loc)
  : M BaseNwchemTask :=
  let infile_ext := ".nwi" in
  let outfile_ext := ".nwo" in
  let task_dir :=
    path_div (path_div (project_dir self) "nwchem") (task_name self) in
  fs ← get_fs;
  let task_dir := get_new_directory fs task_dir in
  let label := name (project_dir self) in
  file_name ← lift (py_get task_data "file_name");
  let network_done_file := path_div task_dir "Done" in
  info ← get_info (task_info self);
  put_info (task_info self)
    (TaskInfo.set_input
       (dict_set "engine_input" (PyDict []) (TaskInfo.input info)) info);;
  if bool_decide (task_name self ∈ post_processing_tasks)
  then
    outfile ← dependent_outfile self 0;
    outfile ← (if decide (task_name self = MO_POPULATION)
               then dependent_outfile self 1
               else mret outfile);
    mret {| task := self; task_data := task_data; user_input := param;
            task_dir := task_dir; network_done_file := network_done_file;
            nwchem := {| nw_infile := None; nw_outfile := outfile;
                         nw_label := label; nw_directory := task_dir;
                         nw_param := [] |};
            infile := None; outfile := None |}
  else
    setitem param "perm"
      (PyStr (path_str (path_div (parent task_dir) "restart")));;
    setitem param "geometry"
      (PyStr (path_str (path_div (project_dir self) "coordinate.xyz")));;
    (if decide (task_name self = RT_TDDFT)
     then
       setitem param "restart_kw" (PyStr "restart");;
       dep ← dependent_task (dependent_tasks self) 0;
       dep_param ← read_dict (TaskInfo.engine_param dep);
       setitem param "basis" (dict_get "basis" dep_param);;
       update_td_param param
     else mret tt);;
    file_name ← lift (py_get task_data "file_name");
    infile ← lift (py_add_str file_name infile_ext);
    outfile ← lift (py_add_str file_name outfile_ext);
    rel ← lift (relative_to task_dir (project_dir self));
    set_engine_input (task_info self) "path"
      (PyStr (path_str (path_div rel infile)));;
    rel ← lift (relative_to task_dir (project_dir self));
    info ← get_info (task_info self);
    put_info (task_info self)
      (TaskInfo.set_output
         (dict_set "txt_out" (PyStr (path_str (path_div rel outfile)))
            (TaskInfo.output info)) info);;
    kwargs ← read_dict param;
    if existsb (fun k => bool_decide (is_Some (dict_lookup k kwargs)))
         nwchem_keywords
    then raise (TypeError "multiple values for keyword argument")
    else
      mret {| task := self; task_data := task_data; user_input := param;
              task_dir := task_dir; network_done_file := network_done_file;
              nwchem := {| nw_infile := Some infile; nw_outfile := outfile;
                           nw_label := label; nw_directory := task_dir;
                           nw_param := kwargs |};
              infile := Some infile; outfile := Some outfile |}.

(** [BaseNwchemTask.__init__] *)
Definition BaseNwchemTask__init__ (lsconfig : gmap string (gmap string string))
    (task_info : loc) (dependent_tasks : option (list loc))
  : M BaseNwchemTask :=
  self ← Task__init__ lsconfig task_info dependent_tasks;
  let task_data := dict_get (task_name self) nwchem_data in
  info ← get_info task_info;
  param ← deepcopy (TaskInfo.param info);
  user_input ←
    (if decide (task_name self = GROUND_STATE)
     then gen_dict ← read_dict param;
          gs_input ← lift (format_gs_param gen_dict);
          alloc_dict gs_input
     else mret param);
  create_engine self task_data user_input.

(** [os.makedirs(directory)] for a path that is no directory.  Where
    the path is a regular file it raises [FileExistsError], where one of
    the paths above it is a regular file [NotADirectoryError], and
    nothing is created; otherwise the directory and the missing ones
    above it are created. *)
Definition makedirs (directory : path) : M unit :=
  fs ← get_fs;
  files ← get_files;
  if decide (directory ∈ files)
  then raise (FileExistsError (path_str directory))
  else if existsb (fun a => bool_decide (a ∈ files)) (ancestors directory)
  then raise (NotADirectoryError (path_str directory))
  else set_fs (fs ∪ list_to_set (ancestors directory)).

(** [Task.create_directory]; its first test, of a text against the
    method [pathlib.Path.cwd], always holds, so the directory test
    decides. *)
Definition create_directory (directory : path) : M unit :=
  fs ← get_fs;
  if decide (directory ∈ fs) then mret tt
  else makedirs directory.

(** [self.nwchem.write_input(template)]: the engine class writes the
    file; of the world it touches the file system only, directories and
    files. *)
Definition engine_write_input (nw : NWChem) (template : pyval) : M unit :=
  fun w =>
    let '(r, (fs', files')) :=
      NWChem_write_input nw template (w_fs w, w_files w) in
    (r, {| w_fs := fs'; w_files := files'; w_dicts := w_dicts w;
           w_infos := w_infos w |}).

(** [BaseNwchemTask.write_input]; [task_dir.exists()] holds of a
    directory and of a regular file. *)
Definition nwchem_write_input (self : BaseNwchemTask) : M unit :=
  fs ← get_fs;
  files ← get_files;
  (if decide (task_dir self ∈ fs ∪ files) then mret tt
   else create_directory (task_dir self));;
  info ← get_info (task_info (task self));
  engine_input ←
    lift (py_getitem (PyDict (TaskInfo.input info)) "engine_input");
  template ← lift (py_getitem engine_input "data");
  engine_write_input (nwchem self) template.

(** [BaseNwchemTask.create_template] *)
Definition nwchem_create_template (self : BaseNwchemTask) : M unit :=
  template ← lift (NWChem_create_input (nwchem self));
  info ← get_info (task_info (task self));
  user_input ← read_dict (user_input self);
  engine_param ← read_dict (TaskInfo.engine_param info);
  write_dict (TaskInfo.engine_param info)
    (dict_update engine_param user_input);;
  set_engine_input (task_info (task self)) "data" template.

#[global] Instance BaseNwchemTask_methods : TaskMethods BaseNwchemTask := {
  base := task;
  create_template := nwchem_create_template;
  write_input := nwchem_write_input
}.

(** [BaseNwchemTask.get_engine_network_job_cmd] *)
Definition get_engine_network_job_cmd : string :=
  newline
  +:+ "##### Please Provide the Excutable Path or environment of NWCHEM or load the module"
  +:+ newline +:+ newline
  +:+ "#eval " +:+ dq +:+ "$(conda shell.bash hook)" +:+ dq +:+ newline
  +:+ "#conda activate <environment name>" +:+ newline +:+ newline
  +:+ "#module load nwchem".

(** [self.infile], [self.outfile]: set for the simulation tasks only. *)
Definition attribute (what : string) (a : option string) : result string :=
  match a with
  | Some x => ok x
  | None => throw (AttributeError what)
  end.

(** [BaseNwchemTask.create_job_script]: the object as the call leaves
    it and the script it returns, or the error it raises.  [engine_path]
    is assigned before anything can raise, [job_script] only when the
    script has been assembled. *)
Definition create_job_script_self (self : BaseNwchemTask) (np : Z)
    (remote_path : option string) : BaseNwchemTask * result string :=
  let self :=
    if truthy remote_path
    then set_task (set_engine_path "nwchem" (task self)) self
    else self in
  let t := task self in
  if bool_decide (task_name t ∈ simulation_tasks)
  then
    let job_script : result string :=
      ofilename ← attribute "outfile" (outfile self);
      ifilename ← attribute "infile" (infile self);
      let engine_cmd :=
        engine_path t +:+ " " +:+ ifilename +:+ " " +:+ ">" +:+ " "
        +:+ ofilename in
      match remote_path with
      | Some rp =>
          if truthy remote_path
          then
            rel ← relative_to (task_dir self)
                    (parent (parent (project_dir t)));
            let rpath := Path rp ++ rel in
            mret (assemable_job_cmd (Some engine_cmd) np
                    (Some (path_str rpath)) None true None
                    (Some get_engine_network_job_cmd) None)
          else
            mret (assemable_job_cmd (Some engine_cmd) np
                    (Some (path_str (task_dir self))) (Some (mpi_path t))
                    false None None None)
      | None =>
          mret (assemable_job_cmd (Some engine_cmd) np
                  (Some (path_str (task_dir self))) (Some (mpi_path t))
                  false None None None)
      end in
    match job_script with
    | inr script => (set_task (set_job_script script t) self, inr script)
    | inl e => (self, inl e)
    end
  else (self, inl (UnboundLocalError "job_script")).

(** The call as a step of a computation: it touches no shared object,
    and gives the object with [job_script] assigned when it returns. *)
Definition create_job_script (self : BaseNwchemTask) (np : Z)
    (remote_path : option string) : M BaseNwchemTask := fun w =>
  match create_job_script_self self np remote_path with
  | (self', inr _) => (inr self', w)
  | (_, inl e) => (inl e, w)
  end.

End Nwchem.

(** ** A sample installation

    Concrete values for what the module imports, used to run the model:
    the task-type names are the keys of [nwchem_data]; the sample
    arithmetic works on integers only. *)

Module Sample.

Definition env : Env := {|
  GROUND_STATE := "ground_state";
  RT_TDDFT := "rt_tddft";
  COMPUTE_SPECTRUM := "spectrum";
  MO_POPULATION := "mo_population";
  xc_values := ["pbe0"; "b3lyp"; "pbe96"];
  basis_values := ["6-31g"; "sto-3g"; "cc-pvdz"];
  as_to_au := PyInt 1;
  py_mul := fun a b =>
    match a, b with
    | PyInt x, PyInt y => Some (PyInt (x * y))
    | _, _ => None
    end;
  py_round := fun v _ => Some v;
  py_str := fun v =>
    match v with PyStr s => s | PyNone => "None" | _ => "?" end;
  NWChem_create_input := fun nw => ok (PyStr ("title " +:+ nw_label nw));
  NWChem_write_input := fun nw template fsys =>
    (ok tt,
     (fsys.1,
      fsys.2 ∪ {[ path_div (nw_directory nw) (default "" (nw_infile nw)) ]}))
|}.

Definition cfg : gmap string (gmap string string) :=
  {[ "engine" := {[ "nwchem" := "/opt/nwchem/bin/nwchem" ]};
     "mpi" := {[ "mpirun" := "/usr/bin/mpirun" ]};
     "programs" := ∅ ]}.

Definition project : path := [""; "home"; "u"; "proj"].

Definition blank_state : TaskInfo.TaskState :=
  {| TaskInfo.input_created := false; TaskInfo.input_saved := false |}.

(** Two ground-state records of one project and a time-propagation
    record; their parameter dictionaries are the objects 1, 3 and 5. *)
Definition gs_info (param engine_param : loc) : TaskInfo.t :=
  {| TaskInfo.name := "ground_state"; TaskInfo.engine := "nwchem";
     TaskInfo.path := project; TaskInfo.param := param;
     TaskInfo.engine_param := engine_param; TaskInfo.input := [];
     TaskInfo.output := []; TaskInfo.state := blank_state;
     TaskInfo.local := []; TaskInfo.network := [] |}.

Definition td_info : TaskInfo.t :=
  {| TaskInfo.name := "rt_tddft"; TaskInfo.engine := "nwchem";
     TaskInfo.path := project; TaskInfo.param := 5%positive;
     TaskInfo.engine_param := 6%positive; TaskInfo.input := [];
     TaskInfo.output := []; TaskInfo.state := blank_state;
     TaskInfo.local := []; TaskInfo.network := [] |}.

Definition gs_param : dict :=
  [ ("basis_type", PyStr "gaussian"); ("xc", PyStr "pbe0");
    ("basis", PyStr "6-31g"); ("max_iter", PyInt 100) ].

Definition td_param : dict :=
  [ ("strength", PyInt 1);
    ("polarization", PyList [PyInt 1; PyInt 0; PyInt 0]);
    ("time_step", PyInt 10); ("number_of_steps", PyInt 200);
    ("output_freq", PyInt 10); ("properties", PyList [PyStr "spectrum"]) ].

Definition world0 : world :=
  {| w_fs := {[ project ]};
     w_files := ∅;
     w_dicts := {[ 1%positive := gs_param; 2%positive := [];
                   3%positive := gs_param; 4%positive := [];
                   5%positive := td_param; 6%positive := [] ]};
     w_infos := {[ 1%positive := gs_info 1%positive 2%positive;
                   2%positive := gs_info 3%positive 4%positive;
                   3%positive := td_info ]} |}.

End Sample.

(** ** Vocabulary of the properties *)

(** The execution record [check_output] consults: the network record
    once a network submission exists, the local one otherwise; and
    whether its return code is defined (present and not [None]). *)
Definition selected_return_code (self : Task) (info : TaskInfo.t)
  : option pyval :=
  match submit_network self with
  | Some _ => dict_lookup "sub_returncode" (TaskInfo.network info)
  | None => dict_lookup "returncode" (TaskInfo.local info)
  end.

Definition return_code_defined (rc : option pyval) : bool :=
  match rc with
  | None | Some PyNone => false
  | Some _ => true
  end.

(** The declared required artifacts of a task that are not among the
    paths [fs]. *)
Definition missing_artifacts (fs : gset path) (self : Task) : list string :=
  filter (fun a => path_div (project_dir self) a ∉ fs)
    (required_artifacts (task_name self)).

(** The two life-cycle flags of the task record at [l]. *)
Definition flag_input_created (w : world) (l : loc) : option bool :=
  TaskInfo.input_created ∘ TaskInfo.state <$> w_infos w !! l.
Definition flag_input_saved (w : world) (l : loc) : option bool :=
  TaskInfo.input_saved ∘ TaskInfo.state <$> w_infos w !! l.

(** What a computation, or a pure step, may raise. *)
Definition raises_only {A} (P : exn -> Prop) (m : M A) : Prop :=
  forall w e w', m w = (inl e, w') -> P e.
Definition fails_only {A} (P : exn -> Prop) (r : result A) : Prop :=
  forall e, r = inl e -> P e.

Definition not_setup_error (e : exn) : Prop := is_TaskSetupError e = false.

(** The ground-state checks of [format_gs_param], read off a parameter
    dictionary. *)
Definition gs_param_rejected `{Env} (d : dict) : bool :=
  negb (py_eq_str (dict_get "basis_type" d) "gaussian")
  || negb (py_in_values (dict_get "xc" d) xc_values)
  || negb (py_in_values (dict_get "basis" d) basis_values).

(** The configuration has the three sections [Task.__init__] reads. *)
Definition cfg_complete (cfg : gmap string (gmap string string)) : Prop :=
  is_Some (cfg !! "engine") /\ is_Some (cfg !! "mpi")
  /\ is_Some (cfg !! "programs").

(** The calls a caller makes on a built task, in any order; after a
    call that raises the caller goes on with the task object as the call
    left it. *)
Inductive lifecycle_op : Type :=
| DoCreateTemplate
| DoWriteInput
| DoCreateInput
| DoSaveInput
| DoCreateJobScript (np : Z) (remote_path : option string).

Definition lifecycle_step `{Env} (self : BaseNwchemTask) (o : lifecycle_op)
  : M BaseNwchemTask :=
  match o with
  | DoCreateTemplate => create_template self;; mret self
  | DoWriteInput => write_input self;; mret self
  | DoCreateInput => create_input self;; mret self
  | DoSaveInput => save_input self;; mret self
  | DoCreateJobScript np remote_path => create_job_script self np remote_path
  end.

(** The task object after a call that raised: only [create_job_script]
    assigns an attribute of it before it can raise. *)
Definition after_raise `{Env} (self : BaseNwchemTask) (o : lifecycle_op)
  : BaseNwchemTask :=
  match o with
  | DoCreateJobScript np remote_path =>
      (create_job_script_self self np remote_path).1
  | _ => self
  end.

Fixpoint lifecycle `{Env} (self : BaseNwchemTask) (ops : list lifecycle_op)
    (w : world) : BaseNwchemTask * world :=
  match ops with
  | [] => (self, w)
  | o :: ops' =>
      match lifecycle_step self o w with
      | (inr self', w') => lifecycle self' ops' w'
      | (inl _, w') => lifecycle (after_raise self o) ops' w'
      end
  end.

(** The declared parameters of the task record at [l] are the
    dictionary object [p] with value [d], and the record's
    [engine_param] is another object. *)
Definition param_intact (l p : loc) (d : dict) (w : world) : Prop :=
  w_dicts w !! p = Some d
  /\ exists info, w_infos w !! l = Some info
       /\ TaskInfo.param info = p /\ TaskInfo.engine_param info <> p.

(** A computation started where [I] holds ends where [I] holds, and
    what it returns satisfies [Q]. *)
Definition spec {A} (I : world -> Prop) (m : M A) (Q : A -> Prop) : Prop :=
  forall w r w', I w -> m w = (r, w') ->
    I w' /\ match r with inr x => Q x | inl _ => True end.

(** The canonical directory of a task: [<project>/nwchem/<task name>]. *)
Definition canonical_dir (self : Task) : path :=
  path_div (path_div (project_dir self) "nwchem") (task_name self).

(** The file system is [fs0]. *)
Definition fs_is (fs0 : gset path) (w : world) : Prop := w_fs w = fs0.

(** Among the directories [fs], [d] is a new directory for the task: one
    that does not exist, the canonical one when that does not exist,
    otherwise its sibling with the first unused number from 1 on. *)
Definition assigned_new_directory (fs : gset path) (self : Task) (d : path)
  : Prop :=
  (d ∉ fs)
  /\ (canonical_dir self ∉ fs -> d = canonical_dir self)
  /\ (canonical_dir self ∈ fs ->
      exists n : nat, ((1 <= n)%nat)
        /\ d = sibling (canonical_dir self) n
        /\ forall k, (1 <= k < n)%nat -> sibling (canonical_dir self) k ∈ fs).

(** Two task names of which neither is the other, nor a numbered
    sibling of the other. *)
Definition names_apart (a b : string) : Prop :=
  a <> b
  /\ (forall n : nat, a <> b +:+ "_" +:+ pretty n)
  /\ (forall n : nat, b <> a +:+ "_" +:+ pretty n).


(** ** More of task.py, nwchem_task.py and navigation.py *)

(** No newline in an optional text; an absent text has none. *)
Definition one_line (o : option string) : bool :=
  match o with
  | Some s => negb (has_char nl s)
  | None => true
  end.

Definition set_mpi_path (x : string) (t : Task) : Task :=
  {| lsconfig := lsconfig t; task_info := task_info t;
     task_name := task_name t; dependent_tasks := dependent_tasks t;
     directory := directory t; project_dir := project_dir t;
     engine_name := engine_name t; engine_path := engine_path t;
     mpi_path := x; python_path := python_path t;
     job_script := job_script t; submit_network := submit_network t |}.

(** [Task.reset_lsconfig]: the object as the call leaves it, and whether
    the call returned or raised ([engine_path] is assigned before the
    [mpi] section is looked up). *)
Definition reset_lsconfig (self : Task)
    (lsconfig : gmap string (gmap string string)) : Task * result unit :=
  match cfg_section lsconfig "engine" with
  | inl e => (self, inl e)
  | inr engine =>
      let self :=
        set_engine_path
          (default (engine_name self) (engine !! engine_name self)) self in
      match cfg_section lsconfig "mpi" with
      | inl e => (self, inl e)
      | inr mpi =>
          let mpi_path := default "mpirun" (mpi !! "mpirun") in
          (set_mpi_path
             (default mpi_path (mpi !! (engine_name self +:+ "_mpi"))) self,
           inr tt)
      end
  end.

(** [Task.get_engine_input] and [Task.set_engine_input] *)
Definition get_engine_input (self : Task) : M pyval :=
  info ← get_info (task_info self);
  engine_input ←
    lift (py_getitem (PyDict (TaskInfo.input info)) "engine_input");
  lift (py_getitem engine_input "data").

Definition Task_set_engine_input (self : Task) (txt : pyval) : M unit :=
  set_engine_input (task_info self) "data" txt.

(** [collections.Counter(l)[x]] and [compare_list] of navigation.py. *)
Definition Counter {A} `{EqDecision A} (l : list A) (x : A) : nat :=
  length (filter (fun y => y = x) l).

Definition compare_list {A} `{EqDecision A} (list1 list2 : list A) : bool :=
  forallb (fun x => bool_decide (Counter list1 x = Counter list2 x))
    (list1 ++ list2).

(** The world with the dictionary object [l] set to [d]. *)
Definition set_dict (l : loc) (d : dict) (w : world) : world :=
  {| w_fs := w_fs w; w_files := w_files w;
     w_dicts := <[l := d]> (w_dicts w);
     w_infos := w_infos w |}.

(** The keys of the parameters [format_gs_param] reads. *)
Definition gs_keys : list string :=
  ["basis_type"; "xc"; "basis"; "energy_conv"; "density_conv"; "max_iter"].

(** The keys of its dictionary [update_td_param] removes or assigns, and
    those of them it requires. *)
Definition td_required : list string :=
  ["time_step"; "number_of_steps"; "output_freq"; "properties"].
Definition td_keys : list string :=
  ["strength"; "polarization"] ++ td_required
  ++ ["laser"; "masking"; "delay"; "rt_tddft"].

(** From [w0] to [w] nothing has changed but entries of the dictionary
    object [param] under [keys]. *)
Definition touches_only (param : loc) (keys : list string) (w0 w : world)
  : Prop :=
  w_fs w = w_fs w0 /\ w_files w = w_files w0 /\ w_infos w = w_infos w0
  /\ (forall l, l <> param -> w_dicts w !! l = w_dicts w0 !! l)
  /\ forall d0, w_dicts w0 !! param = Some d0 ->
       exists d, w_dicts w !! param = Some d
         /\ forall k, k ∉ keys -> dict_lookup k d = dict_lookup k d0.

(** The direction letters of [read_pol_dir]. *)
Definition directions : list string := ["x"; "y"; "z"].


(** A task record holds an [engine_input] without a rendered text. *)
Definition has_no_template (info : TaskInfo.t) : Prop :=
  exists ei, dict_lookup "engine_input" (TaskInfo.input info) = Some (PyDict ei)
    /\ dict_lookup "data" ei = None.
Definition no_template (l : loc) (w : world) : Prop :=
  exists info, w_infos w !! l = Some info /\ has_no_template info.

(** [v.get(k, dflt)] *)
Definition py_get_default (v : pyval) (k : string) (dflt : pyval)
  : result pyval :=
  match v with
  | PyDict d => ok (dict_get_default k dflt d)
  | _ => throw (AttributeError "get")
  end.

(** [get_pol_and_tag] *)
Definition get_pol_and_tag (taskinfo : TaskInfo.t) : M (pyval * pyval) :=
  engine_param ← read_dict (TaskInfo.engine_param taskinfo);
  rt ← lift (py_getitem (PyDict engine_param) "rt_tddft");
  field ← lift (py_getitem rt "field");
  pol ← lift (match field with
              | PyList fl =>
                  match fl with
                  | first :: _ =>
                      py_get_default first "polarization" (PyStr "x")
                  | [] => throw (IndexError "list index out of range")
                  end
              | _ => py_get_default field "polarization" (PyStr "x")
              end);
  tag ← lift (py_get_default rt "tag" (PyStr "rt_tddft"));
  mret (pol, tag).

(** A field entry whose polarization is a direction letter. *)
Definition has_direction (entry : pyval) (dir : string) : Prop :=
  dir ∈ directions /\ py_getitem entry "polarization" = inr (PyStr dir).

(** * Properties *)

(** ** Texts: lines and occurrences *)

Section TextFacts.

Implicit Types (s a b pat : string) (c : ascii).

Lemma string_app_assoc a b s : (a +:+ b) +:+ s = a +:+ (b +:+ s).
Proof.
  induction a as [|x a IH]; [reflexivity|].
  change (String x ((a +:+ b) +:+ s) = String x (a +:+ (b +:+ s))).
  now rewrite IH.
Qed.

Lemma string_app_cons c a s : String c a +:+ s = String c (a +:+ s).
Proof. reflexivity. Qed.

Lemma string_app_nil s : "" +:+ s = s.
Proof. reflexivity. Qed.

Lemma split_lines_nonempty s : split_lines s <> [].
Proof.
  destruct s as [|c s]; simpl; [discriminate|].
  destruct (decide (c = nl)); [discriminate|].
  destruct (split_lines s); discriminate.
Qed.

(** Splitting distributes over a newline between two texts. *)
Lemma split_lines_app_nl a b :
  split_lines (a +:+ String nl b) = split_lines a ++ split_lines b.
Proof.
  induction a as [|c a IH]; [reflexivity|].
  rewrite string_app_cons. simpl.
  destruct (decide (c = nl)) as [_|_].
  - now rewrite IH.
  - rewrite IH. pose proof (split_lines_nonempty a) as Hne.
    destruct (split_lines a); [contradiction|reflexivity].
Qed.

Lemma join_cons_cons a b l :
  join (a :: b :: l) = a +:+ String nl (join (b :: l)).
Proof. reflexivity. Qed.

Lemma split_lines_join l :
  l <> [] -> split_lines (join l) = concat (map split_lines l).
Proof.
  induction l as [|a l IH]; [contradiction|intros _].
  destruct l as [|b l].
  - simpl. now rewrite app_nil_r.
  - rewrite join_cons_cons, split_lines_app_nl, IH by discriminate.
    reflexivity.
Qed.

(** The first line of a joined script is the first line of its first
    element; the last one is the last line of its last element. *)
Lemma first_line_join a l :
  first_line (join (a :: l)) = first_line a.
Proof.
  unfold first_line. rewrite split_lines_join by discriminate. simpl.
  pose proof (split_lines_nonempty a).
  destruct (split_lines a); [contradiction|reflexivity].
Qed.

Lemma last_line_join l a :
  last_line (join (l ++ [a])) = last_line a.
Proof.
  unfold last_line.
  rewrite split_lines_join by (destruct l; discriminate).
  rewrite map_app, concat_app. simpl. rewrite app_nil_r, last_app.
  pose proof (split_lines_nonempty a) as Hne.
  apply last_is_Some in Hne as [x Hx]. now rewrite Hx.
Qed.

(** *** Occurrences of a pattern *)

Lemma starts_with_app_char pat a b c :
  has_char c pat = false ->
  starts_with pat (a +:+ String c b) = true -> starts_with pat a = true.
Proof.
  revert a. induction pat as [|p pat IH]; intros a Hc H; [reflexivity|].
  simpl in Hc. apply orb_false_elim in Hc as [Hp Hc].
  destruct a as [|x a].
  - rewrite string_app_nil in H. simpl in H.
    apply andb_true_iff in H as [H _]. congruence.
  - rewrite string_app_cons in H. simpl in H |- *.
    apply andb_true_iff in H as [-> H]. simpl. eauto.
Qed.

(** A character that is not in the pattern separates its occurrences. *)
Lemma occurs_app_char pat a b c :
  has_char c pat = false ->
  occurs pat (a +:+ String c b) = true ->
  occurs pat a = true \/ occurs pat b = true.
Proof.
  intros Hc. induction a as [|x a IH]; intros H.
  - rewrite string_app_nil in H. simpl in H.
    apply orb_true_iff in H as [H|H]; [|now right].
    left. destruct pat as [|p pat]; [reflexivity|].
    simpl in Hc, H. apply orb_false_elim in Hc as [Hp _].
    apply andb_true_iff in H as [H _]. congruence.
  - rewrite string_app_cons in H. simpl in H.
    apply orb_true_iff in H as [H|H].
    + left. simpl. apply orb_true_iff. left.
      apply (starts_with_app_char pat (String x a) b c Hc).
      now rewrite string_app_cons.
    + destruct (IH H) as [Ha|Hb]; [left|now right].
      simpl. rewrite Ha. apply orb_true_r.
Qed.

(** A leading character other than the first of the pattern can be
    dropped. *)
Lemma occurs_cons_ne pat c s :
  first_char pat <> None -> first_char pat <> Some c ->
  occurs pat (String c s) = occurs pat s.
Proof.
  intros Hne Hc. destruct pat as [|p pat]; [now contradict Hne|].
  simpl in Hc. cbn [occurs starts_with].
  rewrite bool_decide_eq_false_2 by congruence. reflexivity.
Qed.

Lemma occurs_app_avoid pat p0 a s :
  first_char pat = Some p0 -> avoids p0 a = true ->
  occurs pat (a +:+ s) = occurs pat s.
Proof.
  intros Hp. induction a as [|x a IH]; intros Ha; [reflexivity|].
  simpl in Ha. apply andb_true_iff in Ha as [Hx Ha].
  rewrite string_app_cons, occurs_cons_ne, IH; auto.
  - now rewrite Hp.
  - rewrite Hp. intros [= ->]. now rewrite bool_decide_eq_true_2 in Hx.
Qed.

Lemma starts_with_snoc_ne pat a c :
  last_char pat <> None -> last_char pat <> Some c ->
  starts_with pat (a +:+ String c "") = true -> starts_with pat a = true.
Proof.
  revert a. induction pat as [|p pat IH]; intros a Hne Hc H;
    [now contradict Hne|].
  destruct a as [|x a].
  - rewrite string_app_nil in H. simpl in H.
    apply andb_true_iff in H as [Hpx H].
    apply bool_decide_eq_true in Hpx as ->.
    destruct pat; [now contradict Hc|discriminate].
  - rewrite string_app_cons in H. simpl in H |- *.
    apply andb_true_iff in H as [-> H]. simpl.
    destruct pat as [|q pat]; [reflexivity|]. apply IH; auto.
Qed.

(** A trailing character other than the last of the pattern can be
    dropped. *)
Lemma occurs_snoc_ne pat a c :
  last_char pat <> None -> last_char pat <> Some c ->
  occurs pat (a +:+ String c "") = true -> occurs pat a = true.
Proof.
  intros Hne Hc. induction a as [|x a IH]; intros H.
  - rewrite string_app_nil in H. simpl in H.
    destruct pat as [|p pat]; [now contradict Hne|].
    simpl in H. rewrite ?orb_false_r in H.
    apply andb_true_iff in H as [Hp H].
    apply bool_decide_eq_true in Hp as ->.
    destruct pat; [now contradict Hc|discriminate].
  - rewrite string_app_cons in H. simpl in H.
    apply orb_true_iff in H as [H|H].
    + simpl. apply orb_true_iff. left.
      apply (starts_with_snoc_ne pat (String x a) c Hne Hc).
      now rewrite string_app_cons.
    + simpl. rewrite (IH H). apply orb_true_r.
Qed.

(** A pattern without a newline that occurs in a joined script occurs
    in one of its elements. *)
Lemma occurs_join pat l :
  has_char nl pat = false -> pat <> "" ->
  occurs pat (join l) = true -> exists x, In x l /\ occurs pat x = true.
Proof.
  intros Hnl Hpat. induction l as [|a l IH]; intros H.
  - destruct pat; [contradiction|discriminate].
  - destruct l as [|b l].
    + exists a. split; [now left|exact H].
    + rewrite join_cons_cons in H.
      apply occurs_app_char in H as [H|H]; [|idtac|exact Hnl].
      * exists a. split; [now left|exact H].
      * destruct (IH H) as (x & Hx & Ho). exists x. split; [now right|exact Ho].
Qed.

End TextFacts.

(** *** Decimal numerals *)

Lemma all_digits_app a b :
  all_digits a = true -> all_digits b = true -> all_digits (a +:+ b) = true.
Proof.
  induction a as [|x a IH]; intros Ha Hb; [exact Hb|].
  rewrite string_app_cons. simpl in *.
  apply andb_true_iff in Ha as [-> Ha]. simpl. auto.
Qed.

Lemma pretty_N_char_digit x : is_digit (pretty_N_char x) = true.
Proof.
  unfold pretty_N_char.
  destruct x as [|p]; [reflexivity|]. do 4 (try destruct p as [p|p|]); reflexivity.
Qed.

Lemma pretty_N_go_digits x s :
  exists d, pretty_N_go x s = d +:+ s /\ all_digits d = true.
Proof.
  revert s. induction (N.lt_wf_0 x) as [x _ IH]. intros s.
  destruct (decide (x = 0%N)) as [->|Hx].
  - exists "". split; reflexivity.
  - rewrite pretty_N_go_step by lia.
    destruct (IH (x `div` 10)%N) with (s := String (pretty_N_char (x `mod` 10)%N) s)
      as (d & -> & Hd).
    { apply N.div_lt; lia. }
    exists (d +:+ String (pretty_N_char (x `mod` 10)%N) "").
    split; [now rewrite string_app_assoc|].
    apply all_digits_app; [exact Hd|].
    simpl. now rewrite pretty_N_char_digit.
Qed.

(** [f'{np:d}'] of a positive count is a run of digits. *)
Lemma pretty_pos_digits (np : Z) : 0 < np -> all_digits (pretty np) = true.
Proof.
  intros Hnp. destruct np as [|p|p]; try lia.
  change (pretty (Z.pos p)) with (pretty (N.pos p)).
  unfold pretty, pretty_N.
  destruct (decide (N.pos p = 0%N)) as [|_]; [reflexivity|].
  destruct (pretty_N_go_digits (N.pos p) "") as (d & -> & Hd).
  apply all_digits_app; [exact Hd|reflexivity].
Qed.

Lemma all_digits_avoids c s :
  is_digit c = false -> all_digits s = true -> avoids c s = true.
Proof.
  intros Hc. induction s as [|a s IH]; intros Hs; [reflexivity|].
  simpl in *. apply andb_true_iff in Hs as [Ha Hs].
  rewrite IH by exact Hs. rewrite andb_true_r.
  apply negb_true_iff, bool_decide_eq_false. intros ->. congruence.
Qed.

Lemma starts_with_app pat s : starts_with pat (pat +:+ s) = true.
Proof.
  induction pat as [|p pat IH]; [reflexivity|].
  rewrite string_app_cons. simpl. rewrite IH.
  now rewrite bool_decide_eq_true_2.
Qed.

Lemma starts_with_app_l pat a s :
  starts_with pat a = true -> starts_with pat (a +:+ s) = true.
Proof.
  revert a. induction pat as [|p pat IH]; intros a H; [reflexivity|].
  destruct a as [|x a]; [discriminate|].
  rewrite string_app_cons. simpl in *.
  apply andb_true_iff in H as [-> H]. simpl. auto.
Qed.

Lemma occurs_app_l pat a s : occurs pat a = true -> occurs pat (a +:+ s) = true.
Proof.
  induction a as [|x a IH]; intros H.
  - simpl in H. rewrite orb_false_r in H.
    destruct pat; [|discriminate]. destruct s; reflexivity.
  - rewrite string_app_cons. simpl in *.
    apply orb_true_iff in H as [H|H].
    + apply (starts_with_app_l pat (String x a) s) in H.
      rewrite string_app_cons in H. simpl in H. now rewrite H.
    + rewrite (IH H). apply orb_true_r.
Qed.

Lemma occurs_app_r pat a s : occurs pat s = true -> occurs pat (a +:+ s) = true.
Proof.
  intros H. induction a as [|x a IH]; [exact H|].
  rewrite string_app_cons. simpl. rewrite IH. apply orb_true_r.
Qed.

Lemma occurs_refl pat : occurs pat pat = true.
Proof.
  destruct pat as [|p pat]; [reflexivity|].
  cbn [occurs]. apply orb_true_iff. left.
  pose proof (starts_with_app (String p pat) "") as H.
  replace (String p pat +:+ "") with (String p pat) in H; [exact H|].
  clear H. generalize (String p pat). intros s.
  induction s as [|x s IH]; [reflexivity|].
  rewrite string_app_cons. now rewrite <- IH.
Qed.

(** Every element of a joined script occurs in it. *)
Lemma occurs_join_elem x l : In x l -> occurs x (join l) = true.
Proof.
  induction l as [|a l IH]; [contradiction|].
  destruct l as [|b l].
  - intros [->|[]]. apply occurs_refl.
  - rewrite join_cons_cons. intros [->|H].
    + apply occurs_app_l, occurs_refl.
    + apply occurs_app_r. cbn [occurs]. rewrite (IH H). apply orb_true_r.
Qed.

(** ** The job-script builder *)

Lemma append_if_set_app block l :
  append_if_set block l = l ++ append_if_set block [].
Proof.
  unfold append_if_set. destruct block as [b|]; [|now rewrite app_nil_r].
  destruct (truthy (Some b)); [reflexivity|now rewrite app_nil_r].
Qed.

Lemma append_execution_app engine_cmd np mpi_path l :
  append_execution engine_cmd np mpi_path l
  = l ++ append_execution engine_cmd np mpi_path [].
Proof.
  unfold append_execution. destruct engine_cmd as [c|]; [|now rewrite app_nil_r].
  destruct (truthy (Some c)); [reflexivity|now rewrite app_nil_r].
Qed.

(** The list the builder joins, block by block. *)
Lemma job_script_lines_blocks engine_cmd np cd_path mpi_path remote
    scheduler_block module_load_block extra_block :
  job_script_lines engine_cmd np cd_path mpi_path remote
    scheduler_block module_load_block extra_block
  = [job_script_first_line]
    ++ (if remote
        then append_if_set scheduler_block []
             ++ append_if_set module_load_block []
        else [])
    ++ cd_lines cd_path
    ++ append_execution engine_cmd np mpi_path []
    ++ append_if_set extra_block []
    ++ (if remote then [remote_job_script_last_line] else []).
Proof.
  unfold job_script_lines, cd_lines.
  destruct remote.
  - rewrite (append_if_set_app extra_block (append_execution _ _ _ _)).
    rewrite (append_execution_app _ _ _ (match cd_path with _ => _ end)).
    rewrite (append_if_set_app module_load_block (append_if_set _ _)).
    rewrite (append_if_set_app scheduler_block [job_script_first_line]).
    destruct cd_path as [p|]; [destruct (truthy (Some p))|];
      rewrite ?app_nil_r, <- ?app_assoc; reflexivity.
  - rewrite (append_if_set_app extra_block (append_execution _ _ _ _)).
    rewrite (append_execution_app _ _ _ (match cd_path with _ => _ end)).
    destruct cd_path as [p|]; [destruct (truthy (Some p))|];
      rewrite ?app_nil_r, <- ?app_assoc; reflexivity.
Qed.

Lemma sentinel_not_in_launcher mpi_path :
  mentions remote_job_script_last_line mpi_path = false ->
  occurs remote_job_script_last_line (launcher mpi_path) = false.
Proof.
  unfold launcher, mentions. destruct mpi_path as [m|]; [|reflexivity].
  destruct (truthy _); [auto|reflexivity].
Qed.

(** The sentinel text can only reach the execution line through the
    command or the launcher path. *)
Lemma sentinel_in_execution_line cmd np mpi_path :
  occurs remote_job_script_last_line (execution_line cmd np mpi_path) = true ->
  occurs remote_job_script_last_line (launcher mpi_path) = true
  \/ occurs remote_job_script_last_line cmd = true.
Proof.
  unfold execution_line. case_bool_decide as Hnp.
  - replace (launcher mpi_path +:+ " -np " +:+ pretty np +:+ " " +:+ cmd)
      with ((launcher mpi_path +:+ " ")
            +:+ String "-" ("np " +:+ pretty np +:+ " " +:+ cmd))
      by (now rewrite string_app_assoc).
    intros H. apply occurs_app_char in H as [H|H]; [| |reflexivity].
    + left. apply occurs_snoc_ne in H; [exact H|discriminate..].
    + right.
      rewrite (occurs_app_avoid _ "t"%char "np ") in H by reflexivity.
      rewrite (occurs_app_avoid _ "t"%char (pretty np)) in H;
        [|reflexivity|].
      * now rewrite (occurs_app_avoid _ "t"%char " ") in H by reflexivity.
      * apply all_digits_avoids; [reflexivity|].
        apply pretty_pos_digits. lia.
  - intros H. right.
    rewrite (occurs_app_avoid _ "t"%char "bash -c 'echo $$;  ") in H
      by reflexivity.
    apply occurs_snoc_ne in H; [exact H|discriminate..].
Qed.

Example script_local :
  assemable_job_cmd (Some "nwchem gs.nwi > gs.nwo") 1 (Some "/p/nwchem/GS")
    (Some "mpirun") false None None None
  = "#!/bin/bash" +:+ newline +:+ "cd /p/nwchem/GS;" +:+ newline
    +:+ "bash -c 'echo $$;  nwchem gs.nwi > gs.nwo'".
Proof. reflexivity. Qed.

Example script_remote :
  assemable_job_cmd (Some "nwchem gs.nwi > gs.nwo") 4 (Some "/r/GS")
    None true None (Some "#module load nwchem") None
  = "#!/bin/bash" +:+ newline +:+ "#module load nwchem" +:+ newline
    +:+ "cd /r/GS;" +:+ newline
    +:+ "mpirun -np 4 nwchem gs.nwi > gs.nwo" +:+ newline +:+ "touch Done".
Proof. vm_compute. reflexivity. Qed.

(** C1, as stated, fails for a local script: the optional blocks go into
    the script as they are, so a caller's extra block that is the
    sentinel command puts it there with [remote=False]. *)
Lemma local_script_holds_callers_sentinel :
  let script :=
    assemable_job_cmd (Some "nwchem gs.nwi > gs.nwo") 1 None None false
      None None (Some "touch Done") in
  script = "#!/bin/bash" +:+ newline
           +:+ "bash -c 'echo $$;  nwchem gs.nwi > gs.nwo'" +:+ newline
           +:+ "touch Done"
  /\ last_line script = Some remote_job_script_last_line
  /\ In remote_job_script_last_line (split_lines script)
  /\ occurs remote_job_script_last_line script = true.
Proof. vm_compute. intuition. Qed.

(** C1 (amended): the script's first line is always the interpreter
    directive; with [remote=True] its last line is the sentinel command
    [touch Done]; with [remote=False] the builder adds no sentinel, so
    the sentinel text is in the script only if it is in one of the texts
    the caller supplied (working directory, command, launcher path,
    extra block). *)
Theorem job_script_first_last_sentinel
    engine_cmd np cd_path mpi_path remote
    scheduler_block module_load_block extra_block :
  let script :=
    assemable_job_cmd engine_cmd np cd_path mpi_path remote
      scheduler_block module_load_block extra_block in
  first_line script = Some job_script_first_line
  /\ (remote = true -> last_line script = Some remote_job_script_last_line)
  /\ (remote = false ->
      mentions remote_job_script_last_line cd_path = false ->
      mentions remote_job_script_last_line engine_cmd = false ->
      mentions remote_job_script_last_line mpi_path = false ->
      mentions remote_job_script_last_line extra_block = false ->
      occurs remote_job_script_last_line script = false).
Proof.
  cbv zeta. unfold assemable_job_cmd.
  rewrite job_script_lines_blocks. split; [|split].
  - cbn [app]. now rewrite first_line_join.
  - intros ->. rewrite !app_assoc. now rewrite last_line_join.
  - intros -> Hcd Hcmd Hmpi Hextra. rewrite !app_nil_r. cbn [app].
    match goal with |- ?o = false => destruct o eqn:Hocc end; [|reflexivity].
    apply occurs_join in Hocc as (x & Hx & Hox); [|reflexivity|discriminate].
    exfalso. destruct Hx as [<-|Hx]; [discriminate|].
    rewrite !in_app_iff in Hx. destruct Hx as [Hx|[Hx|Hx]].
    + unfold cd_lines in Hx. destruct cd_path as [p|]; [|contradiction].
      destruct (truthy (Some p)); [|contradiction].
      destruct Hx as [<-|[]].
      rewrite (occurs_app_avoid _ "t"%char "cd ") in Hox by reflexivity.
      apply occurs_snoc_ne in Hox; [|discriminate..].
      simpl in Hcd. congruence.
    + unfold append_execution in Hx.
      destruct engine_cmd as [cmd|]; [|contradiction].
      destruct (truthy (Some cmd)); [|contradiction].
      destruct Hx as [<-|[]].
      apply sentinel_in_execution_line in Hox as [Hox|Hox].
      * rewrite sentinel_not_in_launcher in Hox by exact Hmpi. discriminate.
      * simpl in Hcmd. congruence.
    + unfold append_if_set in Hx. destruct extra_block as [b|]; [|contradiction].
      destruct (truthy (Some b)); [|contradiction].
      destruct Hx as [<-|[]]. simpl in Hextra. congruence.
Qed.

Lemma job_script_first_last_sentinel_witness :
  let script :=
    assemable_job_cmd (Some "nwchem gs.nwi > gs.nwo") 4
      (Some "/home/u/proj/nwchem/ground_state") (Some "/opt/mpi/bin/mpirun")
      false None None (Some "echo finished") in
  first_line script = Some job_script_first_line
  /\ occurs remote_job_script_last_line script = false.
Proof.
  pose proof (job_script_first_last_sentinel
                (Some "nwchem gs.nwi > gs.nwo") 4
                (Some "/home/u/proj/nwchem/ground_state")
                (Some "/opt/mpi/bin/mpirun")
                false None None (Some "echo finished")) as H.
  cbv zeta in H. destruct H as (H1 & _ & H3).
  split; [exact H1|]. apply H3; reflexivity.
Defined.

(** C2, as stated, fails at process count 1 when the command itself
    names the launcher: the line wraps the command as it is. *)
Lemma serial_line_holds_commands_launcher :
  let cmd := "mpirun -np 2 nwchem gs.nwi > gs.nwo" in
  let script := assemable_job_cmd (Some cmd) 1 None None false None None None in
  script = "#!/bin/bash" +:+ newline
           +:+ "bash -c 'echo $$;  mpirun -np 2 nwchem gs.nwi > gs.nwo'"
  /\ execution_line cmd 1 None
     = "bash -c 'echo $$;  mpirun -np 2 nwchem gs.nwi > gs.nwo'"
  /\ occurs "mpirun" (execution_line cmd 1 None) = true.
Proof. vm_compute. intuition. Qed.

Lemma execution_line_in_script cmd np cd_path mpi_path remote
    scheduler_block module_load_block extra_block :
  cmd <> "" ->
  In (execution_line cmd np mpi_path)
     (job_script_lines (Some cmd) np cd_path mpi_path remote
        scheduler_block module_load_block extra_block).
Proof.
  intros Hcmd. rewrite job_script_lines_blocks.
  unfold append_execution, truthy.
  rewrite bool_decide_eq_false_2 by exact Hcmd. cbn [negb].
  rewrite !in_app_iff. simpl. tauto.
Qed.

(** C2 (amended): for a non-empty command the execution line is a line
    of the script; with process count above 1 it is the launcher, then
    [-np] and the exact count, then the command; with process count 1
    it is exactly the subshell [bash -c 'echo $$;  <command>'], which
    adds no launcher: the token [mpirun] is in the line only if the
    command itself holds it. *)
Theorem execution_line_by_process_count
    cmd np cd_path mpi_path remote
    scheduler_block module_load_block extra_block :
  cmd <> "" ->
  let script :=
    assemable_job_cmd (Some cmd) np cd_path mpi_path remote
      scheduler_block module_load_block extra_block in
  let line := execution_line cmd np mpi_path in
  In line (job_script_lines (Some cmd) np cd_path mpi_path remote
             scheduler_block module_load_block extra_block)
  /\ occurs line script = true
  /\ (np > 1 ->
      line = launcher mpi_path +:+ " -np " +:+ pretty np +:+ " " +:+ cmd
      /\ starts_with (launcher mpi_path) line = true
      /\ occurs (" -np " +:+ pretty np +:+ " ") line = true)
  /\ (np = 1 ->
      line = "bash -c 'echo $$;  " +:+ cmd +:+ "'"
      /\ starts_with "bash -c 'echo $$;" line = true
      /\ (occurs "mpirun" cmd = false -> occurs "mpirun" line = false)).
Proof.
  intros Hcmd. cbv zeta.
  pose proof (execution_line_in_script cmd np cd_path mpi_path remote
                scheduler_block module_load_block extra_block Hcmd) as Hin.
  split; [exact Hin|]. split; [now apply occurs_join_elem|].
  unfold execution_line. split.
  - intros Hnp. rewrite bool_decide_eq_true_2 by exact Hnp.
    split; [reflexivity|]. split; [apply starts_with_app|].
    apply occurs_app_r. rewrite <- !string_app_assoc.
    apply occurs_app_l, occurs_refl.
  - intros ->. rewrite bool_decide_eq_false_2 by lia.
    split; [reflexivity|]. split; [reflexivity|].
    intros Hfree.
    match goal with |- ?o = false => destruct o eqn:Hocc end; [|reflexivity].
    rewrite (occurs_app_avoid _ "m"%char "bash -c 'echo $$;  ") in Hocc
      by reflexivity.
    apply occurs_snoc_ne in Hocc; [congruence|discriminate..].
Qed.

Lemma execution_line_by_process_count_witness :
  let line := execution_line "nwchem gs.nwi > gs.nwo" 4 (Some "mpiexec") in
  In line (job_script_lines (Some "nwchem gs.nwi > gs.nwo") 4
             (Some "/p/nwchem/GS") (Some "mpiexec") false None None None)
  /\ line = "mpiexec -np 4 nwchem gs.nwi > gs.nwo"
  /\ occurs "mpirun" (execution_line "nwchem gs.nwi > gs.nwo" 1 None) = false.
Proof.
  pose proof (execution_line_by_process_count "nwchem gs.nwi > gs.nwo" 4
                (Some "/p/nwchem/GS") (Some "mpiexec") false None None None
                ltac:(discriminate)) as H4.
  pose proof (execution_line_by_process_count "nwchem gs.nwi > gs.nwo" 1
                None None false None None None
                ltac:(discriminate)) as H1.
  cbv zeta in H4, H1.
  destruct H4 as (Hin & _ & Hpar & _), H1 as (_ & _ & _ & Hser).
  split; [exact Hin|]. split.
  - destruct Hpar as (-> & _); [reflexivity|]. vm_compute. reflexivity.
  - destruct Hser as (_ & _ & Hfree); [reflexivity|]. now apply Hfree.
Defined.

(** C10: with process count above 1 and no launcher path supplied
    ([mpi_path] absent or empty), the execution line is exactly
    [mpirun -np <process_count> <command>]. *)
Theorem execution_line_default_launcher
    cmd np cd_path mpi_path remote
    scheduler_block module_load_block extra_block :
  cmd <> "" -> np > 1 -> mpi_path = None \/ mpi_path = Some "" ->
  let line := "mpirun -np " +:+ pretty np +:+ " " +:+ cmd in
  execution_line cmd np mpi_path = line
  /\ In line (job_script_lines (Some cmd) np cd_path mpi_path remote
                scheduler_block module_load_block extra_block)
  /\ occurs line (assemable_job_cmd (Some cmd) np cd_path mpi_path remote
                    scheduler_block module_load_block extra_block) = true.
Proof.
  intros Hcmd Hnp Hmpi. cbv zeta.
  assert (execution_line cmd np mpi_path
          = "mpirun -np " +:+ pretty np +:+ " " +:+ cmd) as <-.
  { unfold execution_line. rewrite bool_decide_eq_true_2 by exact Hnp.
    destruct Hmpi as [-> | ->]; reflexivity. }
  split; [reflexivity|].
  split; [now apply execution_line_in_script|].
  apply occurs_join_elem. now apply execution_line_in_script.
Qed.

Lemma execution_line_default_launcher_witness :
  execution_line "nwchem td.nwi > td.nwo" 8 (Some "")
  = "mpirun -np 8 nwchem td.nwi > td.nwo".
Proof.
  destruct (execution_line_default_launcher "nwchem td.nwi > td.nwo" 8
              (Some "/p/nwchem/rt_tddft") (Some "") false None None None
              ltac:(discriminate) ltac:(reflexivity)
              ltac:(right; reflexivity)) as (H & _).
  rewrite H. vm_compute. reflexivity.
Defined.

(** ** Running computations *)

Lemma bind_run {A B} (m : M A) (f : A -> M B) w :
  (m ≫= f) w
  = match m w with
    | (inr x, w1) => f x w1
    | (inl e, w1) => (inl e, w1)
    end.
Proof. reflexivity. Qed.

Lemma bind_inv {A B} (m : M A) (f : A -> M B) w r w' :
  (m ≫= f) w = (r, w') ->
  (exists e, m w = (inl e, w') /\ r = inl e)
  \/ (exists x w1, m w = (inr x, w1) /\ f x w1 = (r, w')).
Proof.
  rewrite bind_run. destruct (m w) as [[e|x] w1]; intros H.
  - left. exists e. now inversion H.
  - right. eauto.
Qed.

(** ** Completion check *)

(** C5: [check_output] raises (a [TaskFailed], "Job not completed.") if
    and only if the selected execution record, the network one when a
    network submission exists and the local one otherwise, has no defined
    return code; with a defined return code it returns [True]. *)
Theorem check_output_raises_iff_no_return_code
    (self : Task) (w : world) (info : TaskInfo.t) :
  w_infos w !! task_info self = Some info ->
  let rc := selected_return_code self info in
  ((exists e w', check_output self w = (inl e, w'))
   <-> return_code_defined rc = false)
  /\ (return_code_defined rc = false ->
      check_output self w = (inl (TaskFailed "Job not completed."), w))
  /\ (return_code_defined rc = true -> check_output self w = (inr true, w)).
Proof.
  intros Hinfo. cbv zeta.
  assert (check_output self w
          = if return_code_defined (selected_return_code self info)
            then (inr true, w)
            else (inl (TaskFailed "Job not completed."), w)) as Hrun.
  { unfold check_output, selected_return_code, dict_get_default.
    rewrite bind_run. unfold get_info. rewrite Hinfo.
    destruct (submit_network self);
      [destruct (dict_lookup "sub_returncode" _) as [[]|]
      |destruct (dict_lookup "returncode" _) as [[]|]]; reflexivity. }
  rewrite Hrun.
  destruct (return_code_defined _); repeat split; try congruence; eauto.
  - intros (e & w' & [=]).
Qed.

Lemma check_output_raises_iff_no_return_code_witness :
  let run (self : Task) :=
    check_output self
      {| w_fs := ∅; w_files := ∅; w_dicts := ∅;
         w_infos := {[ 1%positive :=
           TaskInfo.set_state Sample.blank_state
             {| TaskInfo.name := "ground_state"; TaskInfo.engine := "nwchem";
                TaskInfo.path := Sample.project; TaskInfo.param := 1%positive;
                TaskInfo.engine_param := 2%positive; TaskInfo.input := [];
                TaskInfo.output := []; TaskInfo.state := Sample.blank_state;
                TaskInfo.local := [("returncode", PyInt 1)];
                TaskInfo.network := [] |} ]} |} in
  let self :=
    {| lsconfig := Sample.cfg; task_info := 1%positive;
       task_name := "ground_state"; dependent_tasks := None;
       directory := Sample.project; project_dir := Sample.project;
       engine_name := "nwchem"; engine_path := "nwchem";
       mpi_path := "mpirun"; python_path := "python";
       job_script := None; submit_network := None |} in
  (run self).1 = inr true
  /\ (run (connect_to_network [] self)).1
     = inl (TaskFailed "Job not completed.").
Proof.
  cbv zeta. split.
  - match goal with |- (check_output ?t ?w).1 = _ =>
      edestruct (check_output_raises_iff_no_return_code t w) as (_ & _ & H);
        [reflexivity|rewrite H; reflexivity]
    end.
  - match goal with |- (check_output ?t ?w).1 = _ =>
      edestruct (check_output_raises_iff_no_return_code t w) as (_ & H & _);
        [reflexivity|rewrite H; reflexivity]
    end.
Defined.

(** ** Prerequisite check *)

(** C4 (the code at a failing input): a ground-state task of a project
    that holds neither the geometry file nor the restart directory, both
    declared as required, passes [check_prerequisite] on either
    substrate; the method returns [True] whatever it is given. *)
Theorem check_prerequisite_passes_with_missing_artifacts :
  match Task__init__ Sample.cfg 1%positive None Sample.world0 with
  | (inr self, w) =>
      required_artifacts (task_name self) = ["coordinate.xyz"; "nwchem/restart"]
      /\ missing_artifacts (w_fs w ∪ w_files w) self
         = ["coordinate.xyz"; "nwchem/restart"]
      /\ check_prerequisite self [PyBool false] = true
      /\ check_prerequisite self [PyBool true] = true
  | _ => False
  end
  /\ forall (self : Task) (args : list pyval),
       check_prerequisite self args = true.
Proof.
  split; [|reflexivity].
  vm_compute. repeat split.
Qed.

(** ** Task identity *)

(** C8 (the code at a failing input): the identifier and the job-script
    file name are attributes of the class, evaluated once in its body, so
    any two task instances of a run have the same identifier and the same
    job-script file name; two tasks of one project write the same script
    file. *)
Theorem task_instances_share_identifier :
  (forall (uuid4 : string) (t1 t2 : Task),
     let cls := TaskCls.class_body uuid4 in
     Task_id cls t1 = Task_id cls t2
     /\ Task_BASH_filename cls t1 = Task_BASH_filename cls t2
     /\ Task_BASH_filename cls t1 = "ls_job_script_" +:+ uuid4 +:+ ".sh")
  /\ let cls := TaskCls.class_body "0b9e6b3c-5a1f-4e0e-9d55-3c1f6a0b7d21" in
     match Task__init__ Sample.cfg 1%positive None Sample.world0,
           Task__init__ Sample.cfg 3%positive None Sample.world0 with
     | (inr t1, _), (inr t2, _) =>
         task_info t1 <> task_info t2
         /\ Task_id cls t1 = Task_id cls t2
         /\ bash_file cls t1 = bash_file cls t2
     | _, _ => False
     end.
Proof.
  split.
  - intros uuid4 t1 t2. cbv zeta. repeat split.
  - vm_compute. repeat split. discriminate.
Qed.

(** ** Setup flags *)

Section SetupFlags.

Context {env : Env}.

(** A failing template creation leaves the task records as they were. *)
Lemma create_template_failure_keeps_infos (self : BaseNwchemTask) w e w' :
  nwchem_create_template self w = (inl e, w') -> w_infos w' = w_infos w.
Proof.
  cbv [nwchem_create_template set_engine_input mbind M_bind mret M_ret
       lift get_info read_dict write_dict put_info].
  intros H. repeat case_match; simplify_eq/=; reflexivity.
Qed.

(** Writing the input never touches the task records. *)
Lemma write_input_keeps_infos (self : BaseNwchemTask) w r w' :
  nwchem_write_input self w = (r, w') -> w_infos w' = w_infos w.
Proof.
  cbv [nwchem_write_input create_directory makedirs engine_write_input
       mbind M_bind mret M_ret lift raise get_info get_fs get_files set_fs].
  intros H. repeat case_match; simplify_eq/=; reflexivity.
Qed.

Lemma mark_input_created_run l w info :
  w_infos w !! l = Some info ->
  exists w1, mark_input_created l w = (inr tt, w1)
    /\ flag_input_created w1 l = Some true.
Proof.
  intros H. unfold mark_input_created. rewrite bind_run.
  unfold get_info. rewrite H. eexists. split; [reflexivity|].
  unfold flag_input_created. cbn. now rewrite lookup_insert_eq.
Qed.

Lemma mark_input_saved_run l w info :
  w_infos w !! l = Some info ->
  exists w1, mark_input_saved l w = (inr tt, w1)
    /\ flag_input_saved w1 l = Some true.
Proof.
  intros H. unfold mark_input_saved. rewrite bind_run.
  unfold get_info. rewrite H. eexists. split; [reflexivity|].
  unfold flag_input_saved. cbn. now rewrite lookup_insert_eq.
Qed.

(** C7 (the code against the claim): [create_input] and [save_input]
    set their flag before they call the step, and nothing clears it: when
    [create_template] raises, [input_created] is set afterwards, and when
    [write_input] raises, [input_saved] is set afterwards. *)
Theorem setup_flag_is_set_when_step_raises
    (self : BaseNwchemTask) (w w' : world) (info : TaskInfo.t) (e : exn) :
  w_infos w !! task_info (task self) = Some info ->
  (create_input self w = (inl e, w') ->
   flag_input_created w' (task_info (task self)) = Some true)
  /\ (save_input self w = (inl e, w') ->
      flag_input_saved w' (task_info (task self)) = Some true).
Proof.
  intros Hinfo. split; intros Hrun.
  - destruct (mark_input_created_run _ _ _ Hinfo) as (w1 & Hmark & Hflag).
    unfold create_input in Hrun. rewrite bind_run in Hrun.
    cbn [base BaseNwchemTask_methods] in Hrun. rewrite Hmark in Hrun.
    cbn [create_template BaseNwchemTask_methods] in Hrun.
    apply create_template_failure_keeps_infos in Hrun.
    unfold flag_input_created in *. now rewrite Hrun.
  - destruct (mark_input_saved_run _ _ _ Hinfo) as (w1 & Hmark & Hflag).
    unfold save_input in Hrun. rewrite bind_run in Hrun.
    cbn [base BaseNwchemTask_methods] in Hrun. rewrite Hmark in Hrun.
    cbn [write_input BaseNwchemTask_methods] in Hrun.
    apply write_input_keeps_infos in Hrun.
    unfold flag_input_saved in *. now rewrite Hrun.
Qed.

End SetupFlags.

(** Replaces a closed computation by its value. *)
Ltac evaluate t :=
  let v := eval vm_compute in t in
  let H := fresh "Hval" in
  assert (t = v) as H by (vm_compute; reflexivity);
  rewrite H; clear H.

Section SetupFlagsSample.

#[local] Existing Instance Sample.env.

(** A ground-state task that is built and then saved without a template
    ([write_input] finds no ['data'] and raises [KeyError]): the flag was
    unset before, and [input_saved] is set after the failure. *)
Lemma setup_flag_is_set_when_step_raises_witness :
  match BaseNwchemTask__init__ Sample.cfg 1%positive None
          Sample.world0 with
  | (inr self, w) =>
      flag_input_saved w 1%positive = Some false
      /\ match save_input self w with
         | (r, w') =>
             r = inl (KeyError "data")
             /\ flag_input_saved w' 1%positive = Some true
         end
  | _ => False
  end.
Proof.
  evaluate (BaseNwchemTask__init__ Sample.cfg 1%positive None Sample.world0).
  split; [vm_compute; reflexivity|].
  match goal with |- match save_input ?s ?w with _ => _ end =>
    assert ((save_input s w).1 = inl (KeyError "data")) as Hr
      by (vm_compute; reflexivity);
    destruct (save_input s w) as [r w'] eqn:Hsave;
    cbn [fst] in Hr; subst r; split; [reflexivity|];
    edestruct (setup_flag_is_set_when_step_raises s w w') as [_ H];
      [vm_compute; reflexivity|exact (H Hsave)]
  end.
Defined.

End SetupFlagsSample.

(** ** What the computations raise *)

Section Rules.

Context {A B : Type}.
Implicit Types (P : exn -> Prop) (m : M A) (f : A -> M B).

Lemma raises_only_bind P m f :
  raises_only P m -> (forall x, raises_only P (f x)) ->
  raises_only P (m ≫= f).
Proof.
  intros Hm Hf w e w' H.
  apply bind_inv in H as [(e' & H & [= ->])|(x & w1 & _ & H)].
  - eapply Hm, H.
  - eapply Hf, H.
Qed.

Lemma raises_only_ret P (x : A) : raises_only P (mret x).
Proof. intros w e w' [=]. Qed.

Lemma raises_only_raise P e : P e -> raises_only (A := A) P (raise e).
Proof. intros He w e' w' [= <- _]. exact He. Qed.

Lemma raises_only_lift P (r : result A) :
  fails_only P r -> raises_only P (lift r).
Proof. intros Hr w e w' [= -> _]. now apply Hr. Qed.

End Rules.

(** The store operations raise nothing of the input-validation kind. *)
Lemma raises_get_info l : raises_only not_setup_error (get_info l).
Proof.
  intros w e w'. unfold get_info. case_match; intros [=]; subst; reflexivity.
Qed.

Lemma raises_put_info l i : raises_only not_setup_error (put_info l i).
Proof. intros w e w' [=]. Qed.

Lemma raises_get_fs : raises_only not_setup_error get_fs.
Proof. intros w e w' [=]. Qed.

Lemma raises_read_dict l : raises_only not_setup_error (read_dict l).
Proof.
  intros w e w'. unfold read_dict. case_match; intros [=]; subst; reflexivity.
Qed.

Lemma raises_write_dict l d : raises_only not_setup_error (write_dict l d).
Proof. intros w e w' [=]. Qed.

Lemma raises_setitem l k v : raises_only not_setup_error (setitem l k v).
Proof.
  apply raises_only_bind; [apply raises_read_dict|intros; apply raises_write_dict].
Qed.

Lemma fails_py_get v k : fails_only not_setup_error (py_get v k).
Proof. intros e. destruct v; intros [=]; subst; reflexivity. Qed.

Lemma fails_py_getitem v k : fails_only not_setup_error (py_getitem v k).
Proof.
  intros e. unfold py_getitem. repeat case_match; intros [=]; subst; reflexivity.
Qed.

Lemma fails_py_setitem v k x : fails_only not_setup_error (py_setitem v k x).
Proof. intros e. destruct v; intros [=]; subst; reflexivity. Qed.

Lemma fails_py_add_str v s : fails_only not_setup_error (py_add_str v s).
Proof. intros e. destruct v; intros [=]; subst; reflexivity. Qed.

Lemma fails_relative_to p q : fails_only not_setup_error (relative_to p q).
Proof.
  revert p. induction q as [|b q IH]; intros p e;
    destruct p as [|c p]; simpl; try (intros [=]; subst; reflexivity).
  case_decide; [apply IH|intros [=]; subst; reflexivity].
Qed.

Create HintDb raises.

Lemma raises_pop l k : raises_only not_setup_error (pop l k).
Proof.
  unfold pop. apply raises_only_bind; [apply raises_read_dict|intros d].
  destruct (dict_lookup k d); [|now apply raises_only_raise].
  apply raises_only_bind; [apply raises_write_dict|intros; apply raises_only_ret].
Qed.

Lemma raises_pop_default l k v :
  raises_only not_setup_error (pop_default l k v).
Proof.
  unfold pop_default. apply raises_only_bind; [apply raises_read_dict|intros d].
  destruct (dict_lookup k d); [|apply raises_only_ret].
  apply raises_only_bind; [apply raises_write_dict|intros; apply raises_only_ret].
Qed.

Lemma fails_only_bind {X Y} P (r : result X) (f : X -> result Y) :
  fails_only P r -> (forall x, fails_only P (f x)) -> fails_only P (r ≫= f).
Proof.
  intros Hr Hf e H. destruct r as [e'|x].
  - cbv [mbind result_bind] in H. injection H as <-. exact (Hr e' eq_refl).
  - exact (Hf x e H).
Qed.

Lemma fails_only_ret {X} P (x : X) : fails_only P (mret x : result X).
Proof. intros e [=]. Qed.

Lemma fails_only_fmap {X Y} P (g : X -> Y) (r : result X) :
  fails_only P r -> fails_only P (g <$> r).
Proof.
  intros Hr e H. destruct r as [e'|x]; [|discriminate H].
  cbv [fmap result_fmap] in H. injection H as <-. exact (Hr e' eq_refl).
Qed.

Lemma fails_builtin what r : fails_only not_setup_error (builtin what r).
Proof. intros e. destruct r; intros [=]; subst; reflexivity. Qed.

Lemma fails_py_contains_str s v :
  fails_only not_setup_error (py_contains_str s v).
Proof. intros e. destruct v; intros [=]; subst; reflexivity. Qed.

Lemma fails_read_pol_dir_1 pol : fails_only not_setup_error (read_pol_dir_1 pol).
Proof.
  intros e. unfold read_pol_dir_1.
  destruct (read_pol_dir pol) as [[]|]; intros [=]; subst; reflexivity.
Qed.

Lemma fails_out_print v : fails_only not_setup_error (out_print v).
Proof.
  unfold out_print.
  apply fails_only_bind; [apply fails_py_contains_str|intros b1].
  apply fails_only_bind; [apply fails_py_contains_str|intros b2].
  apply fails_only_ret.
Qed.

Lemma fails_add_gaussian_laser name laser :
  fails_only not_setup_error (add_gaussian_laser name laser).
Proof.
  unfold add_gaussian_laser.
  repeat first
    [ apply fails_only_ret
    | apply fails_only_bind;
        [first [apply fails_py_getitem|apply fails_read_pol_dir_1]|intros ?] ].
Qed.

Lemma fails_add_delta_laser name laser :
  fails_only not_setup_error (add_delta_laser name laser).
Proof.
  unfold add_delta_laser.
  repeat first
    [ apply fails_only_ret
    | apply fails_only_bind;
        [first [apply fails_py_getitem|apply fails_read_pol_dir_1]|intros ?] ].
Qed.

#[local] Hint Resolve raises_get_info raises_put_info raises_get_fs
  raises_read_dict raises_write_dict raises_setitem raises_pop
  raises_pop_default fails_py_get fails_py_getitem fails_py_setitem
  fails_py_add_str fails_relative_to fails_builtin fails_py_contains_str
  fails_read_pol_dir_1 fails_out_print fails_add_gaussian_laser
  fails_add_delta_laser fails_only_fmap fails_only_bind
  : raises.

(** Walks a computation bind by bind. *)
Ltac raises_walk :=
  repeat first
    [ solve [eauto with raises]
    | apply raises_only_bind; [|intros ?]
    | apply raises_only_ret
    | apply raises_only_raise; reflexivity
    | apply raises_only_lift
    | match goal with
      | |- raises_only _ (if ?b then _ else _) => destruct b
      | |- raises_only _ (match ?x with _ => _ end) => destruct x
      end ].

(** ** Ground-state parameter validation *)

Section GroundStateValidation.

Context {env : Env}.

Lemma format_gs_param_rejects d :
  gs_param_rejected d = true ->
  exists msg, format_gs_param d = inl (InputError msg).
Proof.
  unfold gs_param_rejected, format_gs_param. intros H.
  destruct (negb (py_eq_str _ _)); [eauto|].
  destruct (negb (py_in_values (dict_get "xc" d) _)); [eauto|].
  destruct (negb (py_in_values (dict_get "basis" d) _)); [eauto|discriminate].
Qed.

Lemma format_gs_param_accepts d :
  gs_param_rejected d = false -> exists gs, format_gs_param d = inr gs.
Proof.
  unfold gs_param_rejected, format_gs_param. intros H.
  destruct (negb (py_eq_str _ _)); [discriminate|].
  destruct (negb (py_in_values (dict_get "xc" d) _)); [discriminate|].
  destruct (negb (py_in_values (dict_get "basis" d) _)); [discriminate|eauto].
Qed.

Lemma Task__init___run cfg l deps w info :
  cfg_complete cfg -> w_infos w !! l = Some info ->
  exists self,
    Task__init__ cfg l deps w = (inr self, w)
    /\ task_name self = TaskInfo.name info
    /\ task_info self = l
    /\ project_dir self = TaskInfo.path info
    /\ dependent_tasks self = deps.
Proof.
  intros ([e He] & [m Hm] & [p Hp]) Hinfo.
  unfold Task__init__. rewrite bind_run. unfold get_info. rewrite Hinfo.
  unfold cfg_section. rewrite He, Hm, Hp. cbn.
  eexists. split; [reflexivity|]. cbn. auto.
Qed.

Lemma raises_dependent_task deps i :
  raises_only not_setup_error (dependent_task deps i).
Proof. unfold dependent_task. raises_walk. Qed.

Lemma raises_dependent_outfile self i :
  raises_only not_setup_error (dependent_outfile self i).
Proof.
  unfold dependent_outfile.
  apply raises_only_bind; [apply raises_dependent_task|intros dep].
  raises_walk.
Qed.

Lemma raises_set_engine_input l k v :
  raises_only not_setup_error (set_engine_input l k v).
Proof. unfold set_engine_input. raises_walk. Qed.

Lemma raises_set_rt_field param v :
  raises_only not_setup_error (set_rt_field param v).
Proof. unfold set_rt_field. raises_walk. Qed.

Lemma raises_laser_loop param pol lasers i laser_dict laser_list :
  raises_only not_setup_error
    (laser_loop param pol lasers i laser_dict laser_list).
Proof.
  revert i laser_dict laser_list.
  induction lasers as [|laser rest IH]; intros i laser_dict laser_list.
  - apply raises_only_ret.
  - pose proof raises_set_rt_field. cbn [laser_loop]. raises_walk.
Qed.

Lemma raises_update_td_param param :
  raises_only not_setup_error (update_td_param param).
Proof.
  unfold update_td_param.
  pose proof raises_set_rt_field. pose proof raises_laser_loop.
  raises_walk.
Qed.

(** [create_engine] raises nothing of the input-validation kind. *)
Lemma raises_create_engine self td param :
  raises_only not_setup_error (create_engine self td param).
Proof.
  unfold create_engine.
  pose proof raises_dependent_outfile. pose proof raises_set_engine_input.
  pose proof raises_update_td_param. pose proof raises_dependent_task.
  raises_walk.
Qed.

Lemma get_info_bind {X} l (f : TaskInfo.t -> M X) w info :
  w_infos w !! l = Some info -> (get_info l ≫= f) w = f info w.
Proof. intros H. rewrite bind_run. unfold get_info. now rewrite H. Qed.

Lemma read_dict_bind {X} l (f : dict -> M X) w d :
  w_dicts w !! l = Some d -> (read_dict l ≫= f) w = f d w.
Proof. intros H. rewrite bind_run. unfold read_dict. now rewrite H. Qed.

Lemma deepcopy_bind {X} l (f : loc -> M X) w d :
  w_dicts w !! l = Some d ->
  (deepcopy l ≫= f) w
  = f (fresh (dom (w_dicts w)))
      {| w_fs := w_fs w; w_files := w_files w;
         w_dicts := <[fresh (dom (w_dicts w)) := d]> (w_dicts w);
         w_infos := w_infos w |}.
Proof.
  intros H. unfold deepcopy. rewrite bind_run, (read_dict_bind _ _ _ _ H).
  reflexivity.
Qed.

(** C6: for a ground-state task, the parameter dictionary is rejected,
    with an [InputError] (a [TaskSetupError]), exactly when its
    [basis_type] is not ['gaussian'], or its [xc] is not an accepted
    value, or its [basis] is not an accepted value.  The error is raised
    by the constructor, before any engine object exists, and leaves the
    file system and the task records untouched; with accepted values the
    constructor raises no error of that kind. *)
Theorem ground_state_parameters_validated cfg l deps w info d :
  cfg_complete cfg ->
  w_infos w !! l = Some info ->
  TaskInfo.name info = GROUND_STATE ->
  w_dicts w !! TaskInfo.param info = Some d ->
  ((exists msg, format_gs_param d = inl (InputError msg))
   <-> gs_param_rejected d = true)
  /\ (gs_param_rejected d = true ->
      exists msg w',
        BaseNwchemTask__init__ cfg l deps w = (inl (InputError msg), w')
        /\ is_TaskSetupError (InputError msg) = true
        /\ w_fs w' = w_fs w /\ w_files w' = w_files w
        /\ w_infos w' = w_infos w)
  /\ (gs_param_rejected d = false ->
      forall e w',
        BaseNwchemTask__init__ cfg l deps w = (inl e, w') ->
        is_TaskSetupError e = false).
Proof.
  intros Hcfg Hinfo Hname Hd.
  destruct (Task__init___run cfg l deps w info Hcfg Hinfo)
    as (self & Hself & Hn & _).
  assert (forall r w',
            BaseNwchemTask__init__ cfg l deps w = (r, w') ->
            match format_gs_param d with
            | inl e =>
                r = inl e /\ w_fs w' = w_fs w /\ w_files w' = w_files w
                /\ w_infos w' = w_infos w
            | inr gs =>
                exists ui w1,
                  create_engine self (dict_get (task_name self) nwchem_data)
                    ui w1 = (r, w')
            end) as Hrun.
  { intros r w'. unfold BaseNwchemTask__init__.
    rewrite bind_run, Hself, (get_info_bind _ _ _ _ Hinfo).
    rewrite (deepcopy_bind _ _ _ _ Hd), bind_run.
    destruct (decide (task_name self = GROUND_STATE)) as [_|Hno];
      [|congruence].
    erewrite read_dict_bind by apply lookup_insert_eq.
    rewrite bind_run. unfold lift at 1.
    destruct (format_gs_param d) as [e|gs].
    - intros [= <- <-]. auto.
    - cbn. eauto. }
  split; [|split].
  - split; [|apply format_gs_param_rejects].
    intros [msg Hmsg]. destruct (gs_param_rejected d) eqn:Hrej; [reflexivity|].
    destruct (format_gs_param_accepts d Hrej) as [gs Hgs]. congruence.
  - intros Hrej. destruct (format_gs_param_rejects d Hrej) as [msg Hmsg].
    destruct (BaseNwchemTask__init__ cfg l deps w) as [r w'] eqn:Hinit.
    specialize (Hrun r w' eq_refl). rewrite Hmsg in Hrun.
    destruct Hrun as (-> & Hfs & Hfiles & Hinfos). eauto 10.
  - intros Hrej e w' Hinit.
    destruct (format_gs_param_accepts d Hrej) as [gs Hgs].
    specialize (Hrun _ _ Hinit). rewrite Hgs in Hrun.
    destruct Hrun as (ui & w1 & Hrun).
    eapply raises_create_engine. exact Hrun.
Qed.

End GroundStateValidation.

Section GroundStateSample.

#[local] Existing Instance Sample.env.

Lemma sample_cfg_complete : cfg_complete Sample.cfg.
Proof. unfold cfg_complete. rewrite !is_Some_alt. vm_compute. auto. Qed.

(** An unsupported functional name is rejected; the sample parameters
    are accepted and the task is built. *)
Lemma ground_state_parameters_validated_witness :
  let bad := <[ 1%positive := dict_set "xc" (PyStr "lda") Sample.gs_param ]> in
  let w := {| w_fs := w_fs Sample.world0;
              w_files := w_files Sample.world0;
              w_dicts := bad (w_dicts Sample.world0);
              w_infos := w_infos Sample.world0 |} in
  (exists msg w',
     BaseNwchemTask__init__ Sample.cfg 1%positive None w
     = (inl (InputError msg), w'))
  /\ (forall e w',
        BaseNwchemTask__init__ Sample.cfg 1%positive None Sample.world0
        = (inl e, w') -> is_TaskSetupError e = false).
Proof.
  cbv zeta. split.
  - match goal with |- exists msg w', BaseNwchemTask__init__ ?c ?l ?d ?w = _ =>
      edestruct (ground_state_parameters_validated c l d w) as (_ & Hbad & _);
        [exact sample_cfg_complete|vm_compute; reflexivity
        |reflexivity|vm_compute; reflexivity|]
    end.
    destruct Hbad as (msg & w' & H & _); [vm_compute; reflexivity|eauto].
  - edestruct (ground_state_parameters_validated Sample.cfg 1%positive None
                 Sample.world0) as (_ & _ & Hgood);
      [exact sample_cfg_complete|vm_compute; reflexivity
      |reflexivity|vm_compute; reflexivity|].
    apply Hgood. vm_compute. reflexivity.
Defined.

End GroundStateSample.


(** ** The declared parameters are never written *)

Section SpecRules.

Context {A B : Type} (I : world -> Prop).

Lemma spec_bind (m : M A) (f : A -> M B) (Q1 : A -> Prop) (Q : B -> Prop) :
  spec I m Q1 -> (forall x, Q1 x -> spec I (f x) Q) -> spec I (m ≫= f) Q.
Proof.
  intros Hm Hf w r w' HI H.
  apply bind_inv in H as [(e & H & ->)|(x & w1 & Hx & H)].
  - destruct (Hm _ _ _ HI H) as [HI' _]. auto.
  - destruct (Hm _ _ _ HI Hx) as [HI1 HQ1]. exact (Hf x HQ1 _ _ _ HI1 H).
Qed.

Lemma spec_weaken (m : M A) (Q1 Q : A -> Prop) :
  spec I m Q1 -> (forall x, Q1 x -> Q x) -> spec I m Q.
Proof.
  intros Hm HQ w r w' HI H. destruct (Hm _ _ _ HI H) as [HI' Hr].
  split; [exact HI'|]. destruct r; auto.
Qed.

Lemma spec_ret (x : A) (Q : A -> Prop) : Q x -> spec I (mret x) Q.
Proof. intros Hx w r w' HI [= <- <-]. auto. Qed.

Lemma spec_raise (e : exn) (Q : A -> Prop) : spec I (raise e) Q.
Proof. intros w r w' HI [= <- <-]. auto. Qed.

Lemma spec_lift (x : result A) : spec I (lift x) (fun _ => True).
Proof. intros w r w' HI [= <- <-]. split; [exact HI|]. now destruct x. Qed.

End SpecRules.

Section ParamFrame.

Context {env : Env}.
Variables (l p : loc) (d : dict).

#[local] Abbreviation Inv := (param_intact l p d).

Lemma spec_any_bind {X Y} (m : M X) (f : X -> M Y) (Q : Y -> Prop) :
  spec Inv m (fun _ => True) -> (forall x, spec Inv (f x) Q) -> spec Inv (m ≫= f) Q.
Proof. intros Hm Hf. eapply spec_bind; [exact Hm|auto]. Qed.

Lemma spec_get_fs : spec Inv get_fs (fun _ => True).
Proof. intros w r w' HI [= <- <-]. auto. Qed.

Lemma spec_get_files : spec Inv get_files (fun _ => True).
Proof. intros w r w' HI [= <- <-]. auto. Qed.

Lemma spec_set_fs fs : spec Inv (set_fs fs) (fun _ => True).
Proof. intros w r w' HI [= <- <-]. auto. Qed.

Lemma spec_get_info l' :
  spec Inv (get_info l')
    (fun info => l' = l ->
       TaskInfo.param info = p /\ TaskInfo.engine_param info <> p).
Proof.
  intros w r w' HI. unfold get_info.
  destruct (w_infos w !! l') as [info|] eqn:Hl; intros [= <- <-];
    (split; [exact HI|]); [|exact I].
  intros ->. destruct HI as (_ & info' & Hinfo & Hp & Hep). now simplify_eq.
Qed.

Lemma spec_put_info l' info :
  (l' = l -> TaskInfo.param info = p /\ TaskInfo.engine_param info <> p) ->
  spec Inv (put_info l' info) (fun _ => True).
Proof.
  intros Hok w r w' (Hd & info' & Hinfo & Hp & Hep) [= <- <-].
  split; [|exact I]. split; [exact Hd|]. cbn.
  destruct (decide (l' = l)) as [->|Hne].
  - exists info. rewrite lookup_insert_eq. destruct Hok; auto.
  - exists info'. rewrite lookup_insert_ne by exact Hne. auto.
Qed.

Lemma spec_read_dict l' : spec Inv (read_dict l') (fun _ => True).
Proof.
  intros w r w' HI. unfold read_dict.
  destruct (w_dicts w !! l'); intros [= <- <-]; auto.
Qed.

Lemma spec_write_dict l' d' :
  l' <> p -> spec Inv (write_dict l' d') (fun _ => True).
Proof.
  intros Hne w r w' (Hd & Hinfo) [= <- <-].
  split; [|exact I]. split; [|exact Hinfo].
  cbn. now rewrite lookup_insert_ne.
Qed.

(** A new object is never the parameter object, which exists. *)
Lemma spec_alloc_dict d' : spec Inv (alloc_dict d') (fun x => x <> p).
Proof.
  intros w r w' (Hd & Hinfo) [= <- <-].
  assert (fresh (dom (w_dicts w)) <> p) as Hne.
  { intros Heq. apply (is_fresh (dom (w_dicts w))). rewrite Heq.
    apply elem_of_dom. eauto. }
  split; [|exact Hne]. split; [|exact Hinfo].
  cbn. now rewrite lookup_insert_ne.
Qed.

Lemma spec_deepcopy l' : spec Inv (deepcopy l') (fun x => x <> p).
Proof.
  unfold deepcopy. apply spec_any_bind; [apply spec_read_dict|].
  intros x. apply spec_alloc_dict.
Qed.

Lemma spec_setitem l' k v : l' <> p -> spec Inv (setitem l' k v) (fun _ => True).
Proof.
  intros Hne. unfold setitem. apply spec_any_bind; [apply spec_read_dict|].
  intros x. now apply spec_write_dict.
Qed.

Lemma spec_pop l' k : l' <> p -> spec Inv (pop l' k) (fun _ => True).
Proof.
  intros Hne. unfold pop. apply spec_any_bind; [apply spec_read_dict|].
  intros x. destruct (dict_lookup k x); [|apply spec_raise].
  apply spec_any_bind; [now apply spec_write_dict|].
  intros _. now apply spec_ret.
Qed.

Lemma spec_pop_default l' k v :
  l' <> p -> spec Inv (pop_default l' k v) (fun _ => True).
Proof.
  intros Hne. unfold pop_default. apply spec_any_bind; [apply spec_read_dict|].
  intros x. destruct (dict_lookup k x); [|now apply spec_ret].
  apply spec_any_bind; [now apply spec_write_dict|].
  intros _. now apply spec_ret.
Qed.

Create HintDb frame.

#[local] Hint Resolve spec_get_fs spec_get_files spec_set_fs spec_read_dict
  spec_write_dict spec_setitem spec_pop spec_pop_default spec_lift : frame.

(** Walks a computation that writes no dictionary but [param]. *)
Ltac frame_walk :=
  repeat first
    [ solve [eauto with frame]
    | apply spec_raise
    | apply spec_ret; solve [exact I | split; reflexivity]
    | eapply spec_bind; [apply spec_get_info|intros ? ?]
    | apply spec_any_bind; [|intros ?]
    | apply spec_put_info; solve [auto]
    | match goal with
      | |- spec _ (if ?b then _ else _) _ => destruct b
      | |- spec _ (match ?x with _ => _ end) _ => destruct x
      end ].

Lemma spec_set_rt_field param v :
  param <> p -> spec Inv (set_rt_field param v) (fun _ => True).
Proof. intros Hne. unfold set_rt_field. frame_walk. Qed.

Lemma spec_laser_loop param pol lasers i laser_dict laser_list :
  param <> p ->
  spec Inv (laser_loop param pol lasers i laser_dict laser_list)
    (fun _ => True).
Proof.
  intros Hne. revert i laser_dict laser_list.
  induction lasers as [|laser rest IH]; intros i laser_dict laser_list.
  - now apply spec_ret.
  - pose proof (spec_set_rt_field param) as Hfield.
    cbn [laser_loop]. frame_walk.
Qed.

Lemma spec_update_td_param param :
  param <> p -> spec Inv (update_td_param param) (fun _ => True).
Proof.
  intros Hne. unfold update_td_param.
  pose proof (spec_set_rt_field param) as Hfield.
  pose proof (spec_laser_loop param) as Hloop.
  frame_walk.
Qed.

Lemma spec_dependent_task deps i :
  spec Inv (dependent_task deps i) (fun _ => True).
Proof.
  unfold dependent_task. destruct deps as [ds|]; [|apply spec_raise].
  destruct (ds !! i); [|apply spec_raise].
  eapply spec_weaken; [apply spec_get_info|auto].
Qed.

Lemma spec_dependent_outfile self i :
  spec Inv (dependent_outfile self i) (fun _ => True).
Proof.
  unfold dependent_outfile.
  apply spec_any_bind; [apply spec_dependent_task|intros dep]. frame_walk.
Qed.

Lemma spec_set_engine_input l' k v :
  spec Inv (set_engine_input l' k v) (fun _ => True).
Proof. unfold set_engine_input. frame_walk. Qed.

(** [create_engine] writes the dictionary it is given and the task
    record's input and output, nothing else. *)
Lemma spec_create_engine self td param :
  param <> p ->
  spec Inv (create_engine self td param)
    (fun t => user_input t = param /\ task t = self).
Proof.
  intros Hne. unfold create_engine.
  pose proof spec_dependent_outfile as Hout.
  pose proof spec_dependent_task as Hdep.
  pose proof (spec_update_td_param param Hne) as Htd.
  pose proof spec_set_engine_input as Hei.
  frame_walk.
Qed.

Lemma spec_Task__init__ cfg l' deps :
  spec Inv (Task__init__ cfg l' deps) (fun self => task_info self = l').
Proof.
  unfold Task__init__.
  eapply spec_bind; [apply spec_get_info|intros info _].
  apply spec_any_bind; [apply spec_lift|intros engine].
  apply spec_any_bind; [apply spec_lift|intros mpi].
  apply spec_any_bind; [apply spec_lift|intros programs].
  now apply spec_ret.
Qed.

(** The constructor works on a copy: the object it hands to
    [create_engine] is a new one. *)
Lemma spec_BaseNwchemTask__init__ cfg l' deps :
  spec Inv (BaseNwchemTask__init__ cfg l' deps)
    (fun t => user_input t <> p /\ task_info (task t) = l').
Proof.
  unfold BaseNwchemTask__init__.
  eapply spec_bind; [apply spec_Task__init__|intros self Hself].
  eapply spec_bind; [apply spec_get_info|intros info _].
  eapply spec_bind; [apply spec_deepcopy|intros param Hparam].
  eapply (spec_bind _ _ _ (fun x => x <> p)).
  - destruct (decide (task_name self = GROUND_STATE)); [|now apply spec_ret].
    apply spec_any_bind; [apply spec_read_dict|intros gen_dict].
    apply spec_any_bind; [apply spec_lift|intros gs_input].
    apply spec_alloc_dict.
  - intros ui Hui. eapply spec_weaken; [now apply spec_create_engine|].
    intros t [-> ->]. auto.
Qed.

Lemma spec_create_template self :
  task_info (task self) = l ->
  spec Inv (nwchem_create_template self) (fun _ => True).
Proof.
  intros Hl. unfold nwchem_create_template.
  apply spec_any_bind; [apply spec_lift|intros template].
  eapply spec_bind; [apply spec_get_info|intros info Hinfo].
  apply spec_any_bind; [apply spec_read_dict|intros ui].
  apply spec_any_bind; [apply spec_read_dict|intros ep].
  apply spec_any_bind; [|intros _; apply spec_set_engine_input].
  apply spec_write_dict. now apply Hinfo.
Qed.

Lemma spec_engine_write_input nw template :
  spec Inv (engine_write_input nw template) (fun _ => True).
Proof.
  intros w r w' HI. unfold engine_write_input.
  destruct (NWChem_write_input nw template (w_fs w, w_files w))
    as [r0 [fs' files']].
  intros [= <- <-]. split; [exact HI|now destruct r0].
Qed.

Lemma spec_write_input self :
  spec Inv (nwchem_write_input self) (fun _ => True).
Proof.
  unfold nwchem_write_input, create_directory, makedirs.
  pose proof spec_engine_write_input. frame_walk.
Qed.

(** [create_job_script] leaves the object on the record it was on. *)
Lemma create_job_script_self_task_info self np remote_path :
  task_info (task (create_job_script_self self np remote_path).1)
  = task_info (task self).
Proof.
  unfold create_job_script_self.
  destruct (truthy remote_path); cbn [task set_task task_info set_engine_path];
    (destruct (bool_decide _); [|reflexivity]);
    match goal with
    | |- context [match ?r with inr _ => _ | inl _ => _ end] => destruct r
    end; reflexivity.
Qed.

Lemma spec_create_job_script self np remote_path :
  spec Inv (create_job_script self np remote_path)
    (fun t => task_info (task t) = task_info (task self)).
Proof.
  intros w r w' HI. unfold create_job_script.
  pose proof (create_job_script_self_task_info self np remote_path) as Hl.
  destruct (create_job_script_self self np remote_path) as [self' [e|script]];
    intros [= <- <-]; split; auto.
Qed.

Lemma spec_mark_input_created l' : spec Inv (mark_input_created l') (fun _ => True).
Proof. unfold mark_input_created. frame_walk. Qed.

Lemma spec_mark_input_saved l' : spec Inv (mark_input_saved l') (fun _ => True).
Proof. unfold mark_input_saved. frame_walk. Qed.

Lemma spec_lifecycle_step self o :
  task_info (task self) = l ->
  spec Inv (lifecycle_step self o) (fun t => task_info (task t) = l).
Proof.
  intros Hl.
  pose proof (spec_create_template self Hl) as Hct.
  pose proof (spec_write_input self) as Hwi.
  destruct o; cbn [lifecycle_step create_template write_input create_input
                   save_input base BaseNwchemTask_methods].
  - apply spec_any_bind; [exact Hct|intros _; now apply spec_ret].
  - apply spec_any_bind; [exact Hwi|intros _; now apply spec_ret].
  - unfold create_input. cbn [base create_template BaseNwchemTask_methods].
    apply spec_any_bind; [|intros _; now apply spec_ret].
    apply spec_any_bind; [apply spec_mark_input_created|intros _; exact Hct].
  - unfold save_input. cbn [base write_input BaseNwchemTask_methods].
    apply spec_any_bind; [|intros _; now apply spec_ret].
    apply spec_any_bind; [apply spec_mark_input_saved|intros _; exact Hwi].
  - eapply spec_weaken; [apply spec_create_job_script|].
    intros t ->. exact Hl.
Qed.

Lemma lifecycle_keeps_param self ops w :
  task_info (task self) = l -> Inv w -> Inv (lifecycle self ops w).2.
Proof.
  revert self w. induction ops as [|o ops IH]; intros self w Hl HI; [exact HI|].
  cbn [lifecycle].
  destruct (lifecycle_step self o w) as [[e|self'] w1] eqn:Hstep;
    destruct (spec_lifecycle_step self o Hl _ _ _ HI Hstep) as [HI1 Hl1];
    [|auto].
  apply IH; [|exact HI1].
  destruct o; try exact Hl. cbn [after_raise].
  now rewrite create_job_script_self_task_info.
Qed.

End ParamFrame.

Section DeclaredParameters.

Context {env : Env}.

(** C9: the declared parameter dictionary of the task record is not
    changed by the task: after the constructor, whether it returns or
    raises, and after any sequence of [create_template], [write_input],
    [create_input], [save_input] and [create_job_script] calls on the
    built task, [task_info.param] is the same object with the value it
    had when the task was created.  (The constructor translates a deep
    copy; [create_template] writes [engine_param] and the rendered
    input.) *)
Theorem declared_parameters_unchanged cfg l deps w info d r w1 :
  w_infos w !! l = Some info ->
  w_dicts w !! TaskInfo.param info = Some d ->
  TaskInfo.engine_param info <> TaskInfo.param info ->
  BaseNwchemTask__init__ cfg l deps w = (r, w1) ->
  param_intact l (TaskInfo.param info) d w1
  /\ forall self ops,
       r = inr self ->
       param_intact l (TaskInfo.param info) d (lifecycle self ops w1).2.
Proof.
  intros Hinfo Hd Hep Hinit.
  assert (param_intact l (TaskInfo.param info) d w) as HI by (split; eauto).
  destruct (spec_BaseNwchemTask__init__ l (TaskInfo.param info) d cfg l deps
              _ _ _ HI Hinit) as [HI1 Hr].
  split; [exact HI1|]. intros self ops ->. destruct Hr as [_ Hl].
  now apply lifecycle_keeps_param.
Qed.

End DeclaredParameters.

Section DeclaredParametersSample.

#[local] Existing Instance Sample.env.

(** A time-propagation task: the constructor pops and rewrites entries
    of its copy, and the declared parameters stay as they were through
    the life cycle. *)
Lemma declared_parameters_unchanged_witness :
  let run :=
    BaseNwchemTask__init__ Sample.cfg 3%positive (Some [1%positive])
      Sample.world0 in
  w_dicts run.2 !! 5%positive = Some Sample.td_param
  /\ match run.1 with
     | inr self =>
         dict_lookup "time_step" <$> w_dicts run.2 !! user_input self
         = Some None
         /\ w_dicts
              (lifecycle self
                 [DoCreateInput; DoSaveInput; DoCreateJobScript 4 None]
                 run.2).2 !! 5%positive
            = Some Sample.td_param
     | inl _ => False
     end.
Proof.
  cbv zeta.
  edestruct (declared_parameters_unchanged Sample.cfg 3%positive
               (Some [1%positive]) Sample.world0) as [H1 H2];
    [vm_compute; reflexivity|vm_compute; reflexivity|discriminate
    |apply surjective_pairing|].
  split; [exact (proj1 H1)|].
  match goal with |- match ?r with _ => _ end =>
    assert (match r with
            | inr self =>
                dict_lookup "time_step" <$> w_dicts
                  (BaseNwchemTask__init__ Sample.cfg 3%positive
                     (Some [1%positive]) Sample.world0).2
                  !! user_input self = Some None
            | inl _ => False
            end) as Hcopy by (vm_compute; reflexivity);
    revert Hcopy; destruct r as [e|self] eqn:Hr; intros Hcopy;
      [exact Hcopy|]
  end.
  split; [exact Hcopy|].
  exact (proj1 (H2 self _ eq_refl)).
Defined.

End DeclaredParametersSample.

(** ** Task directories *)

Lemma sibling_inj (p : path) : Inj (=) (=) (sibling p).
Proof.
  intros n m H. unfold sibling, path_div in H.
  apply app_inj_tail in H as [_ H].
  apply (inj (String.app _)) in H. apply (inj (String.app _)) in H.
  now apply (inj pretty) in H.
Qed.

(** The search finds the first unused sibling name: with as much fuel as
    there are existing paths it never gives up. *)
Lemma next_unused_spec (fs : gset path) (p : path) (fuel n : nat)
    (X : gset path) :
  (size X <= fuel)%nat ->
  (forall k, (n <= k)%nat -> sibling p k ∈ fs -> sibling p k ∈ X) ->
  exists m : nat, ((n <= m)%nat)
    /\ next_unused fs p fuel n = sibling p m
    /\ (sibling p m ∉ fs)
    /\ forall k, (n <= k < m)%nat -> sibling p k ∈ fs.
Proof.
  revert n X. induction fuel as [|fuel IH]; intros n X Hsize HX.
  - assert (X ≡ ∅) as HX0 by (apply size_empty_iff; lia).
    exists n. simpl. destruct (decide (sibling p n ∈ fs)) as [Hin|Hout].
    + apply HX in Hin; [|lia]. set_solver.
    + repeat split; [lia|exact Hout|lia].
  - simpl. destruct (decide (sibling p n ∈ fs)) as [Hin|Hout].
    + destruct (IH (S n) (X ∖ {[ sibling p n ]})) as (m & Hm & Heq & Hfree & Hbelow).
      * assert (sibling p n ∈ X) as HinX by (apply HX; [lia|exact Hin]).
        pose proof (size_difference X {[ sibling p n ]}) as Hd.
        rewrite size_singleton in Hd.
        assert ({[ sibling p n ]} ⊆ X) as Hsub by set_solver.
        specialize (Hd Hsub).
        assert (size X <> 0)%nat.
        { intros H0%size_empty_iff. set_solver. }
        lia.
      * intros k Hk Hkin. apply elem_of_difference. split; [apply HX; [lia|exact Hkin]|].
        intros Heq%elem_of_singleton. apply sibling_inj in Heq. lia.
      * exists m. repeat split; [lia|exact Heq|exact Hfree|].
        intros k Hk. destruct (decide (k = n)) as [->|Hne]; [exact Hin|].
        apply Hbelow. lia.
    + exists n. repeat split; [lia|exact Hout|lia].
Qed.

(** The directory handed out does not exist; it is the canonical one
    when that is unused, and otherwise the first unused sibling. *)
Lemma get_new_directory_spec (fs : gset path) (p : path) :
  (get_new_directory fs p ∉ fs)
  /\ (p ∉ fs -> get_new_directory fs p = p)
  /\ (p ∈ fs ->
      exists n : nat, ((1 <= n)%nat)
        /\ get_new_directory fs p = sibling p n
        /\ forall k, (1 <= k < n)%nat -> sibling p k ∈ fs).
Proof.
  unfold get_new_directory. destruct (decide (p ∈ fs)) as [Hin|Hout].
  - destruct (next_unused_spec fs p (size fs) 1 fs) as (m & Hm & Heq & Hfree & Hbelow);
      [lia|auto|].
    rewrite Heq. split; [exact Hfree|]. split; [contradiction|].
    intros _. exists m. auto.
  - split; [exact Hout|]. split; [reflexivity|contradiction].
Qed.

Section DirectoryFrame.

Context {env : Env}.
Variable fs0 : gset path.

#[local] Abbreviation fs_is := (fs_is fs0).

Ltac fs_prim :=
  intros w r w' HI;
  cbv [get_info put_info read_dict write_dict alloc_dict lift];
  repeat case_match; intros [= <- <-]; (split; [exact HI|]);
  try exact I.

Lemma fs_get_fs : spec fs_is get_fs (fun fs => fs = fs0).
Proof. intros w r w' HI [= <- <-]. auto. Qed.

Lemma fs_get_info l : spec fs_is (get_info l) (fun _ => True).
Proof. fs_prim. Qed.

Lemma fs_put_info l i : spec fs_is (put_info l i) (fun _ => True).
Proof. fs_prim. Qed.

Lemma fs_read_dict l : spec fs_is (read_dict l) (fun _ => True).
Proof. fs_prim. Qed.

Lemma fs_write_dict l d : spec fs_is (write_dict l d) (fun _ => True).
Proof. fs_prim. Qed.

Lemma fs_alloc_dict d : spec fs_is (alloc_dict d) (fun _ => True).
Proof. fs_prim. Qed.

Create HintDb fsframe.

#[local] Hint Resolve fs_get_info fs_put_info fs_read_dict fs_write_dict
  fs_alloc_dict spec_lift : fsframe.

Ltac fs_walk :=
  repeat first
    [ solve [eauto with fsframe]
    | apply spec_raise
    | apply spec_ret; solve [exact I | reflexivity]
    | eapply spec_bind; [solve [eauto with fsframe]|intros ? _]
    | eapply (spec_bind _ _ _ (fun _ => True)); [|intros ? _]
    | match goal with
      | |- spec _ (if ?b then _ else _) _ => destruct b
      | |- spec _ (match ?x with _ => _ end) _ => destruct x
      end ].

Lemma fs_setitem l k v : spec fs_is (setitem l k v) (fun _ => True).
Proof. unfold setitem. fs_walk. Qed.

Lemma fs_pop l k : spec fs_is (pop l k) (fun _ => True).
Proof. unfold pop. fs_walk. Qed.

Lemma fs_pop_default l k v : spec fs_is (pop_default l k v) (fun _ => True).
Proof. unfold pop_default. fs_walk. Qed.

Lemma fs_deepcopy l : spec fs_is (deepcopy l) (fun _ => True).
Proof. unfold deepcopy. fs_walk. Qed.

#[local] Hint Resolve fs_setitem fs_pop fs_pop_default fs_deepcopy : fsframe.

Lemma fs_set_rt_field param v : spec fs_is (set_rt_field param v) (fun _ => True).
Proof. unfold set_rt_field. fs_walk. Qed.

#[local] Hint Resolve fs_set_rt_field : fsframe.

Lemma fs_laser_loop param pol lasers i laser_dict laser_list :
  spec fs_is (laser_loop param pol lasers i laser_dict laser_list)
    (fun _ => True).
Proof.
  revert i laser_dict laser_list.
  induction lasers as [|laser rest IH]; intros i laser_dict laser_list.
  - now apply spec_ret.
  - cbn [laser_loop]. fs_walk.
Qed.

#[local] Hint Resolve fs_laser_loop : fsframe.

Lemma fs_update_td_param param : spec fs_is (update_td_param param) (fun _ => True).
Proof. unfold update_td_param. fs_walk. Qed.

Lemma fs_dependent_task deps i : spec fs_is (dependent_task deps i) (fun _ => True).
Proof. unfold dependent_task. fs_walk. Qed.

#[local] Hint Resolve fs_update_td_param fs_dependent_task : fsframe.

Lemma fs_dependent_outfile self i :
  spec fs_is (dependent_outfile self i) (fun _ => True).
Proof. unfold dependent_outfile. fs_walk. Qed.

Lemma fs_set_engine_input l k v :
  spec fs_is (set_engine_input l k v) (fun _ => True).
Proof. unfold set_engine_input. fs_walk. Qed.

#[local] Hint Resolve fs_dependent_outfile fs_set_engine_input : fsframe.

(** [create_engine] asks [get_new_directory] for the task directory and
    creates nothing. *)
Lemma fs_create_engine self td param :
  spec fs_is (create_engine self td param)
    (fun t => task t = self
              /\ task_dir t = get_new_directory fs0 (canonical_dir self)).
Proof.
  unfold create_engine, canonical_dir.
  eapply spec_bind; [apply fs_get_fs|intros fs ->].
  repeat first
    [ apply spec_raise
    | apply spec_ret; split; reflexivity
    | solve [eauto with fsframe]
    | eapply spec_bind; [solve [eauto with fsframe]|intros ? _]
    | eapply (spec_bind _ _ _ (fun _ => True)); [|intros ? _]
    | match goal with
      | |- spec _ (if ?b then _ else _) _ => destruct b
      | |- spec _ (match ?x with _ => _ end) _ => destruct x
      end ].
Qed.

Lemma fs_Task__init__ cfg l deps :
  spec fs_is (Task__init__ cfg l deps) (fun _ => True).
Proof. unfold Task__init__. fs_walk. Qed.

Lemma fs_BaseNwchemTask__init__ cfg l deps :
  spec fs_is (BaseNwchemTask__init__ cfg l deps)
    (fun t => task_dir t = get_new_directory fs0 (canonical_dir (task t))).
Proof.
  unfold BaseNwchemTask__init__.
  eapply spec_bind; [apply fs_Task__init__|intros self _].
  eapply spec_bind; [apply fs_get_info|intros info _].
  eapply spec_bind; [apply fs_deepcopy|intros param _].
  eapply (spec_bind _ _ _ (fun _ => True)).
  - fs_walk.
  - intros ui _. eapply spec_weaken; [apply fs_create_engine|].
    intros t [-> ->]. reflexivity.
Qed.

End DirectoryFrame.

Section TaskDirectories.

Context {env : Env}.

(** The directory of a built task is the one [get_new_directory] gives
    for the file system the constructor started in. *)
Lemma task_dir_of_built_task cfg l deps w t w' :
  BaseNwchemTask__init__ cfg l deps w = (inr t, w') ->
  task_dir t = get_new_directory (w_fs w) (canonical_dir (task t))
  /\ w_fs w' = w_fs w.
Proof.
  intros Hinit.
  destruct (fs_BaseNwchemTask__init__ (w_fs w) cfg l deps w _ _ eq_refl Hinit)
    as [Hfs Hdir].
  split; [exact Hdir|exact Hfs].
Qed.

(** *** Sibling names *)

Lemma pretty_nat_digits (n : nat) : all_digits (pretty n) = true.
Proof.
  unfold pretty, pretty_nat, pretty, pretty_N.
  destruct (decide (N.of_nat n = 0%N)) as [|_]; [reflexivity|].
  destruct (pretty_N_go_digits (N.of_nat n) "") as (d & -> & Hd).
  apply all_digits_app; [exact Hd|reflexivity].
Qed.

Lemma avoids_app_char c a b : avoids c (a +:+ String c b) = false.
Proof.
  induction a as [|x a IH]; simpl.
  - now rewrite bool_decide_eq_true_2.
  - rewrite IH. apply andb_false_r.
Qed.

(** A numbered name determines the name it numbers. *)
Lemma numbered_name_inj (a b x y : string) :
  avoids "_" x = true -> avoids "_" y = true ->
  a +:+ String "_" x = b +:+ String "_" y -> a = b.
Proof.
  intros Hx Hy. revert b.
  induction a as [|c a IH]; intros [|c' b] H.
  - reflexivity.
  - rewrite string_app_nil, string_app_cons in H. injection H as _ H.
    rewrite H in Hx. now rewrite avoids_app_char in Hx.
  - rewrite string_app_nil, string_app_cons in H. injection H as _ H.
    rewrite <- H in Hy. now rewrite avoids_app_char in Hy.
  - rewrite !string_app_cons in H. injection H as <- H. f_equal.
    now apply IH.
Qed.

Lemma pretty_nat_avoids (n : nat) : avoids "_" (pretty n) = true.
Proof. apply all_digits_avoids; [reflexivity|apply pretty_nat_digits]. Qed.

Lemma parent_path_div (p : path) (a : string) :
  p <> [] -> parent (path_div p a) = p.
Proof.
  intros Hp. unfold parent, path_div.
  destruct p as [|c p]; [contradiction|].
  destruct p as [|c' p]; [reflexivity|].
  change ((c :: c' :: p) ++ [a]) with (c :: (c' :: p) ++ [a]).
  destruct ((c' :: p) ++ [a]) as [|x r] eqn:E; [now destruct p|].
  rewrite <- E. change (c :: (c' :: p) ++ [a]) with ((c :: c' :: p) ++ [a]).
  apply removelast_last.
Qed.

Lemma name_path_div (p : path) (a : string) : name (path_div p a) = a.
Proof. unfold name, path_div. apply last_last. Qed.

Lemma sibling_canonical (self : Task) (n : nat) :
  sibling (canonical_dir self) n
  = path_div (path_div (project_dir self) "nwchem")
      (task_name self +:+ "_" +:+ pretty n).
Proof.
  unfold sibling, canonical_dir.
  rewrite name_path_div, parent_path_div; [reflexivity|].
  unfold path_div. now destruct (project_dir self).
Qed.

(** The directories open to two tasks are apart when the tasks are of
    different projects, or their names are apart. *)
Lemma new_directories_apart (fs1 fs2 : gset path) (s1 s2 : Task) d1 d2 :
  assigned_new_directory fs1 s1 d1 ->
  assigned_new_directory fs2 s2 d2 ->
  project_dir s1 <> project_dir s2 \/ names_apart (task_name s1) (task_name s2) ->
  d1 <> d2.
Proof.
  intros (_ & Hc1 & Hs1) (_ & Hc2 & Hs2) Hapart Heq.
  assert (exists x1, d1 = path_div (path_div (project_dir s1) "nwchem") x1
            /\ (x1 = task_name s1
                \/ exists n : nat, x1 = task_name s1 +:+ "_" +:+ pretty n))
    as (x1 & -> & Hx1).
  { destruct (decide (canonical_dir s1 ∈ fs1)) as [Hin|Hout].
    - destruct (Hs1 Hin) as (n & _ & -> & _). rewrite sibling_canonical. eauto.
    - rewrite (Hc1 Hout). unfold canonical_dir. eauto. }
  assert (exists x2, d2 = path_div (path_div (project_dir s2) "nwchem") x2
            /\ (x2 = task_name s2
                \/ exists n : nat, x2 = task_name s2 +:+ "_" +:+ pretty n))
    as (x2 & -> & Hx2).
  { destruct (decide (canonical_dir s2 ∈ fs2)) as [Hin|Hout].
    - destruct (Hs2 Hin) as (n & _ & -> & _). rewrite sibling_canonical. eauto.
    - rewrite (Hc2 Hout). unfold canonical_dir. eauto. }
  unfold path_div in Heq.
  apply app_inj_tail in Heq as [Hproj Hx].
  apply app_inj_tail in Hproj as [Hproj _].
  destruct Hapart as [Hp|(Hne & H12 & H21)]; [contradiction|].
  destruct Hx1 as [->|[n ->]], Hx2 as [->|[m ->]].
  - contradiction.
  - exact (H12 m Hx).
  - exact (H21 n (eq_sym Hx)).
  - apply Hne. eapply numbered_name_inj, Hx; apply pretty_nat_avoids.
Qed.

(** C3 (amended): a task is assigned, when it is built, a directory
    that does not exist at that moment: the canonical
    [<project>/nwchem/<task name>] when no directory of that name
    exists, otherwise the sibling [<task name>_<n>] with the first unused
    [n] from 1 on; building the task creates no directory.  So two
    tasks, also of the same type, get distinct directories whenever the
    first task's directory exists by the time the second is built; and
    tasks of different projects, or of names that are apart, get
    distinct directories in any case. *)
Theorem task_directories_distinct_once_created
    cfg1 l1 deps1 w1 t1 w1' cfg2 l2 deps2 w2 t2 w2' :
  BaseNwchemTask__init__ cfg1 l1 deps1 w1 = (inr t1, w1') ->
  BaseNwchemTask__init__ cfg2 l2 deps2 w2 = (inr t2, w2') ->
  assigned_new_directory (w_fs w1) (task t1) (task_dir t1)
  /\ assigned_new_directory (w_fs w2) (task t2) (task_dir t2)
  /\ w_fs w1' = w_fs w1 /\ w_fs w2' = w_fs w2
  /\ (task_dir t1 ∈ w_fs w2 -> task_dir t1 <> task_dir t2)
  /\ (project_dir (task t1) <> project_dir (task t2)
      \/ names_apart (task_name (task t1)) (task_name (task t2)) ->
      task_dir t1 <> task_dir t2).
Proof.
  intros H1 H2.
  apply task_dir_of_built_task in H1 as [Hd1 Hfs1].
  apply task_dir_of_built_task in H2 as [Hd2 Hfs2].
  assert (assigned_new_directory (w_fs w1) (task t1) (task_dir t1)) as Ha1.
  { rewrite Hd1. apply get_new_directory_spec. }
  assert (assigned_new_directory (w_fs w2) (task t2) (task_dir t2)) as Ha2.
  { rewrite Hd2. apply get_new_directory_spec. }
  do 4 (split; [assumption|]). split.
  - intros Hexists Heq. apply (proj1 Ha2). now rewrite <- Heq.
  - now apply (new_directories_apart (w_fs w1) (w_fs w2)).
Qed.

End TaskDirectories.

Section TaskDirectoriesSample.

#[local] Existing Instance Sample.env.

(** C3, as stated, fails: building a task creates no directory, so two
    ground-state tasks of one project built one after the other, before
    either writes its input, are given the same directory. *)
Lemma two_tasks_built_before_writing_share_directory :
  match BaseNwchemTask__init__ Sample.cfg 1%positive None Sample.world0 with
  | (inr t1, w1) =>
      match BaseNwchemTask__init__ Sample.cfg 2%positive None w1 with
      | (inr t2, w2) =>
          task_info (task t1) <> task_info (task t2)
          /\ task_dir t1 = [""; "home"; "u"; "proj"; "nwchem"; "ground_state"]
          /\ task_dir t2 = task_dir t1
      | _ => False
      end
  | _ => False
  end.
Proof. vm_compute. repeat split. discriminate. Qed.

(** The first task writes its input before the second is built: the
    second gets the sibling [ground_state_1]. *)
Lemma task_directories_distinct_once_created_witness :
  let built1 :=
    BaseNwchemTask__init__ Sample.cfg 1%positive None Sample.world0 in
  match built1.1 with
  | inr t1 =>
      let w := (lifecycle t1 [DoCreateInput; DoSaveInput] built1.2).2 in
      let built2 := BaseNwchemTask__init__ Sample.cfg 2%positive None w in
      match built2.1 with
      | inr t2 =>
          task_dir t1 <> task_dir t2
          /\ task_dir t2
             = [""; "home"; "u"; "proj"; "nwchem"; "ground_state_1"]
      | inl _ => False
      end
  | inl _ => False
  end.
Proof.
  cbv zeta.
  destruct (BaseNwchemTask__init__ Sample.cfg 1%positive None Sample.world0)
    as [r1 w1] eqn:H1.
  assert (exists t1, r1 = inr t1
            /\ match (BaseNwchemTask__init__ Sample.cfg 2%positive None
                        (lifecycle t1 [DoCreateInput; DoSaveInput] w1).2).1 with
               | inr t2 =>
                   bool_decide
                     (task_dir t1
                      ∈ w_fs (lifecycle t1 [DoCreateInput; DoSaveInput] w1).2)
                   = true
                   /\ task_dir t2
                      = [""; "home"; "u"; "proj"; "nwchem"; "ground_state_1"]
               | inl _ => False
               end) as (t1 & -> & Hrun).
  { vm_compute in H1. injection H1 as <- <-. eexists. split; [reflexivity|].
    vm_compute. split; reflexivity. }
  cbn [fst snd].
  destruct (BaseNwchemTask__init__ Sample.cfg 2%positive None _)
    as [[e|t2] w2] eqn:H2; cbn [fst] in Hrun |- *; [exact Hrun|].
  destruct Hrun as [Hin Hdir]. split; [|exact Hdir].
  apply bool_decide_eq_true in Hin.
  destruct (task_directories_distinct_once_created _ _ _ _ _ _ _ _ _ _ _ _
              H1 H2) as (_ & _ & _ & _ & Hdistinct & _).
  exact (Hdistinct Hin).
Defined.

End TaskDirectoriesSample.

(** * Further properties *)

(** ** The job script, line by line *)

Lemma has_char_app c a b :
  has_char c (a +:+ b) = has_char c a || has_char c b.
Proof.
  induction a as [|x a IH]; [reflexivity|].
  rewrite string_app_cons. simpl. rewrite IH. now rewrite orb_assoc.
Qed.

Lemma split_lines_single s : has_char nl s = false -> split_lines s = [s].
Proof.
  induction s as [|c s IH]; [reflexivity|]. simpl.
  intros H. apply orb_false_elim in H as [Hc Hs].
  apply bool_decide_eq_false in Hc.
  destruct (decide (c = nl)); [contradiction|]. now rewrite IH.
Qed.

Lemma split_lines_join_single l :
  l <> [] -> Forall (fun x => has_char nl x = false) l ->
  split_lines (join l) = l.
Proof.
  intros Hne Hl. rewrite split_lines_join by exact Hne. clear Hne.
  induction Hl as [|x l Hx Hl IH]; [reflexivity|].
  simpl. rewrite split_lines_single by exact Hx. simpl. now rewrite IH.
Qed.

Lemma all_digits_no_newline s : all_digits s = true -> has_char nl s = false.
Proof.
  induction s as [|c s IH]; [reflexivity|]. simpl.
  intros H. apply andb_true_iff in H as [Hc Hs]. rewrite (IH Hs).
  rewrite orb_false_r. apply bool_decide_eq_false. intros ->. discriminate.
Qed.

Lemma execution_line_no_newline cmd np mpi_path :
  has_char nl cmd = false -> one_line mpi_path = true ->
  has_char nl (execution_line cmd np mpi_path) = false.
Proof.
  intros Hcmd Hmpi. unfold execution_line. case_bool_decide as Hnp.
  - rewrite !has_char_app, Hcmd.
    rewrite (all_digits_no_newline (pretty np))
      by (apply pretty_pos_digits; lia).
    assert (has_char nl (launcher mpi_path) = false) as ->; [|reflexivity].
    unfold launcher. destruct mpi_path as [m|]; [|reflexivity].
    destruct (truthy (Some m)); [|reflexivity].
    simpl in Hmpi. now apply negb_true_iff in Hmpi.
  - rewrite !has_char_app, Hcmd. reflexivity.
Qed.

Lemma block_no_newline block :
  one_line block = true ->
  Forall (fun x => has_char nl x = false) (append_if_set block []).
Proof.
  intros H. unfold append_if_set. destruct block as [b|]; [|constructor].
  destruct (truthy (Some b)); [|constructor].
  constructor; [|constructor]. simpl in H. now apply negb_true_iff in H.
Qed.

(** X1: When no supplied text holds a newline, the script splits back into
    exactly the lines it was assembled from, in their order: directive,
    scheduler and module blocks (remote only), [cd] line, execution
    line, extra block, sentinel (remote only). *)
Theorem script_lines_round_trip
    engine_cmd np cd_path mpi_path remote
    scheduler_block module_load_block extra_block :
  one_line engine_cmd = true -> one_line cd_path = true ->
  one_line mpi_path = true -> one_line scheduler_block = true ->
  one_line module_load_block = true -> one_line extra_block = true ->
  split_lines
    (assemable_job_cmd engine_cmd np cd_path mpi_path remote
       scheduler_block module_load_block extra_block)
  = [job_script_first_line]
    ++ (if remote
        then append_if_set scheduler_block []
             ++ append_if_set module_load_block []
        else [])
    ++ cd_lines cd_path
    ++ append_execution engine_cmd np mpi_path []
    ++ append_if_set extra_block []
    ++ (if remote then [remote_job_script_last_line] else []).
Proof.
  intros Hcmd Hcd Hmpi Hsb Hmb Heb. unfold assemable_job_cmd.
  rewrite job_script_lines_blocks.
  apply split_lines_join_single; [discriminate|].
  repeat apply Forall_app_2.
  - constructor; [reflexivity|constructor].
  - destruct remote; [|constructor].
    apply Forall_app_2; now apply block_no_newline.
  - unfold cd_lines. destruct cd_path as [p|]; [|constructor].
    destruct (truthy (Some p)); [|constructor].
    constructor; [|constructor]. simpl in Hcd.
    apply negb_true_iff in Hcd. rewrite !has_char_app, Hcd. reflexivity.
  - unfold append_execution. destruct engine_cmd as [cmd|]; [|constructor].
    destruct (truthy (Some cmd)); [|constructor].
    constructor; [|constructor]. apply execution_line_no_newline; [|exact Hmpi].
    simpl in Hcmd. now apply negb_true_iff in Hcmd.
  - now apply block_no_newline.
  - destruct remote; [|constructor]. constructor; [reflexivity|constructor].
Qed.

Lemma script_lines_round_trip_witness :
  split_lines
    (assemable_job_cmd (Some "nwchem td.nwi > td.nwo") 2 (Some "/r/TD")
       None true (Some "#PBS -q debug") None (Some "date"))
  = ["#!/bin/bash"; "#PBS -q debug"; "cd /r/TD;";
     "mpirun -np 2 nwchem td.nwi > td.nwo"; "date"; "touch Done"].
Proof.
  rewrite script_lines_round_trip by reflexivity. vm_compute. reflexivity.
Defined.

Lemma string_length_app a b :
  String.length (a +:+ b) = (String.length a + String.length b)%nat.
Proof.
  induction a as [|x a IH]; [reflexivity|].
  rewrite string_app_cons. simpl. now rewrite IH.
Qed.

Lemma string_app_inv_tail a b s : a +:+ s = b +:+ s -> a = b.
Proof.
  revert b. induction a as [|x a IH]; intros [|y b] H.
  - reflexivity.
  - apply (f_equal String.length) in H.
    rewrite !string_length_app in H. simpl in H. lia.
  - apply (f_equal String.length) in H.
    rewrite !string_length_app in H. simpl in H. lia.
  - rewrite !string_app_cons in H. injection H as -> H. f_equal. now apply IH.
Qed.

Lemma join_snoc l x : l <> [] -> join (l ++ [x]) = join l +:+ newline +:+ x.
Proof.
  induction l as [|a l IH]; [contradiction|intros _].
  destruct l as [|b l]; [reflexivity|].
  change ((a :: b :: l) ++ [x]) with (a :: (b :: l) ++ [x]).
  change ((b :: l) ++ [x]) with (b :: l ++ [x]).
  rewrite join_cons_cons. change (b :: l ++ [x]) with ((b :: l) ++ [x]).
  rewrite IH by discriminate. rewrite join_cons_cons.
  rewrite string_app_assoc. reflexivity.
Qed.

Lemma join_app_cons (l l' : list string) :
  exists pre post, forall y, join (l ++ y :: l') = pre +:+ y +:+ post.
Proof.
  induction l as [|a l (pre & post & IH)].
  - destruct l' as [|b l'].
    + exists "", "". intros y. simpl.
      change (join [y]) with y. rewrite string_app_nil.
      induction y as [|c y IHy]; [reflexivity|].
      rewrite string_app_cons. now rewrite <- IHy.
    + exists "", (String nl (join (b :: l'))). intros y. reflexivity.
  - exists (a +:+ String nl pre), post. intros y.
    change ((a :: l) ++ y :: l') with (a :: l ++ y :: l').
    destruct (l ++ y :: l') as [|b r] eqn:E; [now destruct l|].
    rewrite join_cons_cons, <- E, IH.
    rewrite string_app_assoc. reflexivity.
Qed.

(** X2: The launcher path and the process count reach the script only
    through a parallel execution line: with no command, or with process
    counts not above 1, the script is the same whatever they are; with
    a command and a process count above 1, two scripts are equal
    exactly when their launchers are. *)
Theorem launcher_matters_only_in_parallel
    engine_cmd np np' cd_path mpi_path mpi_path' remote
    scheduler_block module_load_block extra_block :
  let script np mpi_path :=
    assemable_job_cmd engine_cmd np cd_path mpi_path remote
      scheduler_block module_load_block extra_block in
  (truthy engine_cmd = false \/ (np <= 1 /\ np' <= 1) ->
   script np mpi_path = script np' mpi_path')
  /\ (truthy engine_cmd = true -> np > 1 ->
      (script np mpi_path = script np mpi_path'
       <-> launcher mpi_path = launcher mpi_path')).
Proof.
  cbv zeta. unfold assemable_job_cmd. rewrite !job_script_lines_blocks.
  split.
  - intros H.
    assert (append_execution engine_cmd np mpi_path []
            = append_execution engine_cmd np' mpi_path' []) as ->;
      [|reflexivity].
    unfold append_execution. destruct engine_cmd as [cmd|]; [|reflexivity].
    destruct (truthy (Some cmd)) eqn:Hcmd; [|reflexivity].
    destruct H as [H|[H1 H2]]; [discriminate|].
    unfold execution_line.
    rewrite !bool_decide_eq_false_2 by lia. reflexivity.
  - intros Hcmd Hnp. unfold append_execution.
    destruct engine_cmd as [cmd|]; [|discriminate]. rewrite Hcmd.
    unfold execution_line. rewrite !bool_decide_eq_true_2 by exact Hnp.
    set (R := if remote then _ else []). set (C := cd_lines cd_path).
    set (T := append_if_set extra_block [] ++ _).
    assert (forall L : string,
              [job_script_first_line] ++ R ++ C ++ ([] ++ [L]) ++ T
              = ([job_script_first_line] ++ R ++ C) ++ L :: T) as Hshape.
    { intros L. cbn [app]. now rewrite <- !app_assoc. }
    rewrite !Hshape.
    destruct (join_app_cons ([job_script_first_line] ++ R ++ C) T)
      as (pre & post & Hjoin).
    rewrite !Hjoin. split.
    + intros H. apply (inj (String.app pre)) in H.
      rewrite <- !string_app_assoc in H. apply string_app_inv_tail in H.
      rewrite !string_app_assoc in H. now apply string_app_inv_tail in H.
    + intros ->. reflexivity.
Qed.

Lemma launcher_matters_only_in_parallel_witness :
  assemable_job_cmd (Some "nwchem gs.nwi") 1 None (Some "/opt/mpirun")
    false None None None
  = assemable_job_cmd (Some "nwchem gs.nwi") 0 None None
      false None None None
  /\ (assemable_job_cmd (Some "nwchem gs.nwi") 2 None None
        false None None None
      = assemable_job_cmd (Some "nwchem gs.nwi") 2 None (Some "")
          false None None None).
Proof.
  split.
  - apply (launcher_matters_only_in_parallel (Some "nwchem gs.nwi") 1 0).
    right. lia.
  - apply (launcher_matters_only_in_parallel (Some "nwchem gs.nwi") 2 2);
      [reflexivity|lia|reflexivity].
Defined.

(** X3: A remote script is the local one with the scheduler and module
    blocks put after the directive and the sentinel appended; with
    neither block set it is the local script followed by a line
    [touch Done]. *)
Theorem remote_script_extends_local
    engine_cmd np cd_path mpi_path
    scheduler_block module_load_block extra_block :
  job_script_lines engine_cmd np cd_path mpi_path true
    scheduler_block module_load_block extra_block
  = [job_script_first_line]
    ++ append_if_set scheduler_block []
    ++ append_if_set module_load_block []
    ++ tail (job_script_lines engine_cmd np cd_path mpi_path false
               scheduler_block module_load_block extra_block)
    ++ [remote_job_script_last_line]
  /\ (truthy scheduler_block = false -> truthy module_load_block = false ->
      assemable_job_cmd engine_cmd np cd_path mpi_path true
        scheduler_block module_load_block extra_block
      = assemable_job_cmd engine_cmd np cd_path mpi_path false
          scheduler_block module_load_block extra_block
        +:+ newline +:+ remote_job_script_last_line).
Proof.
  assert (job_script_lines engine_cmd np cd_path mpi_path true
            scheduler_block module_load_block extra_block
          = [job_script_first_line]
            ++ append_if_set scheduler_block []
            ++ append_if_set module_load_block []
            ++ tail (job_script_lines engine_cmd np cd_path mpi_path false
                       scheduler_block module_load_block extra_block)
            ++ [remote_job_script_last_line]) as Hlines.
  { rewrite !job_script_lines_blocks. cbn [app tail].
    rewrite app_nil_r, <- !app_assoc. reflexivity. }
  split; [exact Hlines|]. intros Hsb Hmb.
  unfold assemable_job_cmd. rewrite Hlines.
  assert (append_if_set scheduler_block [] = []) as ->.
  { unfold append_if_set. destruct scheduler_block; [|reflexivity].
    now rewrite Hsb. }
  assert (append_if_set module_load_block [] = []) as ->.
  { unfold append_if_set. destruct module_load_block; [|reflexivity].
    now rewrite Hmb. }
  cbn [app].
  assert (job_script_lines engine_cmd np cd_path mpi_path false
            scheduler_block module_load_block extra_block
          = job_script_first_line
            :: tail (job_script_lines engine_cmd np cd_path mpi_path false
                       scheduler_block module_load_block extra_block)) as Hl.
  { rewrite job_script_lines_blocks. reflexivity. }
  rewrite Hl at 2.
  change (job_script_first_line :: ?t ++ [remote_job_script_last_line])
    with ((job_script_first_line :: t) ++ [remote_job_script_last_line]).
  now rewrite join_snoc by discriminate.
Qed.

Lemma remote_script_extends_local_witness :
  assemable_job_cmd (Some "nwchem gs.nwi > gs.nwo") 1 (Some "/r/GS")
    None true None (Some "") None
  = assemable_job_cmd (Some "nwchem gs.nwi > gs.nwo") 1 (Some "/r/GS")
      None false None (Some "") None
    +:+ newline +:+ "touch Done".
Proof.
  apply (proj2 (remote_script_extends_local (Some "nwchem gs.nwi > gs.nwo")
                  1 (Some "/r/GS") None None (Some "") None)); reflexivity.
Defined.

(** ** Building and reconfiguring a task *)

(** X4: [Task.__init__] needs the three configuration sections and nothing
    else of the configuration: with them it returns, leaves the world as
    it was, and picks the engine path and the launcher by fallback (the
    engine's own entry, else the engine name; the engine's [_mpi] entry,
    else the [mpirun] entry, else the literal [mpirun]); without one of
    them it raises [KeyError] for the first missing section. *)
Theorem task_init_reads_three_sections cfg l deps w info :
  w_infos w !! l = Some info ->
  match cfg !! "engine", cfg !! "mpi", cfg !! "programs" with
  | Some engine, Some mpi, Some programs =>
      exists self,
        Task__init__ cfg l deps w = (inr self, w)
        /\ engine_path self
           = match engine !! TaskInfo.engine info with
             | Some p => p
             | None => TaskInfo.engine info
             end
        /\ mpi_path self
           = match mpi !! (TaskInfo.engine info +:+ "_mpi"), mpi !! "mpirun" with
             | Some p, _ => p
             | None, Some p => p
             | None, None => "mpirun"
             end
        /\ python_path self = default "python" (programs !! "python")
        /\ engine_name self = TaskInfo.engine info
        /\ task_name self = TaskInfo.name info
        /\ project_dir self = TaskInfo.path info
  | None, _, _ => Task__init__ cfg l deps w = (inl (KeyError "engine"), w)
  | Some _, None, _ => Task__init__ cfg l deps w = (inl (KeyError "mpi"), w)
  | Some _, Some _, None =>
      Task__init__ cfg l deps w = (inl (KeyError "programs"), w)
  end.
Proof.
  intros Hinfo. unfold Task__init__.
  rewrite (get_info_bind _ _ _ _ Hinfo). unfold cfg_section.
  destruct (cfg !! "engine") as [engine|]; [|reflexivity].
  destruct (cfg !! "mpi") as [mpi|]; [|reflexivity].
  destruct (cfg !! "programs") as [programs|]; [|reflexivity].
  eexists. split; [reflexivity|]. cbn.
  split; [now destruct (engine !! TaskInfo.engine info)|].
  split; [|auto].
  destruct (mpi !! (TaskInfo.engine info +:+ "_mpi")); [reflexivity|].
  now destruct (mpi !! "mpirun").
Qed.

Lemma task_init_reads_three_sections_witness :
  (Task__init__ (delete "mpi" Sample.cfg) 1%positive None Sample.world0).1
  = inl (KeyError "mpi").
Proof.
  pose proof (task_init_reads_three_sections (delete "mpi" Sample.cfg)
                1%positive None Sample.world0 (Sample.gs_info 1%positive 2%positive)
                ltac:(vm_compute; reflexivity)) as H.
  assert (delete "mpi" Sample.cfg !! "engine"
          = Some {[ "nwchem" := "/opt/nwchem/bin/nwchem" ]}) as He
    by (vm_compute; reflexivity).
  assert (delete "mpi" Sample.cfg !! "mpi" = None) as Hm
    by (vm_compute; reflexivity).
  rewrite He, Hm in H. now rewrite H.
Defined.

(** What a built [Task] holds of the configuration it was built with. *)
Lemma Task__init___paths cfg l deps w self w' :
  Task__init__ cfg l deps w = (inr self, w') ->
  exists info engine mpi,
    w_infos w !! l = Some info /\ engine_name self = TaskInfo.engine info
    /\ cfg !! "engine" = Some engine /\ cfg !! "mpi" = Some mpi
    /\ engine_path self = default (engine_name self) (engine !! engine_name self)
    /\ mpi_path self
       = default (default "mpirun" (mpi !! "mpirun"))
           (mpi !! (engine_name self +:+ "_mpi")).
Proof.
  intros H. unfold Task__init__ in H.
  destruct (w_infos w !! l) as [info|] eqn:E.
  2:{ rewrite bind_run in H. unfold get_info in H. rewrite E in H.
      discriminate. }
  rewrite (get_info_bind _ _ _ _ E) in H. unfold cfg_section in H.
  destruct (cfg !! "engine") as [engine|]; [|discriminate].
  destruct (cfg !! "mpi") as [mpi|]; [|discriminate].
  destruct (cfg !! "programs") as [programs|]; [|discriminate].
  exists info, engine, mpi. cbn in H. injection H as <- <-. cbn. auto 10.
Qed.

(** X5: [reset_lsconfig] recomputes the engine path and the launcher as a
    new [Task.__init__] with that configuration would, and nothing else:
    the Python path and the stored configuration stay those of the
    construction.  With the configuration the task was built with it
    changes nothing. *)
Theorem reset_lsconfig_follows_init cfg cfg' l deps w self self' :
  Task__init__ cfg l deps w = (inr self, w) ->
  Task__init__ cfg' l deps w = (inr self', w) ->
  reset_lsconfig self cfg'
  = (set_mpi_path (mpi_path self') (set_engine_path (engine_path self') self),
     inr tt)
  /\ reset_lsconfig self cfg = (self, inr tt).
Proof.
  intros H1 H2.
  destruct (Task__init___paths _ _ _ _ _ _ H1)
    as (info & engine & mpi & Hi & Hn1 & He & Hm & Hep & Hmp).
  destruct (Task__init___paths _ _ _ _ _ _ H2)
    as (info' & engine' & mpi' & Hi' & Hn2 & He' & Hm' & Hep' & Hmp').
  assert (engine_name self' = engine_name self) as Hn by congruence.
  unfold reset_lsconfig, cfg_section. rewrite He, Hm, He', Hm'.
  unfold ok. cbv iota beta. cbn [engine_name set_engine_path].
  rewrite Hn in Hep', Hmp'. rewrite <- Hep, <- Hmp, <- Hep', <- Hmp'.
  split; [reflexivity|]. now destruct self.
Qed.

Lemma reset_lsconfig_follows_init_witness :
  let built := Task__init__ Sample.cfg 1%positive None Sample.world0 in
  match built.1 with
  | inr self =>
      reset_lsconfig self Sample.cfg = (self, inr tt)
      /\ engine_path (reset_lsconfig self
                        {[ "engine" := ∅; "mpi" := ∅; "programs" := ∅ ]}).1
         = "nwchem"
  | inl _ => False
  end.
Proof.
  cbv zeta.
  destruct (Task__init__ Sample.cfg 1%positive None Sample.world0)
    as [r w] eqn:H1.
  assert (w = Sample.world0 /\ exists self, r = inr self) as (-> & self & ->).
  { vm_compute in H1. injection H1 as <- <-. split; [reflexivity|eauto]. }
  cbn [fst].
  destruct (Task__init__ {[ "engine" := ∅; "mpi" := ∅; "programs" := ∅ ]}
              1%positive None Sample.world0) as [r' w'] eqn:H2.
  assert (w' = Sample.world0 /\ exists self', r' = inr self'
          /\ engine_path self' = "nwchem") as (-> & self' & -> & He).
  { vm_compute in H2. injection H2 as <- <-. split; [reflexivity|eauto]. }
  destruct (reset_lsconfig_follows_init _ _ _ _ _ _ _ H1 H2) as [Hnew Hsame].
  split; [exact Hsame|]. rewrite Hnew. exact He.
Defined.

(** ** Directories *)



(** What [create_directory] does, by the state of the path. *)
Lemma create_directory_run (d : path) (w : world) :
  create_directory d w
  = if decide (d ∈ w_fs w) then (inr tt, w)
    else if decide (d ∈ w_files w)
    then (inl (FileExistsError (path_str d)), w)
    else if existsb (fun a => bool_decide (a ∈ w_files w)) (ancestors d)
    then (inl (NotADirectoryError (path_str d)), w)
    else (inr tt,
          {| w_fs := w_fs w ∪ list_to_set (ancestors d);
             w_files := w_files w; w_dicts := w_dicts w;
             w_infos := w_infos w |}).
Proof.
  cbv [create_directory makedirs mbind M_bind mret M_ret raise get_fs
       get_files set_fs].
  destruct (decide (d ∈ w_fs w)); [reflexivity|].
  destruct (decide (d ∈ w_files w)); [reflexivity|].
  now destruct (existsb _ _).
Qed.

Section Directories.

Context {env : Env}.



End Directories.

(** ** The rendered input of a task record *)

Lemma dict_lookup_set_eq k v (d : dict) : dict_lookup k (dict_set k v d) = Some v.
Proof.
  induction d as [|[k' v'] d IH]; simpl.
  - now rewrite decide_True.
  - destruct (decide (k' = k)) as [->|Hne]; simpl.
    + now rewrite decide_True.
    + now rewrite decide_False.
Qed.

Lemma dict_lookup_set_ne k k' v (d : dict) :
  k <> k' -> dict_lookup k' (dict_set k v d) = dict_lookup k' d.
Proof.
  intros Hne. induction d as [|[k0 v0] d IH]; simpl.
  - now rewrite decide_False.
  - destruct (decide (k0 = k)) as [->|Hne0]; simpl.
    + now rewrite !decide_False by exact Hne.
    + destruct (decide (k0 = k')); [reflexivity|exact IH].
Qed.

(** X7: [set_engine_input] then [get_engine_input] gives the text back, and
    the other entries of the task's engine input (its path) are as
    before.  It needs the task record to hold an [engine_input]
    dictionary, which the constructor of the task puts there. *)
Theorem engine_input_round_trip (self : Task) (txt : pyval) w info ei :
  w_infos w !! task_info self = Some info ->
  dict_lookup "engine_input" (TaskInfo.input info) = Some (PyDict ei) ->
  exists w' info',
    Task_set_engine_input self txt w = (inr tt, w')
    /\ get_engine_input self w' = (inr txt, w')
    /\ w_infos w' !! task_info self = Some info'
    /\ (forall k, k <> "engine_input" ->
          dict_lookup k (TaskInfo.input info')
          = dict_lookup k (TaskInfo.input info))
    /\ exists ei',
         dict_lookup "engine_input" (TaskInfo.input info') = Some (PyDict ei')
         /\ forall k, k <> "data" -> dict_lookup k ei' = dict_lookup k ei.
Proof.
  intros Hinfo Hei.
  unfold Task_set_engine_input, set_engine_input, get_engine_input.
  rewrite (get_info_bind _ _ _ _ Hinfo).
  unfold py_getitem at 1. rewrite Hei. rewrite bind_run. cbn.
  eexists _, _. split; [reflexivity|].
  split.
  - erewrite get_info_bind by (cbn; apply lookup_insert_eq).
    unfold py_getitem at 1. cbn [TaskInfo.input TaskInfo.set_input].
    rewrite dict_lookup_set_eq. rewrite bind_run. cbn [lift ok].
    unfold lift, py_getitem. rewrite dict_lookup_set_eq.
    reflexivity.
  - split; [cbn; apply lookup_insert_eq|]. cbn. split.
    + intros k Hk. now apply dict_lookup_set_ne.
    + eexists. split; [apply dict_lookup_set_eq|].
      intros k Hk. now apply dict_lookup_set_ne.
Qed.

Section EngineInputSample.

#[local] Existing Instance Sample.env.

(** Before any template a built task has no input text: the getter
    raises [KeyError]; after the setter it returns the text. *)
Lemma engine_input_round_trip_witness :
  match BaseNwchemTask__init__ Sample.cfg 1%positive None Sample.world0 with
  | (inr t, w) =>
      (get_engine_input (task t) w).1 = inl (KeyError "data")
      /\ match Task_set_engine_input (task t) (PyStr "start gs") w with
         | (r, w') =>
             r = inr tt
             /\ get_engine_input (task t) w' = (inr (PyStr "start gs"), w')
         end
  | _ => False
  end.
Proof.
  evaluate (BaseNwchemTask__init__ Sample.cfg 1%positive None Sample.world0).
  split; [vm_compute; reflexivity|].
  match goal with |- match Task_set_engine_input ?s ?x ?w with _ => _ end =>
    edestruct (engine_input_round_trip s x w) as (w' & info' & Hset & Hget & _);
      [vm_compute; reflexivity|vm_compute; reflexivity|]
  end.
  rewrite Hset. split; [reflexivity|exact Hget].
Defined.

End EngineInputSample.

(** ** Comparing directory listings *)

Section CompareList.

Context {A : Type} `{EqDecision A}.

Lemma Counter_cons (x y : A) l :
  Counter (y :: l) x = ((if decide (y = x) then 1 else 0) + Counter l x)%nat.
Proof.
  unfold Counter. rewrite filter_cons. now destruct (decide (y = x)).
Qed.

Lemma Counter_Permutation (l1 l2 : list A) x :
  l1 ≡ₚ l2 -> Counter l1 x = Counter l2 x.
Proof. intros H. unfold Counter. now rewrite H. Qed.

Lemma Counter_not_elem (l : list A) x : x ∉ l -> Counter l x = 0%nat.
Proof.
  induction l as [|y l IH]; [reflexivity|].
  intros H. apply not_elem_of_cons in H as [Hne Hl].
  rewrite Counter_cons, decide_False by congruence. now apply IH.
Qed.

Lemma Counter_elem (l : list A) x : x ∈ l -> (0 < Counter l x)%nat.
Proof.
  induction l as [|y l IH]; [intros H; inversion H|].
  rewrite Counter_cons. destruct (decide (y = x)); [lia|].
  intros H. apply elem_of_cons in H as [->|H]; [contradiction|].
  apply IH in H. lia.
Qed.

Lemma Counter_eq_Permutation (l1 l2 : list A) :
  (forall x, Counter l1 x = Counter l2 x) -> l1 ≡ₚ l2.
Proof.
  revert l2. induction l1 as [|a l1 IH]; intros l2 H.
  - destruct l2 as [|b l2]; [reflexivity|].
    specialize (H b). rewrite Counter_cons, decide_True in H by reflexivity.
    discriminate.
  - assert (a ∈ l2) as Ha.
    { destruct (decide (a ∈ l2)) as [|Hout]; [assumption|].
      specialize (H a). rewrite (Counter_not_elem l2 a Hout) in H.
      rewrite Counter_cons, decide_True in H by reflexivity. discriminate. }
    apply elem_of_Permutation in Ha as [k Hk].
    rewrite Hk. constructor. apply IH. intros x.
    specialize (H x). rewrite (Counter_Permutation _ _ x Hk) in H.
    rewrite !Counter_cons in H. lia.
Qed.

(** X8: [compare_list] holds exactly for two listings that are
    rearrangements of each other: the order is ignored and repetitions
    count. *)
Theorem compare_list_iff_permutation (list1 list2 : list A) :
  compare_list list1 list2 = true <-> list1 ≡ₚ list2.
Proof.
  unfold compare_list. rewrite forallb_forall. split.
  - intros H. apply Counter_eq_Permutation. intros x.
    destruct (decide (x ∈ list1 ++ list2)) as [Hin|Hout].
    + apply list_elem_of_In, H in Hin. now apply bool_decide_eq_true in Hin.
    + apply not_elem_of_app in Hout as [H1 H2].
      now rewrite !Counter_not_elem.
  - intros H x _. apply bool_decide_eq_true. now apply Counter_Permutation.
Qed.

End CompareList.

(** ** Ground-state parameters *)

Section GroundStateKeys.

Context {env : Env}.

(** X9: [format_gs_param] reads six keys of the parameters and nothing
    else: two dictionaries that agree on them are accepted or rejected
    alike, with the same result or the same error. *)
Theorem format_gs_param_reads_six_keys (d d' : dict) :
  (forall k, k ∈ gs_keys -> dict_lookup k d = dict_lookup k d') ->
  format_gs_param d = format_gs_param d'.
Proof.
  intros H. unfold format_gs_param, dict_get, dict_get_default.
  rewrite !(H "basis_type"), !(H "xc"), !(H "basis"), !(H "energy_conv"),
    !(H "density_conv"), !(H "max_iter")
    by (unfold gs_keys; set_solver).
  reflexivity.
Qed.

End GroundStateKeys.

Section GroundStateKeysSample.

#[local] Existing Instance Sample.env.

Lemma format_gs_param_reads_six_keys_witness :
  format_gs_param Sample.gs_param
  = format_gs_param (("spin", PyStr "unpolarized") :: Sample.gs_param).
Proof.
  apply format_gs_param_reads_six_keys.
  intros k Hk. cbn [dict_lookup].
  destruct (decide ("spin" = k)) as [<-|]; [|reflexivity].
  exfalso. revert Hk. unfold gs_keys. rewrite !elem_of_cons, elem_of_nil.
  intros [|[|[|[|[|[|[]]]]]]]; discriminate.
Defined.

End GroundStateKeysSample.

(** ** Laser entries *)

Lemma read_pol_dir_1_direction pol d :
  read_pol_dir_1 pol = inr d -> d ∈ directions.
Proof.
  unfold read_pol_dir_1, read_pol_dir, directions.
  destruct (py_eq_int3 pol 1 0 0); [intros [= <-]; set_solver|].
  destruct (py_eq_int3 pol 0 1 0); [intros [= <-]; set_solver|].
  destruct (py_eq_int3 pol 0 0 1); [intros [= <-]; set_solver|].
  discriminate.
Qed.

Lemma result_bind_inv {A B} (r : result A) (f : A -> result B) y :
  r ≫= f = inr y -> exists x, r = inr x /\ f x = inr y.
Proof. destruct r as [e|x]; [discriminate|]. eauto. Qed.

Ltac rstep H E := rewrite E in H; cbv [mbind result_bind] in H.

(** X10: A laser entry built by [add_gaussian_laser] or [add_delta_laser] is
    named by the given name, an underscore and the direction letter of
    the laser's polarization; the entry's own polarization is that
    letter, not the vector; its type is the function's; its strength is
    the laser's. *)
Theorem laser_entry_named_by_direction (name : string) (laser entry : pyval) :
  add_gaussian_laser name laser = inr entry
  \/ add_delta_laser name laser = inr entry ->
  exists dir pol type,
    py_getitem laser "polarization" = inr pol
    /\ read_pol_dir_1 pol = inr dir
    /\ dir ∈ directions
    /\ py_getitem entry "name" = inr (PyStr (name +:+ "_" +:+ dir))
    /\ py_getitem entry "polarization" = inr (PyStr dir)
    /\ py_getitem entry "type" = inr (PyStr type)
    /\ (add_gaussian_laser name laser = inr entry -> type = "gaussian")
    /\ (add_delta_laser name laser = inr entry -> type = "delta")
    /\ py_getitem entry "max" = py_getitem laser "strength".
Proof.
  intros [H|H].
  - pose proof H as H0. unfold add_gaussian_laser in H.
    apply result_bind_inv in H as (pol & Hpol & H).
    apply result_bind_inv in H as (dir & Hdir & H).
    apply result_bind_inv in H as (frequency & _ & H).
    apply result_bind_inv in H as (center & _ & H).
    apply result_bind_inv in H as (width & _ & H).
    apply result_bind_inv in H as (pol' & Hpol' & H).
    apply result_bind_inv in H as (dir' & Hdir' & H).
    apply result_bind_inv in H as (strength & Hs & H).
    injection H as <-.
    assert (pol' = pol) as -> by congruence.
    assert (dir' = dir) as -> by congruence.
    exists dir, pol, "gaussian". rewrite Hs.
    pose proof (read_pol_dir_1_direction _ _ Hdir).
    do 7 (split; [solve [auto]|]). split; [|reflexivity].
    intros Hd. unfold add_delta_laser in Hd.
    repeat (first [rstep Hd Hpol|rstep Hd Hdir|rstep Hd Hs]). discriminate.
  - pose proof H as H0. unfold add_delta_laser in H.
    apply result_bind_inv in H as (pol & Hpol & H).
    apply result_bind_inv in H as (dir & Hdir & H).
    apply result_bind_inv in H as (pol' & Hpol' & H).
    apply result_bind_inv in H as (dir' & Hdir' & H).
    apply result_bind_inv in H as (strength & Hs & H).
    injection H as <-.
    assert (pol' = pol) as -> by congruence.
    assert (dir' = dir) as -> by congruence.
    exists dir, pol, "delta". rewrite Hs.
    pose proof (read_pol_dir_1_direction _ _ Hdir).
    do 6 (split; [solve [auto]|]). split; [|split; [auto|reflexivity]].
    intros Hg. exfalso. unfold add_gaussian_laser in Hg.
    rstep Hg Hpol. rstep Hg Hdir.
    destruct (py_getitem laser "frequency"); [discriminate|].
    destruct (py_getitem laser "time0"); [discriminate|].
    destruct (py_getitem laser "sigma"); [discriminate|].
    cbv [mbind result_bind] in Hg.
    repeat (first [rstep Hg Hpol|rstep Hg Hdir|rstep Hg Hs]). discriminate.
Qed.

Lemma laser_entry_named_by_direction_witness :
  let laser :=
    PyDict [ ("type", PyStr "delta");
             ("polarization", PyList [PyInt 0; PyInt 1; PyInt 0]);
             ("strength", PyInt 3) ] in
  let entry :=
    PyDict [ ("name", PyStr "0_y"); ("type", PyStr "delta");
             ("polarization", PyStr "y"); ("max", PyInt 3) ] in
  add_delta_laser "0" laser = inr entry
  /\ exists dir, dir ∈ directions
       /\ py_getitem entry "name" = inr (PyStr ("0" +:+ "_" +:+ dir)).
Proof.
  cbv zeta.
  match goal with |- ?f ?n ?l = inr ?e /\ _ =>
    assert (f n l = inr e) as H by reflexivity;
    destruct (laser_entry_named_by_direction n l e (or_intror H))
      as (dir & pol & type & _ & _ & Hin & Hname & _)
  end.
  split; [exact H|]. exists dir. split; [exact Hin|exact Hname].
Defined.

(** ** Time-propagation parameters *)

Lemma dict_remove_absent k (d : dict) :
  dict_lookup k d = None -> dict_remove k d = d.
Proof.
  induction d as [|[k' v] d IH]; [reflexivity|]. simpl.
  destruct (decide (k' = k)); [discriminate|]. intros H. now rewrite IH.
Qed.

Lemma dict_lookup_remove_ne k k' (d : dict) :
  k <> k' -> dict_lookup k' (dict_remove k d) = dict_lookup k' d.
Proof.
  intros Hne. induction d as [|[k0 v0] d IH]; [reflexivity|]. simpl.
  destruct (decide (k0 = k)) as [->|Hne0]; simpl.
  - now rewrite decide_False by exact Hne.
  - destruct (decide (k0 = k')); [reflexivity|exact IH].
Qed.

Lemma set_dict_same l d w : w_dicts w !! l = Some d -> set_dict l d w = w.
Proof.
  intros H. destruct w as [fs ds infos]. unfold set_dict. cbn in *.
  now rewrite insert_id.
Qed.

Lemma set_dict_lookup l d w : w_dicts (set_dict l d w) !! l = Some d.
Proof. apply lookup_insert_eq. Qed.

Lemma set_dict_again l d d' w :
  set_dict l d (set_dict l d' w) = set_dict l d w.
Proof. unfold set_dict. cbn. now rewrite insert_insert_eq. Qed.

Lemma pop_default_run l k dflt w d :
  w_dicts w !! l = Some d ->
  pop_default l k dflt w
  = (inr (default dflt (dict_lookup k d)), set_dict l (dict_remove k d) w).
Proof.
  intros H. unfold pop_default. rewrite (read_dict_bind _ _ _ _ H).
  destruct (dict_lookup k d) as [v|] eqn:E; [reflexivity|].
  rewrite (dict_remove_absent _ _ E), (set_dict_same _ _ _ H). reflexivity.
Qed.

Lemma pop_run l k w d :
  w_dicts w !! l = Some d ->
  pop l k w
  = match dict_lookup k d with
    | Some v => (inr v, set_dict l (dict_remove k d) w)
    | None => (inl (KeyError k), w)
    end.
Proof.
  intros H. unfold pop. rewrite (read_dict_bind _ _ _ _ H).
  now destruct (dict_lookup k d).
Qed.

Section TimePropagation.

Context {env : Env}.

(** X11: When a required key is missing, [update_td_param] raises [KeyError]
    for the first one missing, and by then has removed from the
    dictionary the two optional keys it reads first and the required
    keys before the missing one: the dictionary is left half consumed. *)
Theorem update_td_param_missing_required_key (param : loc) w d n k :
  w_dicts w !! param = Some d ->
  td_required !! n = Some k ->
  (forall k', k' ∈ take n td_required -> is_Some (dict_lookup k' d)) ->
  dict_lookup k d = None ->
  update_td_param param w
  = (inl (KeyError k),
     set_dict param
       (foldl (fun d k => dict_remove k d) d
          (["strength"; "polarization"] ++ take n td_required)) w).
Proof.
  intros Hd Hn Hbefore Hk. unfold update_td_param.
  rewrite bind_run, (pop_default_run _ _ _ _ _ Hd).
  rewrite bind_run, (pop_default_run _ _ _ _ _ (set_dict_lookup _ _ _)).
  rewrite set_dict_again.
  set (d2 := dict_remove "polarization" (dict_remove "strength" d)).
  assert (forall k', k' ∈ td_required ->
            dict_lookup k' d2 = dict_lookup k' d) as H2.
  { intros k' Hk'. unfold d2.
    rewrite !dict_lookup_remove_ne; [reflexivity| |];
      intros <-; revert Hk'; unfold td_required;
      rewrite !elem_of_cons, elem_of_nil; intros [|[|[|[|[]]]]]; discriminate. }
  assert (forall j k', td_required !! j = Some k' ->
            k' ∈ td_required) as Hin
    by (intros j k' Hj; eapply list_elem_of_lookup_2, Hj).
  assert (forall j k', (j < n)%nat -> td_required !! j = Some k' ->
            is_Some (dict_lookup k' d)) as Hsome.
  { intros j k' Hj Hjk. apply Hbefore.
    apply list_elem_of_lookup. exists j. rewrite lookup_take_lt; auto. }
  destruct n as [|n].
  { cbn in Hn. injection Hn as <-.
    rewrite bind_run, (pop_run _ _ _ _ (set_dict_lookup _ _ _)).
    rewrite (H2 "time_step"), Hk by (unfold td_required; set_solver).
    reflexivity. }
  destruct (Hsome 0%nat "time_step" ltac:(lia) eq_refl) as [v0 Hv0].
  rewrite bind_run, (pop_run _ _ _ _ (set_dict_lookup _ _ _)).
  rewrite (H2 "time_step"), Hv0 by (unfold td_required; set_solver).
  rewrite set_dict_again.
  destruct n as [|n].
  { cbn in Hn. injection Hn as <-.
    rewrite bind_run, (pop_run _ _ _ _ (set_dict_lookup _ _ _)).
    rewrite dict_lookup_remove_ne by discriminate.
    rewrite (H2 "number_of_steps"), Hk by (unfold td_required; set_solver).
    reflexivity. }
  destruct (Hsome 1%nat "number_of_steps" ltac:(lia) eq_refl) as [v1 Hv1].
  rewrite bind_run, (pop_run _ _ _ _ (set_dict_lookup _ _ _)).
  rewrite dict_lookup_remove_ne by discriminate.
  rewrite (H2 "number_of_steps"), Hv1 by (unfold td_required; set_solver).
  rewrite set_dict_again.
  destruct n as [|n].
  { cbn in Hn. injection Hn as <-.
    rewrite bind_run, (pop_run _ _ _ _ (set_dict_lookup _ _ _)).
    rewrite !dict_lookup_remove_ne by discriminate.
    rewrite (H2 "output_freq"), Hk by (unfold td_required; set_solver).
    reflexivity. }
  destruct (Hsome 2%nat "output_freq" ltac:(lia) eq_refl) as [v2 Hv2].
  rewrite bind_run, (pop_run _ _ _ _ (set_dict_lookup _ _ _)).
  rewrite !dict_lookup_remove_ne by discriminate.
  rewrite (H2 "output_freq"), Hv2 by (unfold td_required; set_solver).
  rewrite set_dict_again.
  destruct n as [|n]; [|discriminate].
  cbn in Hn. injection Hn as <-.
  rewrite bind_run, (pop_run _ _ _ _ (set_dict_lookup _ _ _)).
  rewrite !dict_lookup_remove_ne by discriminate.
  rewrite (H2 "properties"), Hk by (unfold td_required; set_solver).
  reflexivity.
Qed.

End TimePropagation.

Section TimePropagationSample.

#[local] Existing Instance Sample.env.

(** Parameters with a time step and nothing else required: the error
    names the number of steps, and the time step is gone. *)
Lemma update_td_param_missing_required_key_witness :
  let d := [ ("strength", PyInt 1); ("time_step", PyInt 10);
             ("properties", PyList [PyStr "spectrum"]) ] in
  update_td_param 1%positive (set_dict 1%positive d Sample.world0)
  = (inl (KeyError "number_of_steps"),
     set_dict 1%positive [("properties", PyList [PyStr "spectrum"])]
       Sample.world0).
Proof.
  cbv zeta.
  rewrite (update_td_param_missing_required_key 1%positive _ _ 1%nat
             "number_of_steps" (set_dict_lookup _ _ _) eq_refl).
  - now rewrite set_dict_again.
  - intros k'. cbn. rewrite elem_of_cons, elem_of_nil. intros [->|[]].
    rewrite is_Some_alt. reflexivity.
  - reflexivity.
Defined.

End TimePropagationSample.

(** ** What [update_td_param] writes *)

Section Touches.

Variables (param : loc) (keys : list string) (w0 : world).

#[local] Abbreviation T := (touches_only param keys w0).

Lemma touches_refl : T w0.
Proof. repeat split; eauto. Qed.

Lemma touches_read_dict l : spec T (read_dict l) (fun _ => True).
Proof.
  intros w r w' HI. unfold read_dict.
  destruct (w_dicts w !! l); intros [= <- <-]; auto.
Qed.

Lemma touches_write (d d' : dict) w :
  T w -> w_dicts w !! param = Some d ->
  (forall k, k ∉ keys -> dict_lookup k d' = dict_lookup k d) ->
  T (set_dict param d' w).
Proof.
  intros (Hfs & Hfiles & Hinfos & Hother & Hparam) Hd Hagree.
  split; [exact Hfs|]. split; [exact Hfiles|]. split; [exact Hinfos|]. split.
  - intros l Hl. cbn. rewrite lookup_insert_ne by congruence. now apply Hother.
  - intros d0 Hd0. exists d'. split; [apply set_dict_lookup|].
    intros k Hk. rewrite (Hagree k Hk).
    destruct (Hparam d0 Hd0) as (d1 & Hd1 & H1).
    assert (d1 = d) as -> by congruence. now apply H1.
Qed.

Lemma touches_pop_default k dflt :
  k ∈ keys -> spec T (pop_default param k dflt) (fun _ => True).
Proof.
  intros Hk w r w' HI H.
  destruct (w_dicts w !! param) as [d|] eqn:E.
  - rewrite (pop_default_run _ _ _ _ _ E) in H. injection H as <- <-.
    split; [|exact I]. apply (touches_write d); auto.
    intros k' Hk'. apply dict_lookup_remove_ne. intros Eq. apply Hk'. now rewrite <- Eq.
  - unfold pop_default in H. rewrite bind_run in H. unfold read_dict in H.
    rewrite E in H. injection H as <- <-. auto.
Qed.

Lemma touches_pop k : k ∈ keys -> spec T (pop param k) (fun _ => True).
Proof.
  intros Hk w r w' HI H.
  destruct (w_dicts w !! param) as [d|] eqn:E.
  - rewrite (pop_run _ _ _ _ E) in H.
    destruct (dict_lookup k d); injection H as <- <-; [|auto].
    split; [|exact I]. apply (touches_write d); auto.
    intros k' Hk'. apply dict_lookup_remove_ne. intros Eq. apply Hk'. now rewrite <- Eq.
  - unfold pop in H. rewrite bind_run in H. unfold read_dict in H.
    rewrite E in H. injection H as <- <-. auto.
Qed.

Lemma touches_setitem k v :
  k ∈ keys -> spec T (setitem param k v) (fun _ => True).
Proof.
  intros Hk w r w' HI H. unfold setitem in H.
  destruct (w_dicts w !! param) as [d|] eqn:E.
  - rewrite (read_dict_bind _ _ _ _ E) in H. injection H as <- <-.
    split; [|exact I]. apply (touches_write d); auto.
    intros k' Hk'. apply dict_lookup_set_ne. intros Eq. apply Hk'. now rewrite <- Eq.
  - rewrite bind_run in H. unfold read_dict in H.
    rewrite E in H. injection H as <- <-. auto.
Qed.

Lemma touches_set_rt_field v :
  "rt_tddft" ∈ keys -> spec T (set_rt_field param v) (fun _ => True).
Proof.
  intros Hk w r w' HI H. unfold set_rt_field in H.
  destruct (w_dicts w !! param) as [d|] eqn:E.
  - rewrite (read_dict_bind _ _ _ _ E) in H.
    apply bind_inv in H as [(e & H & ->)|(rt & w1 & Hrt & H)].
    { injection H as _ <-. auto. }
    injection Hrt as ? <-.
    apply bind_inv in H as [(e & H & ->)|(rt' & w1 & Hrt' & H)].
    { injection H as _ <-. auto. }
    injection Hrt' as ? <-. injection H as <- <-.
    split; [|exact I]. apply (touches_write d); auto.
    intros k' Hk'. apply dict_lookup_set_ne. intros Eq. apply Hk'. now rewrite <- Eq.
  - rewrite bind_run in H. unfold read_dict in H.
    rewrite E in H. injection H as <- <-. auto.
Qed.

Lemma touches_any_bind {X Y} (m : M X) (f : X -> M Y) (Q : Y -> Prop) :
  spec T m (fun _ => True) -> (forall x, spec T (f x) Q) -> spec T (m ≫= f) Q.
Proof. intros Hm Hf. eapply spec_bind; [exact Hm|]. intros x _. apply Hf. Qed.

Ltac touches_walk :=
  repeat first
    [ apply spec_raise
    | apply spec_ret; exact I
    | apply spec_lift
    | apply touches_pop_default; assumption
    | apply touches_pop; assumption
    | apply touches_setitem; assumption
    | apply touches_set_rt_field; assumption
    | assumption
    | apply touches_any_bind; [|intros ?]
    | match goal with
      | |- spec _ (if ?b then _ else _) _ => destruct b
      | |- spec _ (match ?x with _ => _ end) _ => destruct x
      end ].

Lemma touches_laser_loop pol lasers i laser_dict laser_list :
  "rt_tddft" ∈ keys ->
  spec T (laser_loop param pol lasers i laser_dict laser_list)
    (fun _ => True).
Proof.
  intros Hk. revert i laser_dict laser_list.
  induction lasers as [|laser rest IH]; intros i laser_dict laser_list.
  - now apply spec_ret.
  - cbn [laser_loop].
    apply touches_any_bind; [apply spec_lift|intros has].
    apply touches_any_bind; [destruct has; touches_walk|intros laser'].
    apply touches_any_bind; [apply spec_lift|intros type].
    apply touches_any_bind; [touches_walk|intros [ld|]].
    + apply touches_any_bind; [now apply touches_set_rt_field|intros _].
      apply IH.
    + apply spec_raise.
Qed.

End Touches.

Section TouchesTimePropagation.

Context {env : Env}.

Lemma td_key k :
  k ∈ ["strength"; "polarization"; "time_step"; "number_of_steps";
       "output_freq"; "properties"; "laser"; "masking"; "delay"; "rt_tddft"] ->
  k ∈ td_keys.
Proof. intros H; exact H. Qed.

Lemma update_td_param_frame (param : loc) (w0 : world) :
  spec (touches_only param td_keys w0) (update_td_param param)
    (fun _ => True).
Proof.
  unfold update_td_param.
  repeat first
    [ apply spec_raise
    | apply spec_ret; exact I
    | apply spec_lift
    | apply touches_pop_default; apply td_key; set_solver
    | apply touches_pop; apply td_key; set_solver
    | apply touches_setitem; apply td_key; set_solver
    | apply touches_set_rt_field; apply td_key; set_solver
    | apply touches_laser_loop; apply td_key; set_solver
    | apply touches_any_bind; [|intros ?]
    | match goal with
      | |- spec _ (if ?b then _ else _) _ => destruct b
      end ].
Qed.


End TouchesTimePropagation.

(** ** The laser list *)

Lemma set_rt_field_run param v w r w' :
  set_rt_field param v w = (r, w') ->
  r = inr tt ->
  exists d rt,
    w_dicts w !! param = Some d
    /\ dict_lookup "rt_tddft" d = Some (PyDict rt)
    /\ w' = set_dict param
              (dict_set "rt_tddft" (PyDict (dict_set "field" v rt)) d) w.
Proof.
  intros H ->. unfold set_rt_field in H.
  destruct (w_dicts w !! param) as [d|] eqn:E.
  2:{ rewrite bind_run in H. unfold read_dict in H. rewrite E in H.
      discriminate. }
  rewrite (read_dict_bind _ _ _ _ E) in H.
  unfold py_getitem in H.
  destruct (dict_lookup "rt_tddft" d) as [rt|] eqn:Ert; [|discriminate].
  destruct rt; try discriminate.
  injection H as <-. eauto.
Qed.

Lemma field_after_set param v rt d w :
  exists d' rt',
    w_dicts (set_dict param
               (dict_set "rt_tddft" (PyDict (dict_set "field" v rt)) d) w)
      !! param = Some d'
    /\ dict_lookup "rt_tddft" d' = Some (PyDict rt')
    /\ dict_lookup "field" rt' = Some v.
Proof.
  eexists _, _. split; [apply set_dict_lookup|].
  split; apply dict_lookup_set_eq.
Qed.

(** X13: When the loop over the lasers returns, the field list of the
    dictionary holds one more entry for each laser, whatever the lasers'
    types. *)
Theorem laser_loop_one_entry_per_laser
    (param : loc) (pol : pyval) (lasers : list pyval) (i : nat)
    (laser_dict : option pyval) (laser_list : list pyval) (w w' : world) :
  lasers <> [] ->
  laser_loop param pol lasers i laser_dict laser_list w = (inr tt, w') ->
  exists d rt entries,
    w_dicts w' !! param = Some d
    /\ dict_lookup "rt_tddft" d = Some (PyDict rt)
    /\ dict_lookup "field" rt = Some (PyList (laser_list ++ entries))
    /\ length entries = length lasers.
Proof.
  revert i laser_dict laser_list w.
  induction lasers as [|laser rest IH]; intros i laser_dict laser_list w;
    [contradiction|intros _ H].
  cbn [laser_loop] in H.
  apply bind_inv in H as [(e & _ & [=])|(has & w1 & _ & H)].
  apply bind_inv in H as [(e & _ & [=])|(laser' & w2 & _ & H)].
  apply bind_inv in H as [(e & _ & [=])|(type & w3 & _ & H)].
  apply bind_inv in H as [(e & _ & [=])|(ld & w4 & _ & H)].
  destruct ld as [ld|]; [|discriminate].
  apply bind_inv in H as [(e & _ & [=])|([] & w5 & Hset & H)].
  destruct (set_rt_field_run _ _ _ _ _ Hset eq_refl) as (d & rt & _ & _ & ->).
  destruct rest as [|laser2 rest].
  - injection H as <-.
    destruct (field_after_set param (PyList (laser_list ++ [ld])) rt d w4)
      as (d' & rt' & Hd' & Hrt' & Hfield).
    exists d', rt', [ld]. auto.
  - apply IH in H as (d' & rt' & entries & Hd' & Hrt' & Hfield & Hlen);
      [|discriminate].
    exists d', rt', (ld :: entries).
    rewrite <- app_assoc in Hfield. cbn in *. auto.
Qed.

(** Two lasers, the second of an unknown type: two entries. *)
Lemma laser_loop_one_entry_per_laser_witness :
  let lasers :=
    [ PyDict [ ("type", PyStr "delta");
               ("polarization", PyList [PyInt 1; PyInt 0; PyInt 0]);
               ("strength", PyInt 2) ];
      PyDict [ ("type", PyStr "sine") ] ] in
  let w := set_dict 1%positive [("rt_tddft", PyDict [])] Sample.world0 in
  (laser_loop 1%positive PyNone lasers 0 None [] w).1 = inr tt
  /\ exists d rt entries,
       w_dicts (laser_loop 1%positive PyNone lasers 0 None [] w).2
         !! 1%positive = Some d
       /\ dict_lookup "rt_tddft" d = Some (PyDict rt)
       /\ dict_lookup "field" rt = Some (PyList entries)
       /\ length entries = 2%nat.
Proof.
  cbv zeta.
  match goal with |- (?run).1 = _ /\ _ =>
    assert (run.1 = inr tt) as Hrun by (vm_compute; reflexivity);
    destruct run as [r w'] eqn:E
  end.
  cbn [fst snd] in *. subst r. split; [reflexivity|].
  pose proof (fun H => laser_loop_one_entry_per_laser _ _ _ _ _ _ _ _ H E)
    as T.
  destruct T as (d & rt & entries & H); [discriminate|].
  exists d, rt, entries. exact H.
Defined.

(** X14: A laser whose type is neither [gaussian] nor [delta] does not stop
    the loop unless it is the first: it is entered in the field list as a
    copy of the entry of the laser before it.  As the first laser it
    raises [UnboundLocalError]. *)
Theorem unknown_laser_type_repeats_previous
    (param : loc) (pol laser type : pyval) (rest : list pyval) (i : nat)
    (laser_dict : option pyval) (laser_list : list pyval) (w : world) :
  py_getitem laser "type" = inr type ->
  py_eq_str type "gaussian" = false ->
  py_eq_str type "delta" = false ->
  laser_loop param pol (laser :: rest) i laser_dict laser_list w
  = match laser_dict with
    | None => (inl (UnboundLocalError "laser_dict"), w)
    | Some previous =>
        (set_rt_field param (PyList (laser_list ++ [previous]));;
         laser_loop param pol rest (S i) (Some previous)
           (laser_list ++ [previous])) w
    end.
Proof.
  intros Htype Hg Hd. cbn [laser_loop].
  destruct laser as [| | | | | |d]; try discriminate.
  unfold py_getitem in Htype.
  destruct (dict_lookup "type" d) as [ty|] eqn:Ety; [|discriminate].
  injection Htype as ->.
  assert (dict_lookup "type" (dict_set "polarization" pol d) = Some type)
    as Ety' by (rewrite dict_lookup_set_ne by discriminate; exact Ety).
  cbv [mbind M_bind mret M_ret lift raise py_contains_str py_setitem
       py_getitem ok throw].
  destruct (bool_decide (is_Some (dict_lookup "polarization" d)));
    rewrite ?Ety, ?Ety', Hg, Hd; now destruct laser_dict.
Qed.

Lemma unknown_laser_type_repeats_previous_witness :
  let laser := PyDict [("type", PyStr "sine"); ("strength", PyInt 1)] in
  laser_loop 1%positive PyNone [laser] 0 None [] Sample.world0
  = (inl (UnboundLocalError "laser_dict"), Sample.world0).
Proof.
  cbv zeta.
  now rewrite (unknown_laser_type_repeats_previous _ _ _ (PyStr "sine")).
Defined.

(** ** The job script of an NWChem task *)

Section BuiltTask.

Context {env : Env}.

(** The file names [create_engine] gives a task: none for a
    post-processing task, the [file_name] of the task's record with the
    two extensions otherwise. *)
Lemma create_engine_files self td param w t w' :
  create_engine self td param w = (inr t, w') ->
  task t = self /\ task_data t = td /\ user_input t = param
  /\ if bool_decide (task_name self ∈ post_processing_tasks)
     then infile t = None /\ outfile t = None
     else exists fn, py_get td "file_name" = inr (PyStr fn)
            /\ infile t = Some (fn +:+ ".nwi")
            /\ outfile t = Some (fn +:+ ".nwo").
Proof.
  unfold create_engine. intros H.
  apply bind_inv in H as [(? & _ & [=])|(fs & w1 & _ & H)].
  apply bind_inv in H as [(? & _ & [=])|(fn0 & w2 & _ & H)].
  apply bind_inv in H as [(? & _ & [=])|(info & w3 & _ & H)].
  apply bind_inv in H as [(? & _ & [=])|([] & w4 & _ & H)].
  destruct (bool_decide (task_name self ∈ post_processing_tasks)).
  - apply bind_inv in H as [(? & _ & [=])|(o1 & w5 & _ & H)].
    apply bind_inv in H as [(? & _ & [=])|(o2 & w6 & _ & H)].
    injection H as <- <-. cbn. auto.
  - apply bind_inv in H as [(? & _ & [=])|([] & w5 & _ & H)].
    apply bind_inv in H as [(? & _ & [=])|([] & w6 & _ & H)].
    apply bind_inv in H as [(? & _ & [=])|([] & w7 & _ & H)].
    apply bind_inv in H as [(? & _ & [=])|(fn & w8 & Hfn & H)].
    apply bind_inv in H as [(? & _ & [=])|(i & w9 & Hi & H)].
    apply bind_inv in H as [(? & _ & [=])|(o & w10 & Ho & H)].
    apply bind_inv in H as [(? & _ & [=])|(rel & w11 & _ & H)].
    apply bind_inv in H as [(? & _ & [=])|([] & w12 & _ & H)].
    apply bind_inv in H as [(? & _ & [=])|(rel' & w13 & _ & H)].
    apply bind_inv in H as [(? & _ & [=])|(info' & w14 & _ & H)].
    apply bind_inv in H as [(? & _ & [=])|([] & w15 & _ & H)].
    apply bind_inv in H as [(? & _ & [=])|(kwargs & w16 & _ & H)].
    destruct (existsb _ _); [discriminate|].
    injection H as <- <-. cbn.
    injection Hfn as Hfn _. injection Hi as Hi _. injection Ho as Ho _.
    destruct fn; try discriminate. injection Hi as <-. injection Ho as <-.
    eauto 10.
Qed.

Lemma Task__init___task_info cfg l deps w self w' :
  Task__init__ cfg l deps w = (inr self, w') ->
  task_info self = l /\ w' = w.
Proof.
  cbv [Task__init__ cfg_section mbind M_bind mret M_ret lift get_info ok throw].
  intros H. repeat case_match; simplify_eq/=; auto.
Qed.

Lemma BaseNwchemTask__init___files cfg l deps w t w' :
  BaseNwchemTask__init__ cfg l deps w = (inr t, w') ->
  task_info (task t) = l
  /\ task_data t = dict_get (task_name (task t)) nwchem_data
  /\ if bool_decide (task_name (task t) ∈ post_processing_tasks)
     then infile t = None /\ outfile t = None
     else exists fn, py_get (task_data t) "file_name" = inr (PyStr fn)
            /\ infile t = Some (fn +:+ ".nwi")
            /\ outfile t = Some (fn +:+ ".nwo").
Proof.
  unfold BaseNwchemTask__init__. intros H.
  apply bind_inv in H as [(? & _ & [=])|(self & w1 & Hself & H)].
  apply bind_inv in H as [(? & _ & [=])|(info & w2 & _ & H)].
  apply bind_inv in H as [(? & _ & [=])|(param & w3 & _ & H)].
  apply bind_inv in H as [(? & _ & [=])|(ui & w4 & _ & H)].
  apply create_engine_files in H as (-> & Htd & _ & Hfiles).
  apply Task__init___task_info in Hself as [Hl _].
  rewrite Htd. auto.
Qed.

(** The local and the remote script, by the state of the object. *)
Lemma create_job_script_self_local (self : BaseNwchemTask) (np : Z) :
  create_job_script_self self np None
  = if bool_decide (task_name (task self) ∈ simulation_tasks)
    then match outfile self, infile self with
         | Some o, Some i =>
             let script :=
               assemable_job_cmd
                 (Some (engine_path (task self) +:+ " " +:+ i +:+ " " +:+ ">"
                        +:+ " " +:+ o))
                 np (Some (path_str (task_dir self)))
                 (Some (mpi_path (task self))) false None None None in
             (set_task (set_job_script script (task self)) self, inr script)
         | Some _, None => (self, inl (AttributeError "infile"))
         | None, _ => (self, inl (AttributeError "outfile"))
         end
    else (self, inl (UnboundLocalError "job_script")).
Proof.
  unfold create_job_script_self. cbn [truthy].
  destruct (bool_decide _); [|reflexivity].
  destruct (outfile self) as [o|]; [|reflexivity].
  now destruct (infile self) as [i|].
Qed.

Lemma create_job_script_self_remote (self : BaseNwchemTask) (np : Z)
    (rp : string) :
  truthy (Some rp) = true ->
  let entered := set_task (set_engine_path "nwchem" (task self)) self in
  create_job_script_self self np (Some rp)
  = if bool_decide (task_name (task self) ∈ simulation_tasks)
    then match outfile self, infile self with
         | Some o, Some i =>
             match relative_to (task_dir self)
                     (parent (parent (project_dir (task self)))) with
             | inr rel =>
                 let script :=
                   assemable_job_cmd
                     (Some ("nwchem" +:+ " " +:+ i +:+ " " +:+ ">" +:+ " "
                            +:+ o))
                     np (Some (path_str (Path rp ++ rel))) None true None
                     (Some get_engine_network_job_cmd) None in
                 (set_task (set_job_script script (task entered)) entered,
                  inr script)
             | inl e => (entered, inl e)
             end
         | Some _, None => (entered, inl (AttributeError "infile"))
         | None, _ => (entered, inl (AttributeError "outfile"))
         end
    else (entered, inl (UnboundLocalError "job_script")).
Proof.
  intros Hrp. cbv zeta. unfold create_job_script_self. rewrite Hrp.
  cbn [task set_task task_name project_dir engine_path set_engine_path
       infile outfile task_dir].
  destruct (bool_decide _); [|reflexivity].
  destruct (outfile self) as [o|]; [|reflexivity].
  destruct (infile self) as [i|]; [|reflexivity].
  cbn. now destruct (relative_to _ _).
Qed.

(** X15: The script of a built task, run locally.  For a simulation task
    (that is not also listed for post-processing) [create_job_script]
    returns, leaves the world alone and stores the script assembled from
    the configured engine path, the two file names of the task and its
    directory, with the configured launcher.  For any task that is not a
    simulation task it raises [UnboundLocalError]. *)
Theorem built_task_local_job_script cfg l deps w t w1 (np : Z) (w2 : world) :
  BaseNwchemTask__init__ cfg l deps w = (inr t, w1) ->
  (task_name (task t) ∈ simulation_tasks ->
   task_name (task t) ∉ post_processing_tasks ->
   exists fn,
     py_get (task_data t) "file_name" = inr (PyStr fn)
     /\ create_job_script t np None w2
        = (inr (set_task
                  (set_job_script
                     (assemable_job_cmd
                        (Some (engine_path (task t) +:+ " " +:+ (fn +:+ ".nwi")
                               +:+ " " +:+ ">" +:+ " " +:+ (fn +:+ ".nwo")))
                        np (Some (path_str (task_dir t)))
                        (Some (mpi_path (task t))) false None None None)
                     (task t)) t), w2))
  /\ (task_name (task t) ∉ simulation_tasks ->
      create_job_script t np None w2
      = (inl (UnboundLocalError "job_script"), w2)).
Proof.
  intros H. apply BaseNwchemTask__init___files in H as (_ & _ & Hfiles).
  unfold create_job_script. rewrite create_job_script_self_local. split.
  - intros Hsim Hpost.
    rewrite bool_decide_eq_false_2 in Hfiles by exact Hpost.
    destruct Hfiles as (fn & Hfn & Hi & Ho). exists fn. split; [exact Hfn|].
    rewrite bool_decide_eq_true_2 by exact Hsim.
    rewrite Hi, Ho. reflexivity.
  - intros Hsim. now rewrite bool_decide_eq_false_2 by exact Hsim.
Qed.

(** What a call of [create_job_script] leaves of the object. *)
Lemma create_job_script_self_fields (self : BaseNwchemTask) (np : Z)
    (remote_path : option string) :
  let after := (create_job_script_self self np remote_path).1 in
  engine_path (task after)
  = (if truthy remote_path then "nwchem" else engine_path (task self))
  /\ infile after = infile self /\ outfile after = outfile self
  /\ task_dir after = task_dir self
  /\ mpi_path (task after) = mpi_path (task self)
  /\ task_name (task after) = task_name (task self).
Proof.
  cbv zeta. unfold create_job_script_self.
  destruct (truthy remote_path);
    cbn [task set_task task_name set_engine_path];
    (destruct (bool_decide _); [|cbn; repeat split; reflexivity]);
    match goal with
    | |- context [match ?r with inr _ => _ | inl _ => _ end] => destruct r
    end; cbn; repeat split; reflexivity.
Qed.

(** X16: A call of [create_job_script] with a remote path leaves the
    engine path of the task at the literal [nwchem], whether it returns
    or raises.  When it returns, the script runs [nwchem] on the two
    files, without the configured launcher, in the directory
    [Path(remote_path) / rel] where [rel] is the task directory relative
    to the project's grandparent.  A script made later for the local
    machine, after a return or a raise, runs [nwchem] too and not the
    configured engine path. *)
Theorem remote_script_fixes_engine_path
    (self : BaseNwchemTask) (np : Z) (rp : string) :
  truthy (Some rp) = true ->
  let after := (create_job_script_self self np (Some rp)).1 in
  engine_path (task after) = "nwchem"
  /\ (forall w t w',
        create_job_script self np (Some rp) w = (inr t, w') ->
        t = after /\ w' = w
        /\ exists i o rel,
             infile self = Some i /\ outfile self = Some o
             /\ relative_to (task_dir self)
                  (parent (parent (project_dir (task self)))) = inr rel
             /\ job_script (task t)
                = Some (assemable_job_cmd
                          (Some ("nwchem" +:+ " " +:+ i +:+ " " +:+ ">" +:+ " "
                                 +:+ o))
                          np (Some (path_str (Path rp ++ rel))) None true None
                          (Some get_engine_network_job_cmd) None))
  /\ (forall np' w2 t' w2',
        create_job_script after np' None w2 = (inr t', w2') ->
        exists i o,
          infile self = Some i /\ outfile self = Some o
          /\ job_script (task t')
             = Some (assemable_job_cmd
                       (Some ("nwchem" +:+ " " +:+ i +:+ " " +:+ ">" +:+ " "
                              +:+ o))
                       np' (Some (path_str (task_dir self)))
                       (Some (mpi_path (task self))) false None None None))
  /\ (is_Some (infile self) -> is_Some (outfile self) ->
      task_name (task self) ∈ simulation_tasks ->
      forall np' w2, exists t', create_job_script after np' None w2 = (inr t', w2)).
Proof.
  intros Hrp. cbv zeta.
  pose proof (create_job_script_self_remote self np rp Hrp) as Hrun.
  cbv zeta in Hrun.
  set (entered := set_task (set_engine_path "nwchem" (task self)) self) in *.
  destruct (create_job_script_self_fields self np (Some rp))
    as (Hep & Hi & Ho & Hd & Hm & Hn).
  rewrite Hrp in Hep.
  split; [exact Hep|]. split; [|split].
  - intros w t w' H. unfold create_job_script in H.
    rewrite Hrun in H |- *. clear Hep Hi Ho Hd Hm Hn.
    destruct (bool_decide _); [|discriminate].
    destruct (outfile self) as [o|]; [|discriminate].
    destruct (infile self) as [i|]; [|discriminate].
    destruct (relative_to _ _) as [e|rel]; [discriminate|].
    cbv zeta in H |- *. injection H as <- <-.
    split; [reflexivity|]. split; [reflexivity|].
    exists i, o, rel. auto.
  - intros np' w2 t' w2' H. unfold create_job_script in H.
    rewrite create_job_script_self_local in H.
    rewrite Hn, Hi, Ho, Hep, Hd, Hm in H.
    destruct (bool_decide _); [|discriminate].
    destruct (outfile self) as [o|]; [|discriminate].
    destruct (infile self) as [i|]; [|discriminate].
    cbv zeta in H. injection H as <- _. exists i, o. auto.
  - intros [i Hi'] [o Ho'] Hsim np' w2. unfold create_job_script.
    rewrite create_job_script_self_local.
    rewrite Hn, Hi, Ho, Hi', Ho', bool_decide_eq_true_2 by exact Hsim.
    cbv zeta. eauto.
Qed.

End BuiltTask.

Section BuiltTaskSample.

#[local] Existing Instance Sample.env.

(** The ground-state task of the sample project, for four processes. *)
Lemma built_task_local_job_script_witness :
  match BaseNwchemTask__init__ Sample.cfg 1%positive None Sample.world0 with
  | (inr t, w1) =>
      match create_job_script t 4 None w1 with
      | (inr t', _) =>
          job_script (task t')
          = Some (join [ "#!/bin/bash";
                         "cd /home/u/proj/nwchem/ground_state;";
                         "/usr/bin/mpirun -np 4 /opt/nwchem/bin/nwchem gs.nwi > gs.nwo" ])
      | _ => False
      end
  | _ => False
  end.
Proof.
  set (built := BaseNwchemTask__init__ Sample.cfg 1%positive None
                  Sample.world0).
  assert (match built.1 with
          | inr t =>
              task_name (task t) = "ground_state"
              /\ engine_path (task t) = "/opt/nwchem/bin/nwchem"
              /\ mpi_path (task t) = "/usr/bin/mpirun"
              /\ task_dir t = Sample.project ++ ["nwchem"; "ground_state"]
              /\ py_get (task_data t) "file_name" = inr (PyStr "gs")
          | inl _ => False
          end) as Hfacts by (vm_compute; auto 10).
  destruct built as [[e|t] w1] eqn:Hinit; [contradiction|].
  cbn [fst] in Hfacts. destruct Hfacts as (Hn & He & Hm & Hd & Hf).
  destruct (built_task_local_job_script _ _ _ _ _ _ 4 w1 Hinit) as [Hsim _].
  destruct Hsim as (fn & Hfn & Hrun).
  - rewrite Hn. left.
  - rewrite Hn. unfold post_processing_tasks. cbn.
    rewrite !elem_of_cons, elem_of_nil. intros [|[|[]]]; discriminate.
  - rewrite Hrun. cbn [task set_task job_script set_job_script].
    rewrite Hf in Hfn. injection Hfn as <-.
    rewrite He, Hm, Hd. vm_compute. reflexivity.
Defined.

(** The same task, first scripted for a remote machine whose path is
    given with a trailing slash. *)
Lemma remote_script_fixes_engine_path_witness :
  match BaseNwchemTask__init__ Sample.cfg 1%positive None Sample.world0 with
  | (inr t, w1) =>
      match create_job_script t 1 (Some "/scratch/") w1 with
      | (inr t', _) =>
          engine_path (task t) = "/opt/nwchem/bin/nwchem"
          /\ engine_path (task t') = "nwchem"
          /\ job_script (task t')
             = Some (join [ "#!/bin/bash"; get_engine_network_job_cmd;
                            "cd /scratch/u/proj/nwchem/ground_state;";
                            "bash -c 'echo $$;  nwchem gs.nwi > gs.nwo'";
                            "touch Done" ])
          /\ exists t2,
               create_job_script t' 1 None w1 = (inr t2, w1)
               /\ job_script (task t2)
                  = Some (join [ "#!/bin/bash";
                                 "cd /home/u/proj/nwchem/ground_state;";
                                 "bash -c 'echo $$;  nwchem gs.nwi > gs.nwo'" ])
      | _ => False
      end
  | _ => False
  end.
Proof.
  set (built := BaseNwchemTask__init__ Sample.cfg 1%positive None
                  Sample.world0).
  assert (match built.1 with
          | inr t =>
              engine_path (task t) = "/opt/nwchem/bin/nwchem"
              /\ mpi_path (task t) = "/usr/bin/mpirun"
              /\ task_dir t = Sample.project ++ ["nwchem"; "ground_state"]
              /\ project_dir (task t) = Sample.project
              /\ task_name (task t) = "ground_state"
              /\ infile t = Some "gs.nwi" /\ outfile t = Some "gs.nwo"
              /\ match (create_job_script t 1 (Some "/scratch/") built.2).1 with
                 | inr _ => True
                 | inl _ => False
                 end
          | inl _ => False
          end) as Hfacts by (vm_compute; auto 10).
  destruct built as [[e|t] w1] eqn:Hinit; [contradiction|].
  cbn [fst snd] in Hfacts.
  destruct Hfacts as (He & Hm & Hd & Hp & Hn & Hi & Ho & Hrun).
  destruct (create_job_script t 1 (Some "/scratch/") w1) as [[e|t'] w2]
    eqn:Hremote; [contradiction|].
  destruct (remote_script_fixes_engine_path t 1 "/scratch/" eq_refl)
    as (Hep & Hret & Hlater & Hagain).
  destruct (Hret _ _ _ Hremote)
    as (Ht' & _ & i & o & rel & Hi' & Ho' & Hrel & Hscript).
  split; [exact He|]. rewrite Ht'. split; [exact Hep|].
  rewrite Hi in Hi'. injection Hi' as <-.
  rewrite Ho in Ho'. injection Ho' as <-.
  rewrite Hd, Hp in Hrel. vm_compute in Hrel. injection Hrel as <-.
  split.
  { rewrite <- Ht', Hscript. vm_compute. reflexivity. }
  destruct (Hagain ltac:(rewrite Hi; eauto) ltac:(rewrite Ho; eauto)
              ltac:(rewrite Hn; left) 1 w1) as [t2 Hrun2].
  exists t2. split; [exact Hrun2|].
  destruct (Hlater _ _ _ _ Hrun2) as (i & o & Hi' & Ho' & Hscript2).
  rewrite Hi in Hi'. injection Hi' as <-.
  rewrite Ho in Ho'. injection Ho' as <-.
  rewrite Hscript2, Hm, Hd. vm_compute. reflexivity.
Defined.

End BuiltTaskSample.

(** ** A built task has no input text *)

Section NoTemplate.

Context {env : Env}.
Variable l : loc.

#[local] Abbreviation NT := (no_template l).

Lemma nt_keeps {X} (m : M X) :
  (forall w r w', m w = (r, w') -> w_infos w' = w_infos w) ->
  spec NT m (fun _ => True).
Proof.
  intros Hm w r w' (info & Hi & Hnt) H. split; [|now destruct r].
  exists info. rewrite (Hm _ _ _ H). auto.
Qed.

Lemma nt_get_fs : spec NT get_fs (fun _ => True).
Proof. apply nt_keeps. now intros w r w' [= <- <-]. Qed.

Lemma nt_read_dict l' : spec NT (read_dict l') (fun _ => True).
Proof.
  apply nt_keeps. intros w r w'. unfold read_dict.
  now destruct (w_dicts w !! l'); intros [= <- <-].
Qed.

Lemma nt_setitem l' k v : spec NT (setitem l' k v) (fun _ => True).
Proof.
  apply nt_keeps. intros w r w'.
  cbv [setitem mbind M_bind read_dict write_dict].
  now destruct (w_dicts w !! l'); intros [= <- <-].
Qed.

Lemma nt_update_td_param param : spec NT (update_td_param param) (fun _ => True).
Proof.
  apply nt_keeps. intros w r w' H.
  exact (proj1 (proj2 (proj2 (proj1 (update_td_param_frame param w w r w'
                                       (touches_refl _ _ _) H))))).
Qed.

Lemma nt_get_info l' :
  spec NT (get_info l') (fun info => l' = l -> has_no_template info).
Proof.
  intros w r w' (info & Hi & Hnt). unfold get_info.
  destruct (w_infos w !! l') as [info'|] eqn:E; intros [= <- <-].
  - split; [exists info; auto|]. intros ->. congruence.
  - split; [exists info; auto|exact I].
Qed.

Lemma nt_put_info l' info :
  (l' = l -> has_no_template info) -> spec NT (put_info l' info) (fun _ => True).
Proof.
  intros Hinfo w r w' (info0 & Hi & Hnt) [= <- <-]. split; [|exact I].
  destruct (decide (l' = l)) as [->|Hne].
  - exists info. cbn. rewrite lookup_insert_eq. auto.
  - exists info0. cbn. rewrite lookup_insert_ne by exact Hne. auto.
Qed.

Lemma nt_dependent_task deps i :
  spec NT (dependent_task deps i) (fun _ => True).
Proof.
  apply nt_keeps. intros w r w'. unfold dependent_task, get_info, raise.
  repeat case_match; now intros [= <- <-].
Qed.

Lemma nt_dependent_outfile self i :
  spec NT (dependent_outfile self i) (fun _ => True).
Proof.
  apply nt_keeps. intros w r w'.
  cbv [dependent_outfile dependent_task get_info raise mbind M_bind mret M_ret].
  repeat case_match; intros; simplify_eq/=; reflexivity.
Qed.

Lemma nt_set_engine_path_key l' v :
  spec NT (set_engine_input l' "path" v) (fun _ => True).
Proof.
  unfold set_engine_input.
  eapply spec_bind; [apply nt_get_info|intros info Hinfo].
  eapply (spec_bind _ _ _ (fun ei => l' = l ->
            exists d, ei = PyDict d /\ dict_lookup "data" d = None)).
  { intros w r w' HI H. unfold lift in H. injection H as E <-.
    split; [exact HI|]. destruct r as [e|ei]; [exact I|].
    intros Hl. destruct (Hinfo Hl) as (d & Hd & Hnone).
    unfold py_getitem in E. rewrite Hd in E. injection E as <-. eauto. }
  intros ei Hei.
  eapply (spec_bind _ _ _ (fun ei' => l' = l ->
            exists d, ei' = PyDict d /\ dict_lookup "data" d = None)).
  { intros w r w' HI H. unfold lift in H. injection H as E <-.
    split; [exact HI|]. destruct r as [e|ei']; [exact I|].
    intros Hl. destruct (Hei Hl) as (d & -> & Hnone).
    injection E as <-. eexists. split; [reflexivity|].
    now rewrite dict_lookup_set_ne by discriminate. }
  intros ei' Hei'. apply nt_put_info. intros Hl.
  destruct (Hei' Hl) as (d & -> & Hnone). exists d.
  split; [apply dict_lookup_set_eq|exact Hnone].
Qed.

Lemma nt_set_output info x :
  has_no_template info -> has_no_template (TaskInfo.set_output x info).
Proof. intros H. exact H. Qed.

(** [create_engine] leaves the record of its task without input text,
    whatever the record held before. *)
Lemma create_engine_no_template self td param w t w' :
  task_info self = l ->
  create_engine self td param w = (inr t, w') -> NT w'.
Proof.
  intros Hl H. unfold create_engine in H. rewrite Hl in H.
  apply bind_inv in H as [(? & _ & [=])|(fs & w1 & Hfs & H)].
  injection Hfs as _ <-.
  apply bind_inv in H as [(? & _ & [=])|(fn0 & w2 & Hfn & H)].
  injection Hfn as _ <-.
  apply bind_inv in H as [(? & _ & [=])|(info & w3 & Hinfo & H)].
  unfold get_info in Hinfo.
  destruct (w_infos w !! l) as [info0|] eqn:E; [|discriminate].
  injection Hinfo as <- <-.
  apply bind_inv in H as [(? & _ & [=])|([] & w4 & Hput & H)].
  injection Hput as <-.
  match type of H with ?m ?w4 = _ =>
    assert (NT w4) as H4;
      [|assert (spec NT m (fun _ => True)) as Hrest;
        [|exact (proj1 (Hrest _ _ _ H4 H))]]
  end.
  - eexists. cbn. rewrite lookup_insert_eq. split; [reflexivity|].
    exists []. cbn. split; [apply dict_lookup_set_eq|reflexivity].
  - repeat first
      [ apply spec_raise
      | apply spec_ret; exact I
      | apply spec_lift
      | apply nt_get_fs
      | apply nt_read_dict
      | apply nt_setitem
      | apply nt_update_td_param
      | apply nt_dependent_task
      | apply nt_dependent_outfile
      | apply nt_set_engine_path_key
      | apply nt_put_info; intros ?; apply nt_set_output; solve [auto]
      | eapply spec_bind; [apply nt_get_info|intros ? ?]
      | eapply (spec_bind _ _ _ (fun _ => True)); [|intros ? _]
      | match goal with
        | |- spec _ (if ?b then _ else _) _ => destruct b
        | |- spec _ (match ?x with _ => _ end) _ => destruct x
        end ].
Qed.

End NoTemplate.

Section FreshTask.

Context {env : Env}.

Lemma built_task_no_template cfg l deps w t w' :
  BaseNwchemTask__init__ cfg l deps w = (inr t, w') ->
  task_info (task t) = l /\ no_template l w'.
Proof.
  intros H. pose proof H as H0. unfold BaseNwchemTask__init__ in H.
  apply bind_inv in H as [(? & _ & [=])|(self & w1 & Hself & H)].
  apply bind_inv in H as [(? & _ & [=])|(info & w2 & _ & H)].
  apply bind_inv in H as [(? & _ & [=])|(param & w3 & _ & H)].
  apply bind_inv in H as [(? & _ & [=])|(ui & w4 & _ & H)].
  apply Task__init___task_info in Hself as [Hl _].
  pose proof (create_engine_no_template l _ _ _ _ _ _ Hl H) as Hnt.
  apply create_engine_files in H as (-> & _). auto.
Qed.

Lemma no_template_get_engine_input self w :
  no_template (task_info self) w ->
  get_engine_input self w = (inl (KeyError "data"), w).
Proof.
  intros (info & Hi & ei & Hei & Hdata). unfold get_engine_input.
  rewrite (get_info_bind _ _ _ _ Hi).
  cbv [py_getitem mbind M_bind lift ok throw]. now rewrite Hei, Hdata.
Qed.

(** X17: Building a task discards any input text its record held: on the
    task as built, whatever its type and whatever the record held before,
    [get_engine_input] raises [KeyError] for ['data'] until a template is
    created or a text is set. *)
Theorem built_task_has_no_input_text cfg l deps w t w' :
  BaseNwchemTask__init__ cfg l deps w = (inr t, w') ->
  get_engine_input (task t) w' = (inl (KeyError "data"), w').
Proof.
  intros H. apply built_task_no_template in H as [Hl Hnt].
  apply no_template_get_engine_input. now rewrite Hl.
Qed.

End FreshTask.

Section FreshTaskSample.

#[local] Existing Instance Sample.env.

(** A record that holds a text from an earlier session: the task built
    on it has none. *)
Lemma built_task_has_no_input_text_witness :
  let info :=
    TaskInfo.set_input [("engine_input", PyDict [("data", PyStr "old text")])]
      (Sample.gs_info 1%positive 2%positive) in
  let w := (put_info 1%positive info Sample.world0).2 in
  match BaseNwchemTask__init__ Sample.cfg 1%positive None w with
  | (inr t, w') =>
      (get_engine_input (task t) w).1 = inr (PyStr "old text")
      /\ get_engine_input (task t) w' = (inl (KeyError "data"), w')
  | _ => False
  end.
Proof.
  cbv zeta.
  match goal with |- match ?b with _ => _ end => set (built := b) end.
  assert (match built.1 with
          | inr t =>
              (get_engine_input (task t)
                 (put_info 1%positive
                    (TaskInfo.set_input
                       [("engine_input", PyDict [("data", PyStr "old text")])]
                       (Sample.gs_info 1%positive 2%positive))
                    Sample.world0).2).1
              = inr (PyStr "old text")
          | inl _ => False
          end) as Hfacts by (vm_compute; reflexivity).
  destruct built as [[e|t] w'] eqn:Hinit; [contradiction|].
  split; [exact Hfacts|].
  exact (built_task_has_no_input_text _ _ _ _ _ _ Hinit).
Defined.

End FreshTaskSample.

(** ** Writing the input *)




Lemma set_engine_input_inv l k v w w' :
  set_engine_input l k v w = (inr tt, w') ->
  exists info ei,
    w_infos w !! l = Some info
    /\ dict_lookup "engine_input" (TaskInfo.input info) = Some (PyDict ei)
    /\ w' = {| w_fs := w_fs w; w_files := w_files w; w_dicts := w_dicts w;
               w_infos :=
                 <[l := TaskInfo.set_input
                          (dict_set "engine_input" (PyDict (dict_set k v ei))
                             (TaskInfo.input info)) info]> (w_infos w) |}.
Proof.
  cbv [set_engine_input mbind M_bind lift get_info put_info py_getitem
       py_setitem ok throw].
  intros H. destruct (w_infos w !! l) as [info|] eqn:Ei; [|discriminate].
  destruct (dict_lookup "engine_input" (TaskInfo.input info)) as [ei|] eqn:Ee;
    [|discriminate].
  destruct ei; try discriminate. injection H as <-.
  do 2 eexists. split; [reflexivity|]. split; [exact Ee|reflexivity].
Qed.

(** [write_input] is [create_directory], unless something of the name
    exists, and then the read of the text and the engine's write. *)
Lemma nwchem_write_input_run `{Env} (self : BaseNwchemTask) (w : world) :
  nwchem_write_input self w
  = match (if decide (task_dir self ∈ w_fs w ∪ w_files w) then (inr tt, w)
           else create_directory (task_dir self) w) with
    | (inr _, w1) =>
        (info ← get_info (task_info (task self));
         engine_input ←
           lift (py_getitem (PyDict (TaskInfo.input info)) "engine_input");
         template ← lift (py_getitem engine_input "data");
         engine_write_input (nwchem self) template) w1
    | (inl e, w1) => (inl e, w1)
    end.
Proof.
  unfold nwchem_write_input.
  rewrite bind_run. cbn [get_fs]. rewrite bind_run. cbn [get_files].
  rewrite bind_run. now destruct (decide _).
Qed.

Section WriteInput.

Context {env : Env}.



(** X19: After [create_template] has returned, the task's input text is
    what the engine rendered, and [write_input] hands exactly that text
    to the engine, in the world [create_directory] leaves, whenever
    [create_directory] returns for the task's directory or a regular
    file of that name exists; the only other case is that
    [create_directory] raises, and then [write_input] raises the same
    error, changes nothing and the engine is not reached. *)
Theorem written_input_is_rendered_template (self : BaseNwchemTask) w w1 :
  nwchem_create_template self w = (inr tt, w1) ->
  exists template,
    NWChem_create_input (nwchem self) = inr template
    /\ get_engine_input (task self) w1 = (inr template, w1)
    /\ ((create_directory (task_dir self) w1).1 = inr tt
        \/ task_dir self ∈ w_files w1 ->
        nwchem_write_input self w1
        = engine_write_input (nwchem self) template
            (create_directory (task_dir self) w1).2)
    /\ (forall e,
          task_dir self ∉ w_files w1 ->
          (create_directory (task_dir self) w1).1 = inl e ->
          nwchem_write_input self w1 = (inl e, w1)).
Proof.
  intros H. unfold nwchem_create_template in H.
  apply bind_inv in H as [(? & _ & [=])|(template & w2 & Ht & H)].
  injection Ht as Ht <-.
  apply bind_inv in H as [(? & _ & [=])|(info & w3 & _ & H)].
  apply bind_inv in H as [(? & _ & [=])|(ui & w4 & _ & H)].
  apply bind_inv in H as [(? & _ & [=])|(ep & w5 & _ & H)].
  apply bind_inv in H as [(? & _ & [=])|([] & w6 & _ & H)].
  apply set_engine_input_inv in H as (info' & ei & Hi & Hei & ->).
  exists template. split; [exact Ht|].
  match goal with |- context [get_engine_input _ ?x] => set (w1 := x) end.
  assert (exists info2 ei2,
            w_infos w1 !! task_info (task self) = Some info2
            /\ dict_lookup "engine_input" (TaskInfo.input info2)
               = Some (PyDict ei2)
            /\ dict_lookup "data" ei2 = Some template)
    as (info2 & ei2 & Hi2 & Hei2 & Hdata).
  { eexists _, _. split; [cbn; apply lookup_insert_eq|].
    cbn [TaskInfo.input TaskInfo.set_input].
    split; apply dict_lookup_set_eq. }
  clearbody w1.
  assert (forall w' : world, w_infos w' = w_infos w1 ->
            (info ← get_info (task_info (task self));
             engine_input ←
               lift (py_getitem (PyDict (TaskInfo.input info))
                       "engine_input");
             template ← lift (py_getitem engine_input "data");
             engine_write_input (nwchem self) template) w'
            = engine_write_input (nwchem self) template w') as Hread.
  { intros w' Hw'.
    erewrite get_info_bind by (rewrite Hw'; exact Hi2).
    cbv [py_getitem mbind M_bind lift ok throw]. now rewrite Hei2, Hdata. }
  split; [|split].
  - unfold get_engine_input. rewrite (get_info_bind _ _ _ _ Hi2).
    cbv [py_getitem mbind M_bind lift ok throw]. now rewrite Hei2, Hdata.
  - rewrite nwchem_write_input_run, create_directory_run.
    destruct (decide (task_dir self ∈ w_fs w1)) as [Hin|Hout].
    { intros _. rewrite decide_True by (apply elem_of_union; auto). now apply Hread. }
    destruct (decide (task_dir self ∈ w_files w1)) as [Hfile|Hnofile].
    { intros _. rewrite decide_True by (apply elem_of_union; auto). now apply Hread. }
    rewrite decide_False
      by (intros [?|?]%elem_of_union; contradiction).
    destruct (existsb _ _); cbn [fst snd].
    + intros [[=]|Hfile]. contradiction.
    + intros _. now apply Hread.
  - intros e Hnofile. rewrite nwchem_write_input_run, create_directory_run.
    destruct (decide (task_dir self ∈ w_fs w1)) as [Hin|Hout];
      [discriminate|].
    rewrite decide_False by exact Hnofile.
    rewrite decide_False
      by (intros [?|?]%elem_of_union; contradiction).
    destruct (existsb _ _); cbn [fst]; [now intros [= <-]|discriminate].
Qed.

End WriteInput.

Section WriteInputSample.

#[local] Existing Instance Sample.env.


Lemma written_input_is_rendered_template_witness :
  match BaseNwchemTask__init__ Sample.cfg 1%positive None Sample.world0 with
  | (inr t, w1) =>
      match nwchem_create_template t w1 with
      | (inr _, w2) =>
          get_engine_input (task t) w2 = (inr (PyStr "title proj"), w2)
          /\ (nwchem_write_input t w2).1 = inr tt
      | _ => False
      end
  | _ => False
  end.
Proof.
  set (built := BaseNwchemTask__init__ Sample.cfg 1%positive None
                  Sample.world0).
  assert (match built.1 with
          | inr t =>
              NWChem_create_input (nwchem t) = inr (PyStr "title proj")
              /\ match nwchem_create_template t built.2 with
                 | (inr _, w2) =>
                     (create_directory (task_dir t) w2).1 = inr tt
                 | (inl _, _) => False
                 end
          | inl _ => False
          end) as Hok by (vm_compute; auto).
  destruct built as [[e|t] w1] eqn:Hinit; [contradiction|].
  cbn [fst snd] in Hok. destruct Hok as [Hrender Hok].
  destruct (nwchem_create_template t w1) as [[e|[]] w2] eqn:Htemplate;
    [contradiction|].
  destruct (written_input_is_rendered_template t w1 w2 Htemplate)
    as (template & Ht & Hget & Hwrite & _).
  rewrite Hrender in Ht. injection Ht as <-.
  split; [exact Hget|]. rewrite Hwrite by (left; exact Hok). reflexivity.
Defined.

End WriteInputSample.

(** ** Publishing the user input *)

Lemma dict_lookup_update_absent k (d o : dict) :
  dict_lookup k o = None -> dict_lookup k (dict_update d o) = dict_lookup k d.
Proof.
  unfold dict_update. revert d.
  induction o as [|[k' v'] o IH]; intros d; [reflexivity|]. simpl.
  destruct (decide (k' = k)); [discriminate|]. intros H.
  rewrite (IH _ H). now apply dict_lookup_set_ne.
Qed.

Lemma dict_lookup_None_keys k (d : dict) : dict_lookup k d = None <-> k ∉ d.*1.
Proof.
  induction d as [|[k' v'] d IH]; simpl.
  - split; [intros _; apply not_elem_of_nil|reflexivity].
  - rewrite not_elem_of_cons. destruct (decide (k' = k)) as [->|Hne].
    + split; [discriminate|]. now intros [? _].
    + rewrite IH. split; [now split|now intros [_ ?]].
Qed.

Lemma dict_lookup_update_present k v (d o : dict) :
  NoDup o.*1 -> dict_lookup k o = Some v ->
  dict_lookup k (dict_update d o) = Some v.
Proof.
  unfold dict_update. revert d.
  induction o as [|[k' v'] o IH]; intros d; [discriminate|]. simpl.
  intros Hnd. apply NoDup_cons in Hnd as [Hout Hnd].
  destruct (decide (k' = k)) as [->|Hne].
  - intros [= ->].
    change (foldl _ ?a o) with (dict_update a o).
    rewrite dict_lookup_update_absent by now apply dict_lookup_None_keys.
    apply dict_lookup_set_eq.
  - intros H. now apply IH.
Qed.

Section Publish.

Context {env : Env}.

(** X20: [create_template] publishes the user input in the record's engine
    parameters: afterwards every key of the user input has there the
    value the user input gives it, and every other key of the engine
    parameters has the value it had. *)
Theorem create_template_publishes_user_input
    (self : BaseNwchemTask) w w1 info ui ep :
  nwchem_create_template self w = (inr tt, w1) ->
  w_infos w !! task_info (task self) = Some info ->
  w_dicts w !! user_input self = Some ui ->
  w_dicts w !! TaskInfo.engine_param info = Some ep ->
  NoDup ui.*1 ->
  exists ep',
    w_dicts w1 !! TaskInfo.engine_param info = Some ep'
    /\ (forall k v, dict_lookup k ui = Some v -> dict_lookup k ep' = Some v)
    /\ (forall k, dict_lookup k ui = None ->
          dict_lookup k ep' = dict_lookup k ep).
Proof.
  intros H Hi Hui Hep Hnd. unfold nwchem_create_template in H.
  apply bind_inv in H as [(? & _ & [=])|(template & w2 & Ht & H)].
  injection Ht as Ht <-.
  rewrite (get_info_bind _ _ _ _ Hi) in H.
  rewrite (read_dict_bind _ _ _ _ Hui) in H.
  rewrite (read_dict_bind _ _ _ _ Hep) in H.
  apply bind_inv in H as [(? & _ & [=])|([] & w3 & Hw & H)].
  injection Hw as <-.
  apply set_engine_input_inv in H as (info' & ei & _ & _ & ->).
  exists (dict_update ep ui). cbn. rewrite lookup_insert_eq.
  split; [reflexivity|].
  split; [intros k v; now apply dict_lookup_update_present|].
  intros k. apply dict_lookup_update_absent.
Qed.

End Publish.

Section PublishSample.

#[local] Existing Instance Sample.env.

Lemma create_template_publishes_user_input_witness :
  match BaseNwchemTask__init__ Sample.cfg 1%positive None Sample.world0 with
  | (inr t, w1) =>
      match nwchem_create_template t w1 with
      | (inr _, w2) =>
          exists ep',
            w_dicts w2 !! 2%positive = Some ep'
            /\ dict_lookup "basis" ep' = Some (PyStr "6-31g")
      | _ => False
      end
  | _ => False
  end.
Proof.
  set (built := BaseNwchemTask__init__ Sample.cfg 1%positive None
                  Sample.world0).
  assert (match built.1 with
          | inr t =>
              task_info (task t) = 1%positive
              /\ w_infos built.2 !! 1%positive
                 = Some (TaskInfo.set_output [("txt_out", PyStr "nwchem/ground_state/gs.nwo")]
                           (TaskInfo.set_input
                              [("engine_input",
                                PyDict [("path", PyStr "nwchem/ground_state/gs.nwi")])]
                              (Sample.gs_info 1%positive 2%positive)))
              /\ w_dicts built.2 !! 2%positive = Some []
              /\ match w_dicts built.2 !! user_input t with
                 | Some ui =>
                     dict_lookup "basis" ui = Some (PyStr "6-31g")
                     /\ bool_decide (NoDup ui.*1) = true
                 | None => False
                 end
              /\ match (nwchem_create_template t built.2).1 with
                 | inr _ => True
                 | inl _ => False
                 end
          | inl _ => False
          end) as Hok by (vm_compute; auto 10).
  destruct built as [[e|t] w1] eqn:Hinit; [contradiction|].
  cbn [fst snd] in Hok. destruct Hok as (Hl & Hi & Hep & Hui & Hok).
  destruct (w_dicts w1 !! user_input t) as [ui|] eqn:Eui; [|contradiction].
  destruct Hui as [Hbasis Hnd]. apply bool_decide_eq_true in Hnd.
  destruct (nwchem_create_template t w1) as [[e|[]] w2] eqn:Htemplate;
    [contradiction|].
  match type of Hi with _ = Some ?i =>
    pose proof (create_template_publishes_user_input t w1 w2 i ui []
                  Htemplate) as T
  end.
  rewrite Hl in T.
  destruct (T Hi Eui Hep Hnd) as (ep' & Hep' & Hin & _).
  exists ep'. split; [exact Hep'|]. now apply Hin.
Defined.

End PublishSample.

(** ** Reading the direction back *)

Lemma pop_default_inv l k dflt w d r w' :
  w_dicts w !! l = Some d ->
  pop_default l k dflt w = (r, w') ->
  r = inr (default dflt (dict_lookup k d))
  /\ w' = set_dict l (dict_remove k d) w
  /\ w_dicts w' !! l = Some (dict_remove k d).
Proof.
  intros Hd H. rewrite (pop_default_run _ _ _ _ _ Hd) in H.
  injection H as <- <-. auto using set_dict_lookup.
Qed.

Lemma pop_inv l k w d v w' :
  w_dicts w !! l = Some d ->
  pop l k w = (inr v, w') ->
  dict_lookup k d = Some v
  /\ w' = set_dict l (dict_remove k d) w
  /\ w_dicts w' !! l = Some (dict_remove k d).
Proof.
  intros Hd H. rewrite (pop_run _ _ _ _ Hd) in H.
  destruct (dict_lookup k d); [|discriminate].
  injection H as <- <-. auto using set_dict_lookup.
Qed.

Lemma setitem_inv l k v w d r w' :
  w_dicts w !! l = Some d ->
  setitem l k v w = (r, w') ->
  r = inr tt /\ w_dicts w' !! l = Some (dict_set k v d).
Proof.
  intros Hd H. unfold setitem in H. rewrite (read_dict_bind _ _ _ _ Hd) in H.
  injection H as <- <-. split; [reflexivity|apply lookup_insert_eq].
Qed.

Lemma lift_inv {X} (r : result X) w x w' :
  lift r w = (inr x, w') -> r = inr x /\ w' = w.
Proof. now intros [= -> <-]. Qed.

Lemma laser_entry_direction name laser entry :
  add_gaussian_laser name laser = inr entry
  \/ add_delta_laser name laser = inr entry ->
  exists dir, has_direction entry dir.
Proof.
  intros [H|H].
  - unfold add_gaussian_laser in H.
    apply result_bind_inv in H as (pol & _ & H).
    apply result_bind_inv in H as (dir & _ & H).
    apply result_bind_inv in H as (frequency & _ & H).
    apply result_bind_inv in H as (center & _ & H).
    apply result_bind_inv in H as (width & _ & H).
    apply result_bind_inv in H as (pol' & _ & H).
    apply result_bind_inv in H as (dir' & Hdir & H).
    apply result_bind_inv in H as (strength & _ & H).
    injection H as <-. exists dir'.
    split; [exact (read_pol_dir_1_direction _ _ Hdir)|reflexivity].
  - unfold add_delta_laser in H.
    apply result_bind_inv in H as (pol & _ & H).
    apply result_bind_inv in H as (dir & _ & H).
    apply result_bind_inv in H as (pol' & _ & H).
    apply result_bind_inv in H as (dir' & Hdir & H).
    apply result_bind_inv in H as (strength & _ & H).
    injection H as <-. exists dir'.
    split; [exact (read_pol_dir_1_direction _ _ Hdir)|reflexivity].
Qed.

(** The loop keeps what the time-propagation record holds beside the
    field list, and the first entry of the list comes from a laser of a
    known type. *)
Lemma laser_loop_first_entry param pol lasers i laser_dict laser_list
    w w' d rt :
  lasers <> [] ->
  laser_loop param pol lasers i laser_dict laser_list w = (inr tt, w') ->
  w_dicts w !! param = Some d ->
  dict_lookup "rt_tddft" d = Some (PyDict rt) ->
  (laser_dict = None /\ laser_list = []
   \/ exists first dir, head laser_list = Some first /\ has_direction first dir) ->
  exists d' rt' first dir rest,
    w_dicts w' !! param = Some d'
    /\ dict_lookup "rt_tddft" d' = Some (PyDict rt')
    /\ dict_lookup "field" rt' = Some (PyList (first :: rest))
    /\ has_direction first dir
    /\ forall k, k <> "field" -> dict_lookup k rt' = dict_lookup k rt.
Proof.
  revert i laser_dict laser_list w d rt.
  induction lasers as [|laser rest IH];
    intros i laser_dict laser_list w d rt; [contradiction|].
  intros _ H Hd Hrt Hfirst. cbn [laser_loop] in H.
  apply bind_inv in H as [(? & _ & [=])|(has & w1 & H1 & H)].
  apply lift_inv in H1 as [_ ->].
  apply bind_inv in H as [(? & _ & [=])|(laser' & w2 & H2 & H)].
  assert (w2 = w) as ->.
  { destruct has; [now injection H2 as _ <-|].
    now apply lift_inv in H2 as [_ ->]. }
  apply bind_inv in H as [(? & _ & [=])|(type & w3 & H3 & H)].
  apply lift_inv in H3 as [_ ->].
  apply bind_inv in H as [(? & _ & [=])|(ld & w4 & H4 & H)].
  assert (w4 = w /\ (ld = laser_dict
                     \/ exists e, ld = Some e /\ exists dir, has_direction e dir))
    as [-> Hld].
  { destruct (py_eq_str type "gaussian").
    - apply lift_inv in H4 as [H4 ->]. split; [reflexivity|right].
      destruct (add_gaussian_laser _ _) as [?|e] eqn:E; [discriminate|].
      injection H4 as <-. exists e. split; [reflexivity|].
      apply (laser_entry_direction (pretty i) laser'). now left.
    - destruct (py_eq_str type "delta").
      + apply lift_inv in H4 as [H4 ->]. split; [reflexivity|right].
        destruct (add_delta_laser _ _) as [?|e] eqn:E; [discriminate|].
        injection H4 as <-. exists e. split; [reflexivity|].
        apply (laser_entry_direction (pretty i) laser'). now right.
      + injection H4 as <- <-. auto. }
  destruct ld as [e|]; [|discriminate].
  apply bind_inv in H as [(? & _ & [=])|([] & w5 & Hset & H)].
  destruct (set_rt_field_run _ _ _ _ _ Hset eq_refl)
    as (d0 & rt0 & Hd0 & Hrt0 & ->).
  assert (d0 = d) as -> by congruence.
  assert (rt0 = rt) as -> by congruence.
  assert (exists first dir,
            head (laser_list ++ [e]) = Some first /\ has_direction first dir)
    as Hfirst'.
  { destruct Hfirst as [[-> ->]|(first & dir & Hh & Hgood)].
    - destruct Hld as [[=]|(e' & [= <-] & dir & Hgood)].
      exists e, dir. auto.
    - exists first, dir. split; [|exact Hgood].
      destruct laser_list; [discriminate|exact Hh]. }
  set (rt1 := dict_set "field" (PyList (laser_list ++ [e])) rt) in *.
  set (d1 := dict_set "rt_tddft" (PyDict rt1) d) in *.
  destruct rest as [|laser2 rest].
  - injection H as <-.
    destruct Hfirst' as (first & dir & Hh & Hgood).
    destruct (laser_list ++ [e]) as [|f0 tl] eqn:Ell; [discriminate|].
    injection Hh as ->.
    exists d1, rt1, first, dir, tl.
    split; [apply set_dict_lookup|].
    split; [apply dict_lookup_set_eq|].
    split; [apply dict_lookup_set_eq|].
    split; [exact Hgood|].
    intros k Hk. apply dict_lookup_set_ne. congruence.
  - eapply (IH _ _ _ _ d1 rt1) in H as
        (d' & rt' & first & dir & tl & Hd' & Hrt' & Hfield & Hgood & Hkeep);
      [|discriminate|apply set_dict_lookup|apply dict_lookup_set_eq|
       right; exact Hfirst'].
    exists d', rt', first, dir, tl. do 4 (split; [assumption|]).
    intros k Hk. rewrite (Hkeep k Hk). apply dict_lookup_set_ne. congruence.
Qed.

Section ReadBack.

Context {env : Env}.

(** X21: What [update_td_param] leaves in the dictionary is what
    [get_pol_and_tag] expects of a record's engine parameters: after a
    call that returned, [get_pol_and_tag] returns a direction letter,
    never its fallback, and the tag [rt_tddft].  Without lasers the
    letter is that of the dictionary's own polarization. *)
Theorem update_td_param_direction_read_back
    (param : loc) (w w' : world) (d : dict) (taskinfo : TaskInfo.t) :
  w_dicts w !! param = Some d ->
  update_td_param param w = (inr tt, w') ->
  TaskInfo.engine_param taskinfo = param ->
  exists dir,
    dir ∈ directions
    /\ get_pol_and_tag taskinfo w' = (inr (PyStr dir, PyStr "rt_tddft"), w')
    /\ (py_truthy (dict_get "laser" d) = false ->
        read_pol_dir_1 (dict_get "polarization" d) = inr dir).
Proof.
  intros Hd H <-. set (param := TaskInfo.engine_param taskinfo) in *.
  unfold update_td_param in H.
  apply bind_inv in H as [(? & _ & [=])|(strength & w1 & H1 & H)].
  apply (pop_default_inv _ _ _ _ _ _ _ Hd) in H1 as (_ & _ & Hd1).
  apply bind_inv in H as [(? & _ & [=])|(pol & w2 & H2 & H)].
  apply (pop_default_inv _ _ _ _ _ _ _ Hd1) in H2 as ([= ->] & _ & Hd2).
  rewrite dict_lookup_remove_ne in * by discriminate.
  apply bind_inv in H as [(? & _ & [=])|(time_step & w3 & H3 & H)].
  apply (pop_inv _ _ _ _ _ _ Hd2) in H3 as (_ & _ & Hd3).
  apply bind_inv in H as [(? & _ & [=])|(num_step & w4 & H4 & H)].
  apply (pop_inv _ _ _ _ _ _ Hd3) in H4 as (_ & _ & Hd4).
  apply bind_inv in H as [(? & _ & [=])|(out_freq & w5 & H5 & H)].
  apply (pop_inv _ _ _ _ _ _ Hd4) in H5 as (_ & _ & Hd5).
  apply bind_inv in H as [(? & _ & [=])|(properties & w6 & H6 & H)].
  apply (pop_inv _ _ _ _ _ _ Hd5) in H6 as (_ & _ & Hd6).
  apply bind_inv in H as [(? & _ & [=])|(lasers & w7 & H7 & H)].
  apply (pop_default_inv _ _ _ _ _ _ _ Hd6) in H7 as ([= ->] & _ & Hd7).
  rewrite !dict_lookup_remove_ne in * by discriminate.
  apply bind_inv in H as [(? & _ & [=])|(masking & w8 & H8 & H)].
  apply (pop_default_inv _ _ _ _ _ _ _ Hd7) in H8 as (_ & _ & Hd8).
  apply bind_inv in H as [(? & _ & [=])|(tmax & w9 & H9 & H)].
  apply lift_inv in H9 as [_ ->].
  apply bind_inv in H as [(? & _ & [=])|(dt & w10 & H10 & H)].
  apply lift_inv in H10 as [_ ->].
  apply bind_inv in H as [(? & _ & [=])|(print & w11 & H11 & H)].
  apply lift_inv in H11 as [_ ->].
  apply bind_inv in H as [(? & _ & [=])|([] & w12 & H12 & H)].
  apply (setitem_inv _ _ _ _ _ _ _ Hd8) in H12 as (_ & Hd12).
  match type of Hd12 with _ = Some (dict_set _ (PyDict ?r) ?x) =>
    set (rt := r) in *; set (d12 := x) in *
  end.
  assert (exists d' rt' field dir,
            w_dicts w' !! param = Some d'
            /\ dict_lookup "rt_tddft" d' = Some (PyDict rt')
            /\ dict_lookup "field" rt' = Some field
            /\ dir ∈ directions
            /\ match field with
               | PyList fl =>
                   exists first rest,
                     fl = first :: rest
                     /\ py_getitem first "polarization" = inr (PyStr dir)
               | _ => py_getitem field "polarization" = inr (PyStr dir)
               end
            /\ dict_lookup "tag" rt' = None
            /\ (py_truthy (dict_get "laser" d) = false ->
                read_pol_dir_1 (dict_get "polarization" d) = inr dir))
    as (d' & rt' & field & dir & Hd' & Hrt' & Hfield & Hdir & Hpol & Htag
        & Hkick).
  { unfold dict_get.
    destruct (py_truthy (default PyNone (dict_lookup "laser" d))) eqn:Hl.
    - apply bind_inv in H as [(? & _ & [=])|(delay & w13 & H13 & H)].
      apply (pop_default_inv _ _ _ _ _ _ _ Hd12) in H13 as (_ & _ & Hd13).
      apply bind_inv in H as [(? & _ & [=])|([] & w14 & H14 & H)].
      destruct (set_rt_field_run _ _ _ _ _ H14 eq_refl)
        as (d0 & rt0 & Hd0 & Hrt0 & ->).
      rewrite Hd13 in Hd0. injection Hd0 as <-.
      rewrite dict_lookup_remove_ne in Hrt0 by discriminate.
      rewrite dict_lookup_set_eq in Hrt0. injection Hrt0 as <-.
      eapply laser_loop_first_entry in H as
          (d' & rt' & first & dir & tl & Hd' & Hrt' & Hfield & [Hdir Hpol]
           & Hkeep);
        [ |
        | apply set_dict_lookup
        | apply dict_lookup_set_eq
        | left; split; reflexivity ].
      + exists d', rt', (PyList (first :: tl)), dir.
        do 4 (split; [assumption|]). split; [eauto|].
        split; [|discriminate].
        rewrite Hkeep by discriminate.
        rewrite dict_lookup_set_ne by discriminate. reflexivity.
      + destruct (default PyNone (dict_lookup "laser" d)) as [| | | | |x|x];
          try discriminate; destruct x; discriminate.
    - apply bind_inv in H as [(? & _ & [=])|(dir & w13 & H13 & H)].
      apply lift_inv in H13 as [Hdir ->].
      apply bind_inv in H as [(? & _ & [=])|(dir' & w14 & H14 & H)].
      apply lift_inv in H14 as [Hdir' ->].
      assert (dir' = dir) as -> by congruence.
      destruct (set_rt_field_run _ _ _ _ _ H eq_refl)
        as (d0 & rt0 & Hd0 & Hrt0 & ->).
      rewrite Hd12 in Hd0. injection Hd0 as <-.
      rewrite dict_lookup_set_eq in Hrt0. injection Hrt0 as <-.
      eexists _, _, _, dir. split; [apply set_dict_lookup|].
      split; [apply dict_lookup_set_eq|].
      split; [apply dict_lookup_set_eq|].
      split; [exact (read_pol_dir_1_direction _ _ Hdir)|].
      split; [reflexivity|]. split; [reflexivity|]. intros _. exact Hdir. }
  exists dir. split; [exact Hdir|]. split; [|exact Hkick].
  unfold get_pol_and_tag. fold param.
  rewrite (read_dict_bind _ _ _ _ Hd').
  cbv [py_getitem mbind M_bind mret M_ret lift ok throw].
  rewrite Hrt', Hfield.
  unfold py_getitem in Hpol.
  destruct field as [| | | | |fl|fd].
  1-5: discriminate.
  - destruct Hpol as (first & rest & -> & Hpol).
    destruct first as [| | | | | |fd]; try discriminate.
    unfold py_get_default, dict_get_default.
    destruct (dict_lookup "polarization" fd) as [p|]; [|discriminate].
    injection Hpol as ->. now rewrite Htag.
  - unfold py_get_default, dict_get_default.
    destruct (dict_lookup "polarization" fd) as [p|]; [|discriminate].
    injection Hpol as ->. now rewrite Htag.
Qed.

End ReadBack.

Section ReadBackSample.

#[local] Existing Instance Sample.env.

(** The time-propagation parameters of the sample project: a kick
    along x. *)
Lemma update_td_param_direction_read_back_witness :
  match update_td_param 5%positive Sample.world0 with
  | (inr _, w') =>
      get_pol_and_tag (Sample.gs_info 1%positive 5%positive) w'
      = (inr (PyStr "x", PyStr "rt_tddft"), w')
  | _ => False
  end.
Proof.
  set (run := update_td_param 5%positive Sample.world0).
  assert (match run.1 with inr _ => True | inl _ => False end) as Hok
    by (vm_compute; exact I).
  destruct run as [[e|[]] w'] eqn:Hrun; [contradiction|].
  destruct (update_td_param_direction_read_back 5%positive Sample.world0 w'
              Sample.td_param (Sample.gs_info 1%positive 5%positive)
              ltac:(vm_compute; reflexivity) Hrun eq_refl)
    as (dir & _ & Hget & Hkick).
  specialize (Hkick eq_refl). injection Hkick as <-. exact Hget.
Defined.

End ReadBackSample.
